(** * feets.extractors: feature-extractor framework and hard extractors

    A shallow embedding of [feets/extractors.py] (Python 2 semantics: the
    module uses [xrange] and integer [/]).

    - Python exceptions are an error monad ([result]).
    - Dictionaries are [gmap]s, frozensets are [gset]s.
    - [SlottedA_length] and [LombScargle] branch, index and sort on the
      results of float arithmetic; their numbers are IEEE 754 binary64
      values ([F64], on Rocq's primitive floats), so rounding, overflow and
      the special values are the machine's.
    - In the other extractors the statements proved are about the structure
      of the computation; there numpy's float64 values are idealised as
      extended rationals ([Np.float]): finite values are exact rationals, and
      [inf], [-inf] and [nan] are kept because the code produces and
      compares them.
    - scipy / lomb primitives ([lomb.fasper], [minimize], [curve_fit],
      [interp1d]), the transcendental functions and, over binary64, numpy's
      reductions and sorts are black boxes, taken as section variables. *)

From Stdlib Require Import ZArith QArith Qabs Qround List String Bool Lia Lqa.
From Corelib Require PrimFloat SpecFloat FloatOps FloatAxioms.
From stdpp Require Import gmap strings list sorting.
Close Scope Q_scope.
Set Warnings "-register-all".

(** ** Exceptions and the error monad *)

Inductive exn :=
| TypeError (msg : string)
| NameError (name : string)
| AttributeError (attr : string)
| KeyError (key : string)
| IndexError
| ValueError (msg : string)
| NotImplementedError
| FeatureNotFound (msg : string)
| DataReservedNameError (msg : string)
| UserError (tag : string)
| ZeroDivisionError.

Inductive result (A : Type) :=
| Return (a : A)
| Raise (e : exn).
Arguments Return {A} a.
Arguments Raise {A} e.

#[global] Instance result_ret : MRet result := @Return.
#[global] Instance result_bind : MBind result :=
  λ A B f m, match m with Return a => f a | Raise e => Raise e end.
#[global] Instance result_fmap : FMap result :=
  λ A B f m, match m with Return a => Return (f a) | Raise e => Raise e end.

Definition raises {A} (m : result A) : Prop := ∃ e, m = Raise e.

(** ** numpy floats as extended rationals *)

Module Np.

Inductive float := Fin (q : Q) | PInf | NInf | NaN.

Definition of_Z (z : Z) : float := Fin (inject_Z z).
Definition of_nat (n : nat) : float := of_Z (Z.of_nat n).
Definition zero : float := Fin 0%Q.
Definition half : float := Fin (1 # 2)%Q.

Definition Qsgn (q : Q) : Z := Z.sgn (Qnum q).

Definition signed_inf (s : Z) : float :=
  match s with Z0 => NaN | Zpos _ => PInf | Zneg _ => NInf end.

Definition neg (x : float) : float :=
  match x with Fin a => Fin (- a)%Q | PInf => NInf | NInf => PInf | NaN => NaN end.

Definition add (x y : float) : float :=
  match x, y with
  | NaN, _ | _, NaN => NaN
  | Fin a, Fin b => Fin (Qred (a + b))
  | PInf, NInf | NInf, PInf => NaN
  | PInf, _ | _, PInf => PInf
  | NInf, _ | _, NInf => NInf
  end.

Definition sub (x y : float) : float := add x (neg y).

Definition sgn (x : float) : Z :=
  match x with Fin a => Qsgn a | PInf => 1 | NInf => -1 | NaN => 0 end.

Definition mul (x y : float) : float :=
  match x, y with
  | NaN, _ | _, NaN => NaN
  | Fin a, Fin b => Fin (Qred (a * b))
  | _, _ => signed_inf (sgn x * sgn y)
  end.

(** Division by (positive) zero follows numpy: [a/0] is [±inf], [0/0] is
    [nan]. *)
Definition div (x y : float) : float :=
  match x, y with
  | NaN, _ | _, NaN => NaN
  | Fin a, Fin b => if Qeq_bool b 0 then signed_inf (Qsgn a) else Fin (Qred (a / b))
  | Fin _, _ => zero
  | _, Fin b => signed_inf (sgn x * (if Qeq_bool b 0 then 1 else Qsgn b))
  | _, _ => NaN
  end.

Definition Qltb (a b : Q) : bool := negb (Qle_bool b a).

Definition ltb (x y : float) : bool :=
  match x, y with
  | NaN, _ | _, NaN => false
  | Fin a, Fin b => Qltb a b
  | _, NInf => false
  | NInf, _ => true
  | PInf, _ => false
  | _, PInf => true
  end.

Definition leb (x y : float) : bool :=
  match x, y with
  | NaN, _ | _, NaN => false
  | Fin a, Fin b => Qle_bool a b
  | NInf, _ => true
  | _, PInf => true
  | _, _ => false
  end.

Definition eqb (x y : float) : bool :=
  match x, y with
  | Fin a, Fin b => Qeq_bool a b
  | PInf, PInf | NInf, NInf => true
  | _, _ => false
  end.

(** [x == 0.] ([nan] is not zero). *)
Definition is_zero (x : float) : bool := eqb x zero.

Definition abs (x : float) : float :=
  match x with Fin a => Fin (Qabs a) | PInf | NInf => PInf | NaN => NaN end.

(** [x ** n] for a small natural exponent. *)
Fixpoint pow (x : float) (n : nat) : float :=
  match n with O => Fin 1%Q | S n' => mul x (pow x n') end.

(** Python's builtin [sum] and [np.sum] (left to right from [0]). *)
Definition sum (l : list float) : float := fold_left add l zero.

Definition mean (l : list float) : float := div (sum l) (of_nat (length l)).

Definition fmax (x y : float) : float :=
  match x, y with
  | NaN, _ | _, NaN => NaN
  | _, _ => if ltb x y then y else x
  end.
Definition fmin (x y : float) : float :=
  match x, y with
  | NaN, _ | _, NaN => NaN
  | _, _ => if ltb y x then y else x
  end.

(** [np.max] / [np.min] raise on an empty array. *)
Definition max (l : list float) : result float :=
  match l with
  | [] => Raise (ValueError "zero-size array to reduction operation maximum which has no identity")
  | x :: l' => Return (fold_left fmax l' x)
  end.
Definition min (l : list float) : result float :=
  match l with
  | [] => Raise (ValueError "zero-size array to reduction operation minimum which has no identity")
  | x :: l' => Return (fold_left fmin l' x)
  end.

End Np.

Abbreviation float := Np.float.

(** ** Python values *)

(** A first-order universe of the Python objects that flow through the
    framework.  [VArray] is a [numpy.ndarray]: its items are [VFloat]s, or
    [VArray] rows for a 2-D array. *)
Inductive value :=
| VNone
| VBool (b : bool)
| VInt (z : Z)
| VFloat (x : float)
| VStr (s : string)
| VTuple (vs : list value)
| VList (vs : list value)
| VArray (items : list value).

(** [hasattr(v, "__iter__")] (Python 2: strings have no [__iter__]). *)
Definition has_iter (v : value) : bool :=
  match v with
  | VTuple _ | VList _ | VArray _ => true
  | _ => false
  end.

(** The items an iteration over [v] yields, for the iterable values. *)
Definition iter_items (v : value) : list value :=
  match v with
  | VTuple vs | VList vs | VArray vs => vs
  | _ => []
  end.

(** [isinstance(v, six.string_types)] *)
Definition as_string (v : value) : option string :=
  match v with VStr s => Some s | _ => None end.

Definition strings_of (vs : list value) : list string := omap as_string vs.

(** ** Constants *)

Definition DATA_MAGNITUDE := "magnitude".
Definition DATA_TIME := "time".
Definition DATA_ERROR := "error".
Definition DATA_MAGNITUDE2 := "magnitude2".
Definition DATA_ALIGNED_MAGNITUDE := "aligned_magnitude".
Definition DATA_ALIGNED_MAGNITUDE2 := "aligned_magnitude2".
Definition DATA_ALIGNED_TIME := "aligned_time".
Definition DATA_ALIGNED_ERROR := "aligned_error".
Definition DATA_ALIGNED_ERROR2 := "aligned_error2".

Definition DATA_IDXS : gmap string nat :=
  list_to_map
    [ (DATA_MAGNITUDE, 0); (DATA_TIME, 1); (DATA_ERROR, 2); (DATA_MAGNITUDE2, 3);
      (DATA_ALIGNED_MAGNITUDE, 4); (DATA_ALIGNED_MAGNITUDE2, 5);
      (DATA_ALIGNED_TIME, 6); (DATA_ALIGNED_ERROR, 7); (DATA_ALIGNED_ERROR2, 8) ]%nat.

(** [tuple(d for d, _ in sorted(DATA_IDXS.items(), key=index))] *)
Definition DATAS : list string :=
  [ DATA_MAGNITUDE; DATA_TIME; DATA_ERROR; DATA_MAGNITUDE2;
    DATA_ALIGNED_MAGNITUDE; DATA_ALIGNED_MAGNITUDE2; DATA_ALIGNED_TIME;
    DATA_ALIGNED_ERROR; DATA_ALIGNED_ERROR2 ].

(** [v in DATAS] *)
Definition in_DATAS (v : value) : bool :=
  match v with VStr s => bool_decide (s ∈ DATAS) | _ => false end.

(** ** Extractor classes *)

Module ExtractorConf.
Record t := mk {
  data : gset string;
  dependencies : gset string;
  params : list (string * value);
  features : gset string
}.
End ExtractorConf.

(** The mutable attributes of an extractor instance that hooks may touch. *)
Abbreviation attrs := (gmap string value).

(** [setup] / [teardown]: run for effect on [self]; may raise. *)
Definition hook := attrs → result unit * attrs.

(** A [fit] method: the names of its parameters after [self] (none has a
    default in this module) and its body over the bound arguments. *)
Record method := {
  m_args : list string;
  m_body : gmap string value → attrs → result value * attrs
}.

(** A class statement whose base is [Extractor], as [ExtractorMeta.__new__]
    receives it.  [None] means the attribute is not defined by the class. *)
Record class_decl := {
  decl_name : string;
  decl_data : option (list value);
  decl_features : option (list value);
  decl_dependencies : option (list value);
  decl_params : option (list (value * value));
  decl_setup : option hook;
  decl_fit : option method;
  decl_teardown : option hook
}.

(** A subclass of [Extractor] that passed [ExtractorMeta.__new__]. *)
Record extractor_class := {
  cls_name : string;
  _conf : ExtractorConf.t;
  cls_setup : hook;
  cls_fit : method;
  cls_teardown : hook
}.

Definition repr_cls (name : string) : string :=
  "<class 'feets.extractors." +:+ name +:+ "'>".

(** [Extractor.setup], [Extractor.teardown]: [pass].  [Extractor.fit]:
    [raise NotImplementedError()]. *)
Definition Extractor_setup : hook := λ st, (Return (), st).
Definition Extractor_teardown : hook := λ st, (Return (), st).
Definition Extractor_fit : method :=
  {| m_args := []; m_body := λ _ st, (Raise NotImplementedError, st) |}.

(** The module raises [ExtractorError(...)], a name it never binds (only
    [err] is imported): evaluating the [raise] statement is a [NameError]. *)
Definition raise_ExtractorError {A} (msg : string) : result A :=
  Raise (NameError "ExtractorError").

Definition has_dup (l : list string) : bool := negb (bool_decide (NoDup l)).

(** [for x in xs: check x], stopping at the first exception. *)
Fixpoint for_each {A} (check : A → result unit) (xs : list A) : result unit :=
  match xs with
  | [] => Return ()
  | x :: xs' => _ ← check x; for_each check xs'
  end.

Definition ExtractorMeta_new (d : class_decl) : result extractor_class :=
  let cls := repr_cls (decl_name d) in
  data ← match decl_data d with
          | None => raise_ExtractorError ("'" +:+ cls +:+ "' must redefine data attribute")
          | Some l => Return l
          end;
  _ ← (if bool_decide (data = []) then raise_ExtractorError "'data' can't be empty"
       else Return ());
  _ ← for_each (λ x, if in_DATAS x then Return ()
                      else raise_ExtractorError "'data' must be a iterable with values in DATAS")
        data;
  _ ← (if has_dup (strings_of data) then raise_ExtractorError "'data' has duplicated values"
       else Return ());
  feats ← match decl_features d with
           | None => raise_ExtractorError ("'" +:+ cls +:+ "' must redefine features attribute")
           | Some l => Return l
           end;
  _ ← (if bool_decide (feats = []) then raise_ExtractorError "'features' can't be empty"
       else Return ());
  _ ← for_each (λ f, match f with
                      | VStr s =>
                          if in_DATAS f
                          then Raise (DataReservedNameError "Params can't be in DATAS")
                          else Return ()
                      | _ => Raise (TypeError "Feature name must be an instance of string")
                      end)
        feats;
  _ ← (if has_dup (strings_of feats) then raise_ExtractorError "'features' has duplicated values"
       else Return ());
  fit ← match decl_fit d with
         | None => raise_ExtractorError ("'" +:+ cls +:+ "' must redefine fit method")
         | Some m => Return m
         end;
  let deps := default [] (decl_dependencies d) in
  _ ← for_each (λ x, match x with
                      | VStr _ => Return ()
                      | _ => Raise (TypeError "Dependencies must be an instance of string")
                      end)
        deps;
  let ps := default [] (decl_params d) in
  _ ← for_each (λ pd, match fst pd with
                       | VStr _ =>
                           if in_DATAS (fst pd)
                           then Raise (DataReservedNameError "Params can't be in DATAS")
                           else Return ()
                       | _ => Raise (TypeError "Params name must be an instance of string")
                       end)
        ps;
  Return {| cls_name := decl_name d;
            _conf := ExtractorConf.mk
                       (list_to_set (strings_of data))
                       (list_to_set (strings_of deps))
                       (omap (λ pd, s ← as_string (fst pd); Some (s, snd pd)) ps)
                       (list_to_set (strings_of feats));
            cls_setup := default Extractor_setup (decl_setup d);
            cls_fit := fit;
            cls_teardown := default Extractor_teardown (decl_teardown d) |}.

(** ** Register utility *)

(** What may be handed to the register functions: the abstract base class
    [Extractor] itself (it has no [_conf]), a class built by the metaclass,
    or any other object. *)
Inductive pyobj :=
| PyExtractor
| PyClass (c : extractor_class)
| PyValue (v : value).

(** The module-level dictionary [_extractors]. *)
Abbreviation registry := (gmap string extractor_class).

Definition not_a_class_msg : string :=
  "'cls' must be a subclass of Extractor. Found: {}".

(** [_extractors.update((f, cls) for f in cls._conf.features)] *)
Definition registry_update (c : extractor_class) (fs : list string) (reg : registry)
  : registry :=
  fold_left (λ m f, <[f := c]> m) fs reg.

(** The registry is global state: the function returns its outcome together
    with the registry it leaves behind. *)
Definition register_extractor (obj : pyobj) (reg : registry)
  : result extractor_class * registry :=
  match obj with
  | PyValue _ => (Raise (TypeError not_a_class_msg), reg)
  | PyExtractor => (Raise (AttributeError "_conf"), reg)
  | PyClass c =>
      match filter (λ d, d ∉ dom reg) (elements (ExtractorConf.dependencies (_conf c))) with
      | d :: _ =>
          (Raise (FeatureNotFound
                    ("Dependency '" +:+ d +:+ "' from extractor " +:+ (repr_cls (cls_name c)))),
           reg)
      | [] =>
          (Return c, registry_update c (elements (ExtractorConf.features (_conf c))) reg)
      end
  end.

Definition registered_extractors (reg : registry) : registry := reg.

Definition is_registered (obj : pyobj) (reg : registry) : result (gmap string bool) :=
  match obj with
  | PyValue (VStr f) => Return {[ f := bool_decide (f ∈ dom reg) ]}
  | PyValue _ => Raise (TypeError not_a_class_msg)
  | PyExtractor => Raise (AttributeError "_conf")
  | PyClass c =>
      Return (set_to_map (λ f, (f, bool_decide (f ∈ dom reg)))
                (ExtractorConf.features (_conf c)))
  end.

Definition available_features (reg : registry) : gset string := dom reg.

Definition extractor_of (feature : string) (reg : registry) : result extractor_class :=
  match reg !! feature with
  | Some c => Return c
  | None => Raise (KeyError feature)
  end.

(** ** Base class: instances and the extraction protocol *)

Record instance := {
  inst_cls : extractor_class;
  inst_params : gmap string value;
  inst_attrs : attrs
}.

(** [space.params_by_features(features)] *)
Definition space := gset string → gmap string value.

(** [Extractor.__init__] *)
Definition Extractor_init (c : extractor_class) (sp : space) : instance :=
  let ns := sp (ExtractorConf.features (_conf c)) in
  {| inst_cls := c;
     inst_params :=
       fold_left (λ m pd, <[fst pd := default (snd pd) (ns !! fst pd)]> m)
         (ExtractorConf.params (_conf c)) ∅;
     inst_attrs := {[ "name" := VStr (cls_name c) ]} |}.

(** The calls [extract] makes on [self], recorded in order. *)
Inductive call := CallSetup | CallFit | CallTeardown.

#[global] Instance call_eq_dec : EqDecision call.
Proof. solve_decision. Defined.

(** State-and-exception monad of the protocol: the instance attributes and
    the record of calls survive an exception. *)
Definition M (A : Type) : Type := attrs * list call → result A * (attrs * list call).

Definition M_ret {A} (a : A) : M A := λ s, (Return a, s).
Definition M_bind {A B} (m : M A) (f : A → M B) : M B :=
  λ s, match m s with
       | (Return a, s') => f a s'
       | (Raise e, s') => (Raise e, s')
       end.

(** Calling a method of [self]: the call is recorded, the body runs on the
    attributes. *)
Definition invoke {A} (c : call) (h : attrs → result A * attrs) : M A :=
  λ s, let '(r, st') := h (fst s) in (r, (st', snd s ++ [c])).

(** [try: body finally: final]: [final] runs on every exit path of [body];
    if [final] raises, its exception is the one that propagates, otherwise
    the outcome of [body] stands. *)
Definition try_finally {A} (body : M A) (final : M unit) : M A :=
  λ s, let '(r, s1) := body s in
       match final s1 with
       | (Return _, s2) => (r, s2)
       | (Raise e, s2) => (Raise e, s2)
       end.

(** [self.fit( **kwargs )]: keyword binding against the signature, then the
    body. *)
Definition call_kwargs (m : method) (kwargs : gmap string value)
  : attrs → result value * attrs :=
  λ st,
    match filter (λ k, k ∉ m_args m) (elements (dom kwargs)) with
    | k :: _ =>
        (Raise (TypeError ("fit() got an unexpected keyword argument '" +:+ k +:+ "'")), st)
    | [] =>
        if bool_decide (Forall (λ a, a ∈ dom kwargs) (m_args m))
        then m_body m kwargs st
        else (Raise (TypeError "fit() takes more arguments than given"), st)
    end.

(** The statements of [extract] before the [try] block. *)
Definition build_kwargs (self : instance) (data : list value)
    (dependencies : gmap string value) : result (gmap string value) :=
  let conf := _conf (inst_cls self) in
  kwargs ← foldl (λ acc k, kw ← acc;
                           match dependencies !! k with
                           | Some v => Return (<[k := v]> kw)
                           | None => Raise (KeyError k)
                           end)
             (Return ∅) (elements (ExtractorConf.dependencies conf));
  kwargs ← foldl (λ acc d, kw ← acc;
                           match DATA_IDXS !! d with
                           | None => Raise (KeyError d)
                           | Some idx =>
                               match data !! idx with
                               | Some row => Return (<[d := row]> kw)
                               | None => Raise IndexError
                               end
                           end)
             (Return kwargs) (elements (ExtractorConf.data conf));
  Return (inst_params self ∪ kwargs).

(** [features = (features,)] unless the result has [__iter__]. *)
Definition normalize (features : value) : list value :=
  if has_iter features then iter_items features else [features].

(** [dict(zip(self._conf.features, features))] *)
Definition zip_features (fs : gset string) (features : list value) : gmap string value :=
  list_to_map (zip (elements fs) features).

(** The body of the [try] block. *)
Definition extract_body (self : instance) (kwargs : gmap string value)
  : M (gmap string value) :=
  let c := inst_cls self in
  M_bind (invoke CallSetup (cls_setup c)) (λ _,
  M_bind (invoke CallFit (call_kwargs (cls_fit c) kwargs)) (λ features,
  M_ret (zip_features (ExtractorConf.features (_conf c)) (normalize features)))).

(** [try: ... finally: self.teardown()] *)
Definition extract_try (self : instance) (kwargs : gmap string value)
  : M (gmap string value) :=
  try_finally (extract_body self kwargs)
    (invoke CallTeardown (cls_teardown (inst_cls self))).

(** [Extractor.extract]: outcome, attributes of [self] afterwards, and the
    calls made on [self]. *)
Definition extract (self : instance) (data : list value)
    (dependencies : gmap string value)
  : result (gmap string value) * (attrs * list call) :=
  match build_kwargs self data dependencies with
  | Raise e => (Raise e, (inst_attrs self, []))
  | Return kwargs => extract_try self kwargs (inst_attrs self, [])
  end.

Definition outcome {A S} (r : result A * S) : result A := fst r.
Definition calls_of {A} (r : result A * (attrs * list call)) : list call := snd (snd r).
Definition count_call (c : call) (l : list call) : nat :=
  length (filter (λ x, x = c) l).

(** ** numpy array helpers *)

(** [a[i]] for an integer index: negative indices count from the end. *)
Definition np_index {A} (a : list A) (i : Z) : result A :=
  let n := Z.of_nat (length a) in
  let j := if (i <? 0)%Z then (n + i)%Z else i in
  if (0 <=? j)%Z && (j <? n)%Z
  then match a !! Z.to_nat j with Some x => Return x | None => Raise IndexError end
  else Raise IndexError.

(** [a[i] = x] *)
Definition np_set_item {A} (a : list A) (i : Z) (x : A) : result (list A) :=
  let n := Z.of_nat (length a) in
  let j := if (i <? 0)%Z then (n + i)%Z else i in
  if (0 <=? j)%Z && (j <? n)%Z then Return (<[Z.to_nat j := x]> a) else Raise IndexError.

(** [a[idx]] for an integer index array. *)
Definition np_take {A} (a : list A) (idx : list Z) : result (list A) :=
  mapM (np_index a) idx.

(** [np.arange(a, b)] over the integers. *)
Definition np_arange (a b : Z) : list Z := seqZ a (b - a).

(** [np.zeros(n)] *)
Definition np_zeros (n : Z) : list float := replicate (Z.to_nat n) Np.zero.

(** [np.trim_zeros]: only the leading ([trim='f']) and trailing
    ([trim='b']) runs of zeros are removed; the default trims both. *)
Fixpoint trim_front {A} (is_zero : A → bool) (l : list A) : list A :=
  match l with
  | [] => []
  | x :: l' => if is_zero x then trim_front is_zero l' else l
  end.
Definition trim_back {A} (is_zero : A → bool) (l : list A) : list A :=
  reverse (trim_front is_zero (reverse l)).
Definition np_trim_zeros (l : list float) : list float :=
  trim_back Np.is_zero (trim_front Np.is_zero l).

(** [np.argsort]: ascending, [nan] last; keys that compare equal keep their
    input order.  (numpy's default sort is an insertion sort on arrays of at
    most 16 elements, which keeps that order; on longer arrays it does not
    fix the order of equal keys.) *)
Definition sort_le (x y : float) : Prop :=
  match y with Np.NaN => True | _ => Np.leb x y = true end.
#[global] Instance sort_le_dec x y : Decision (sort_le x y).
Proof. unfold sort_le; destruct y; apply _. Defined.

Definition argsort_le (p q : nat * float) : Prop := sort_le (snd p) (snd q).
#[global] Instance argsort_le_dec p q : Decision (argsort_le p q).
Proof. unfold argsort_le; apply _. Defined.

(** Insertion sort: [x] goes before the first element it is not above, so
    before the later elements it ties with. *)
Fixpoint insert_by {A} (le : A → A → bool) (x : A) (l : list A) : list A :=
  match l with
  | [] => [x]
  | y :: l' => if le x y then x :: l else y :: insert_by le x l'
  end.
Definition stable_sort {A} (le : A → A → bool) (l : list A) : list A :=
  foldr (insert_by le) [] l.

Definition np_argsort (l : list float) : list nat :=
  fst <$> stable_sort (λ p q, bool_decide (argsort_le p q)) (imap (λ i x, (i, x)) l).

(** [next((index for index, value in enumerate(a) if p(value)), None)] *)
Fixpoint first_index {A} (p : A → bool) (a : list A) : option nat :=
  match a with
  | [] => None
  | x :: a' => if p x then Some 0%nat else S <$> first_index p a'
  end.

(** ** IEEE 754 binary64

    [SlottedA_length] and [LombScargle] branch, index and sort on the results
    of float arithmetic, so they are modelled on binary64 itself, through
    Rocq's primitive floats: [+], [-], [*], [/], [abs], [sqrt] and the
    comparisons are the machine's, and the other elementwise numpy operations
    are defined from the decoding [Prim2SF] of a float into sign, mantissa
    and exponent.  Python integers are unbounded, and so are arrays. *)

Module F64.
Import PrimFloat.

Abbreviation t := PrimFloat.float.

(** [float(z)]: the nearest binary64 value, ties to even; [inf] beyond the
    largest finite value. *)
Definition of_int (z : Z) : t :=
  FloatOps.SF2Prim (SpecFloat.binary_normalize FloatOps.prec FloatOps.emax z 0 false).

Definition half : t := 0.5%float.
Definition hundred : t := 100%float.
(** [0.05] is the binary64 value [0x1.999999999999ap-5]. *)
Definition five_percent : t := 0x1.999999999999ap-5%float.
(** [np.exp(-1)] is the binary64 value [0x1.78b56362cef38p-2]. *)
Definition exp_m1 : t := 0x1.78b56362cef38p-2%float.

Definition is_finite (x : t) : bool :=
  match FloatOps.Prim2SF x with
  | SpecFloat.S754_zero _ | SpecFloat.S754_finite _ _ _ => true
  | _ => false
  end.

(** [np.floor] *)
Definition floor (x : t) : t :=
  match FloatOps.Prim2SF x with
  | SpecFloat.S754_finite s m e =>
      if (0 <=? e)%Z then x
      else
        let q := (Z.pos m / 2 ^ (- e))%Z in
        if s
        then opp (of_int (if (Z.pos m mod 2 ^ (- e) =? 0)%Z then q else q + 1))
        else of_int q
  | _ => x
  end.

Definition INT64_MIN : Z := (- 2 ^ 63)%Z.

(** [np.int64(x)], a C cast: truncation towards zero; on x86-64 a value out
    of range, an infinity and [nan] all give [INT64_MIN]. *)
Definition to_int64 (x : t) : Z :=
  match FloatOps.Prim2SF x with
  | SpecFloat.S754_zero _ => 0%Z
  | SpecFloat.S754_finite s m e =>
      let mag := if (0 <=? e)%Z then (Z.pos m * 2 ^ e)%Z else (Z.pos m / 2 ^ (- e))%Z in
      let v := if s then (- mag)%Z else mag in
      if (INT64_MIN <=? v)%Z && (v <? 2 ^ 63)%Z then v else INT64_MIN
  | _ => INT64_MIN
  end.

(** C's [fmod]: the exact remainder of the magnitudes, with the sign of the
    dividend. *)
Definition fmod (a b : t) : t :=
  match FloatOps.Prim2SF a, FloatOps.Prim2SF b with
  | SpecFloat.S754_finite sa ma ea, SpecFloat.S754_finite _ mb eb =>
      let e := Z.min ea eb in
      let r := ((Z.pos ma * 2 ^ (ea - e)) mod (Z.pos mb * 2 ^ (eb - e)))%Z in
      FloatOps.SF2Prim
        (SpecFloat.binary_normalize FloatOps.prec FloatOps.emax
           (if sa then - r else r)%Z e sa)
  | SpecFloat.S754_zero _, SpecFloat.S754_finite _ _ _
  | SpecFloat.S754_zero _, SpecFloat.S754_infinity _
  | SpecFloat.S754_finite _ _ _, SpecFloat.S754_infinity _ => a
  | _, _ => nan
  end.

(** [np.mod(a, b)] on floats: [fmod], moved by [b] (a float addition, which
    rounds) when its sign is not that of [b]. *)
Definition np_mod (a b : t) : t :=
  let m := fmod a b in
  if (b =? 0)%float then m
  else if (m =? 0)%float then (if get_sign b then neg_zero else zero)
  else if xorb (b <? 0)%float (m <? 0)%float then (m + b)%float
  else m.

(** Python's builtin [sum]: left to right, from [0]. *)
Definition sum (l : list t) : t := fold_left add l zero.

(** [np.minimum] / [np.maximum], reduced from the first element; they raise
    on an empty array. *)
Definition minimum (x y : t) : t := if (x <=? y)%float || is_nan x then x else y.
Definition maximum (x y : t) : t := if (y <=? x)%float || is_nan x then x else y.
Definition np_min (l : list t) : result t :=
  match l with
  | [] => Raise (ValueError "zero-size array to reduction operation minimum which has no identity")
  | x :: l' => Return (fold_left minimum l' x)
  end.
Definition np_max (l : list t) : result t :=
  match l with
  | [] => Raise (ValueError "zero-size array to reduction operation maximum which has no identity")
  | x :: l' => Return (fold_left maximum l' x)
  end.

(** [np.cumsum] *)
Fixpoint cumsum_from (acc : t) (l : list t) : list t :=
  match l with
  | [] => []
  | x :: l' => let acc' := (acc + x)%float in acc' :: cumsum_from acc' l'
  end.
Definition cumsum (l : list t) : list t :=
  match l with [] => [] | x :: l' => x :: cumsum_from x l' end.

(** [a[1:] - a[:-1]] *)
Definition diff (l : list t) : list t := zip_with sub (tail l) (removelast l).

(** [np.zeros(n)] *)
Definition zeros (n : Z) : list t := replicate (Z.to_nat n) zero.

End F64.

(** ** SlottedA_length *)

Module SlottedA_length.

(** The variables of the [while] loop of [fit]. *)
Record search := { sK : Z; s_slots : list Z; s_k : option nat }.

(** A run of the loop either leaves it or is still inside when the fuel
    is spent. *)
Inductive run (A : Type) := Done (a : A) | OutOfFuel.
Arguments Done {A} a.
Arguments OutOfFuel {A}.

(** What [fit] returns: [slots[k] * T], a number; with [k = None] numpy
    reads [slots[None]] as "add an axis" and the product is a 2-D array. *)
Inductive output := Scalar (x : F64.t) | Matrix (rows : list (list F64.t)).

Section Primitives.

(** [np.mean] and [np.sort] are parameters: numpy fixes neither the order in
    which a reduction adds its terms nor the order in which [sort] leaves
    keys that compare equal. *)
Variable np_mean : list F64.t → F64.t.
Variable np_sort : list F64.t → list F64.t.

(** [pairs = np.subtract.outer(time, time)] with the lower triangle
    (diagonal included) overwritten by the sentinel [10000000]. *)
Definition pairs (time : list F64.t) : list (list F64.t) :=
  imap (λ i ti, imap (λ j tj, if (j <=? i)%nat then F64.of_int 10000000
                               else PrimFloat.sub ti tj) time) time.

(** [ks = np.int64(np.floor(np.abs(pairs) / T + 0.5))] *)
Definition slot_indices (time : list F64.t) (T : F64.t) : list (list Z) :=
  map (map (λ p, F64.to_int64
                   (F64.floor (PrimFloat.add (PrimFloat.div (PrimFloat.abs p) T) F64.half))))
    (pairs time).

(** [np.where(ks == k)]: row and column indices, in row-major order. *)
Definition where_eq (ks : list (list Z)) (k : Z) : list (Z * Z) :=
  concat (imap (λ i row,
                  omap id (imap (λ j v, if (v =? k)%Z
                                        then Some (Z.of_nat i, Z.of_nat j)
                                        else None) row)) ks).

(** [data[idx[0]] * data[idx[1]]] *)
Definition products (data : list F64.t) (idx : list (Z * Z)) : result (list F64.t) :=
  xs ← np_take data (fst <$> idx);
  ys ← np_take data (snd <$> idx);
  Return (zip_with PrimFloat.mul xs ys).

(** One iteration of either [for k in ...] loop; [off] is [0] in the
    first round ([slots[i] = k]) and [1] in the second ([slots[i - 1] = k]). *)
Definition slot_step (data : list F64.t) (ks : list (list Z)) (off : Z)
    (st : result (list F64.t * list Z * Z)) (k : Z)
  : result (list F64.t * list Z * Z) :=
  '(prod, slots, i) ← st;
  let idx := where_eq ks k in
  if bool_decide (length idx ≠ 0%nat) then
    ps ← products data idx;
    prod ← np_set_item prod k
             (PrimFloat.div (F64.sum ps) (F64.of_int (Z.of_nat (length idx))));
    slots ← np_set_item slots (i - off) k;
    Return (prod, slots, (i + 1)%Z)
  else
    prod ← np_set_item prod k PrimFloat.infinity;
    Return (prod, slots, i).

(** [prod[0]]: with no magnitude both sums are the integer [0] and so is the
    divisor. *)
Definition slot_zero (data : list F64.t) (idx : list (Z * Z)) : result F64.t :=
  ps ← products data idx;
  if bool_decide (length idx + length data = 0)%nat then Raise ZeroDivisionError
  else Return (PrimFloat.div
                 (PrimFloat.add (F64.sum (map (λ x, PrimFloat.mul x x) data)) (F64.sum ps))
                 (F64.of_int (Z.of_nat (length idx + length data)))).

Definition slotted_autocorrelation (data time : list F64.t) (T : F64.t) (K : Z)
    (second_round : bool) (K1 : Z) : result (list F64.t * list Z) :=
  let slots := replicate (Z.to_nat K) 0%Z in
  let i := 1%Z in
  tmin ← F64.np_min time;
  let time := map (λ t, PrimFloat.sub t tmin) time in
  let m := np_mean data in
  let data := map (λ x, PrimFloat.sub x m) data in
  let prod := F64.zeros K in
  let ks := slot_indices time T in
  let idx := where_eq ks 0 in
  p0 ← slot_zero data idx;
  prod ← np_set_item prod 0 p0;
  slots ← np_set_item slots 0 0%Z;
  '(prod, slots, _) ←
    (if negb second_round
     then foldl (slot_step data ks 0) (Return (prod, slots, i)) (np_arange 1 K)
     else foldl (slot_step data ks 1) (Return (prod, slots, i)) (np_arange K1 K));
  let slots := trim_back (Z.eqb 0) slots in
  prod0 ← np_index prod 0;
  Return (map (λ p, PrimFloat.div p prod0) prod, slots).

Definition start_conditions (magnitude time : list F64.t) (T : option F64.t)
  : result (F64.t * Z * list Z * list F64.t) :=
  let N := length time in
  T ← match T with
       | Some T => Return T
       | None =>
           let deltaT := F64.diff time in
           let sorted_deltaT := np_sort deltaT in
           np_index sorted_deltaT
             (F64.to_int64 (PrimFloat.mul (F64.of_int (Z.of_nat N)) F64.five_percent) + 1)
       end;
  let K := 100%Z in
  '(SAC, slots) ← slotted_autocorrelation magnitude time T K false 100;
  SAC2 ← np_take SAC slots;
  Return (T, K, slots, SAC2).

(** [next((index for index, value in enumerate(SAC2)
          if value < np.exp(-1)), None)] *)
Definition first_below (SAC2 : list F64.t) : option nat :=
  first_index (λ value, PrimFloat.ltb value F64.exp_m1) SAC2.

(** [np.max(time) - np.min(time)] *)
Definition span (time : list F64.t) : result F64.t :=
  hi ← F64.np_max time; lo ← F64.np_min time; Return (PrimFloat.sub hi lo).

(** [K > (np.max(time) - np.min(time)) / T], given the span *)
Definition exceeds (sp T : F64.t) (K : Z) : bool :=
  PrimFloat.ltb (PrimFloat.div sp T) (F64.of_int K).

(** The two statements of the [else] branch of the loop that come before
    the search for a crossing. *)
Definition round (magnitude time : list F64.t) (T : F64.t) (K : Z)
  : result (list Z * list F64.t) :=
  '(SAC, slots) ← slotted_autocorrelation magnitude time T K true (K / 2);
  SAC2 ← np_take SAC slots;
  Return (slots, SAC2).

(** [while k is None: ...].  Besides the outcome, the loop reports the
    [(K, K1)] arguments of every [slotted_autocorrelation] call it made. *)
Fixpoint widen (fuel : nat) (magnitude time : list F64.t) (T : F64.t)
    (st : search) (rounds : list (Z * Z)) : run (result search * list (Z * Z)) :=
  match s_k st with
  | Some _ => Done (Return st, rounds)
  | None =>
      match fuel with
      | O => OutOfFuel
      | S fuel' =>
          let K := (sK st + sK st)%Z in
          match span time with
          | Raise e => Done (Raise e, rounds)
          | Return sp =>
              if exceeds sp T K
              then Done (Return {| sK := K; s_slots := s_slots st; s_k := None |}, rounds)
              else
                let rounds := rounds ++ [(K, (K / 2)%Z)] in
                match round magnitude time T K with
                | Raise e => Done (Raise e, rounds)
                | Return (slots, SAC2) =>
                    widen fuel' magnitude time T
                      {| sK := K; s_slots := slots; s_k := first_below SAC2 |} rounds
                end
          end
      end
  end.

(** [return slots[k] * T] *)
Definition result_of (T : F64.t) (st : search) : result output :=
  match s_k st with
  | Some k =>
      s ← np_index (s_slots st) (Z.of_nat k);
      Return (Scalar (PrimFloat.mul (F64.of_int s) T))
  | None =>
      Return (Matrix [(λ s, PrimFloat.mul (F64.of_int s) T) <$> s_slots st])
  end.

Definition fit (fuel : nat) (magnitude time : list F64.t) (T : option F64.t)
  : run (result output * list (Z * Z)) :=
  match start_conditions magnitude time T with
  | Raise e => Done (Raise e, [])
  | Return (T, K, slots, SAC2) =>
      match widen fuel magnitude time T
              {| sK := K; s_slots := slots; s_k := first_below SAC2 |} [] with
      | OutOfFuel => OutOfFuel
      | Done (Raise e, rounds) => Done (Raise e, rounds)
      | Done (Return st, rounds) => Done (result_of T st, rounds)
      end
  end.

(** *** The course of the loop, for the statement of its termination *)

(** The [(K, K1)] arguments of [m] successive rounds of the loop entered
    with budget [K]: each round doubles the budget and starts from the
    previous one. *)
Definition doubling_rounds (K : Z) (m : nat) : list (Z * Z) :=
  (λ i, (K * 2 ^ (Z.of_nat i + 1), K * 2 ^ Z.of_nat i)%Z) <$> seq 0 m.

(** [SAC2] has its first value below [1/e] at index [k] / has none. *)
Definition crossing (SAC2 : list F64.t) (k : nat) : Prop :=
  (∃ v, SAC2 !! k = Some v ∧ PrimFloat.ltb v F64.exp_m1 = true) ∧
  ∀ j v, (j < k)%nat → SAC2 !! j = Some v → PrimFloat.ltb v F64.exp_m1 = false.
Definition no_crossing (SAC2 : list F64.t) : Prop :=
  Forall (λ v, PrimFloat.ltb v F64.exp_m1 = false) SAC2.

(** The slots and autocorrelation values in hand after [i] rounds: those of
    the start conditions, then those of the round with budget
    [100 * 2^i]. *)
Definition in_hand (magnitude time : list F64.t) (T : F64.t)
    (start : list Z * list F64.t) (i : nat) : result (list Z * list F64.t) :=
  match i with
  | O => Return start
  | S _ => round magnitude time T (100 * 2 ^ Z.of_nat i)
  end.

(** How a run of [m] rounds ends, [now] being what is in hand after them:
    with the exception the last round raised; with a crossing found in what
    is in hand; or with no crossing and the next budget above the quotient. *)
Definition exit_condition (sp T : F64.t) (m : nat)
    (now : result (list Z * list F64.t)) (out : result search) : Prop :=
  match now with
  | Raise e => out = Raise e
  | Return (slots, SAC2) =>
      (∃ k, crossing SAC2 k ∧
            out = Return {| sK := 100 * 2 ^ Z.of_nat m; s_slots := slots; s_k := Some k |}) ∨
      (no_crossing SAC2 ∧
       exceeds sp T (100 * 2 ^ (Z.of_nat m + 1)) = true ∧
       out = Return {| sK := 100 * 2 ^ (Z.of_nat m + 1); s_slots := slots; s_k := None |})
  end.

(** The loop variables after [i] rounds made from the state [st]. *)
Definition state_after (magnitude time : list F64.t) (T : F64.t) (st : search) (i : nat)
  : result search :=
  match i with
  | O => Return st
  | S _ =>
      let K := (sK st * 2 ^ Z.of_nat i)%Z in
      '(slots, SAC2) ← round magnitude time T K;
      Return {| sK := K; s_slots := slots; s_k := first_below SAC2 |}
  end.

End Primitives.
End SlottedA_length.

(** ** LombScargle *)

Module LombScargle.
Section Primitives.

(** [lomb.fasper(x, y, ofac, hifac)] returns [(wk1, wk2, nout, jmax, prob)]. *)
Variable fasper :
  list F64.t → list F64.t → F64.t → F64.t →
  result (list F64.t * list F64.t * Z * Z * F64.t).
(** numpy's reductions, and [np.power(x, 2)], which goes through the C
    library's [pow]. *)
Variables np_mean np_std np_var np_sum : list F64.t → F64.t.
Variable np_power : F64.t → Z → F64.t.
(** [np.argsort]: numpy does not fix the order of keys that compare equal. *)
Variable np_argsort : list F64.t → list nat.

(** [np.mod(time, w) / w] *)
Definition fold_on (w : F64.t) (time : list F64.t) : list F64.t :=
  map (λ t, PrimFloat.div (F64.np_mod t w) w) time.

Definition _compute_ls (magnitude time : list F64.t) (ofac : F64.t)
  : result (F64.t * list F64.t * F64.t * F64.t) :=
  r ← fasper time magnitude ofac F64.hundred;
  let '(fx, fy, nout, jmax, prob) := r in
  period ← np_index fx jmax;
  let T := PrimFloat.div PrimFloat.one period in
  let new_time := fold_on (PrimFloat.mul PrimFloat.two T) time in
  Return (T, new_time, prob, period).

Definition _compute_cs (folded_data : list F64.t) (N : nat) : result F64.t :=
  let sigma := np_std folded_data in
  let m := np_mean folded_data in
  let s := map (λ c, PrimFloat.div (PrimFloat.mul c PrimFloat.one)
                       (PrimFloat.mul (F64.of_int (Z.of_nat N)) sigma))
             (F64.cumsum (map (λ x, PrimFloat.sub x m) folded_data)) in
  hi ← F64.np_max s;
  lo ← F64.np_min s;
  Return (PrimFloat.sub hi lo).

Definition _compute_eta (folded_data : list F64.t) (N : nat) : F64.t :=
  let sigma2 := np_var folded_data in
  PrimFloat.mul
    (PrimFloat.div PrimFloat.one (PrimFloat.mul (F64.of_int (Z.of_nat N - 1)) sigma2))
    (np_sum (map (λ d, np_power d 2) (F64.diff folded_data))).

Definition fit (magnitude time : list F64.t) (ofac : F64.t)
  : result (F64.t * F64.t * F64.t * F64.t) :=
  r ← _compute_ls magnitude time ofac;
  let '(T, new_time, prob, period) := r in
  folded_data ← np_take magnitude (Z.of_nat <$> np_argsort new_time);
  let N := length folded_data in
  R ← _compute_cs folded_data N;
  let Psi_eta := _compute_eta folded_data N in
  Return (T, prob, R, Psi_eta).

(** The folding as the specification words it: a window of half a period.
    Everything else is as in [fit]. *)
Definition spec_fit (magnitude time : list F64.t) (ofac : F64.t)
  : result (F64.t * F64.t * F64.t * F64.t) :=
  r ← fasper time magnitude ofac F64.hundred;
  let '(fx, fy, nout, jmax, prob) := r in
  freq ← np_index fx jmax;
  let T := PrimFloat.div PrimFloat.one freq in
  let new_time := fold_on (PrimFloat.div T PrimFloat.two) time in
  folded_data ← np_take magnitude (Z.of_nat <$> np_argsort new_time);
  let N := length folded_data in
  R ← _compute_cs folded_data N;
  Return (T, prob, R, _compute_eta folded_data N).

(** The contract of [np.argsort] on the keys [l]: a permutation of the
    indices along which no key is above a later one ([nan] keys last). *)
Definition argsort_contract (l : list F64.t) (order : list nat) : Prop :=
  order ≡ₚ seq 0 (length l) ∧
  ∀ i j a b x y, (i < j)%nat → order !! i = Some a → order !! j = Some b →
    l !! a = Some x → l !! b = Some y →
    PrimFloat.ltb y x = false ∧ (PrimFloat.is_nan x = true → PrimFloat.is_nan y = true).

End Primitives.
End LombScargle.

(** ** CAR *)

Module CAR.
Section Primitives.

Variables np_exp np_log : float → float.
Variable np_pi : float.
(** [x ** y] for a non-integer exponent. *)
Variable np_power : float → float → float.

(** [scipy.optimize.minimize(fun, x0, args=..., method=..., bounds=...)],
    with [args] already applied to [fun]; the result is [res.x].  The
    objective returns [None] when it gives up. *)
Variable minimize :
  (list float → result (option float)) → list float → string →
  list (float * float) → result (list float).

Definition epsilon : float := Np.Fin (1 # 10 ^ 300)%Q.

(** The lists [Omega], [x_hat], [x_ast] are only read at [0] and [i - 1]:
    the loop state carries those entries. *)
Record filter_state := {
  Omega_prev : float; x_hat_prev : float; x_ast_prev : float; loglik : float
}.

Definition _CAR_Like_step (tau b Omega0 : float) (t x error_vars : list float)
    (acc : result (option filter_state)) (i : Z) : result (option filter_state) :=
  st ← acc;
  match st with
  | None => Return None
  | Some st =>
      ti ← np_index t i; ti1 ← np_index t (i - 1);
      xi ← np_index x i;
      ei ← np_index error_vars i; ei1 ← np_index error_vars (i - 1);
      let a_new := np_exp (Np.div (Np.neg (Np.sub ti ti1)) tau) in
      let x_ast := Np.sub xi (Np.mul b tau) in
      let O := Omega_prev st in
      let x_hat :=
        Np.add (Np.mul a_new (x_hat_prev st))
               (Np.mul (Np.div (Np.mul a_new O) (Np.add O ei1))
                       (Np.sub (x_ast_prev st) (x_hat_prev st))) in
      let Omega :=
        Np.add (Np.mul Omega0 (Np.sub (Np.of_Z 1) (Np.pow a_new 2)))
               (Np.mul (Np.mul (Np.pow a_new 2) O)
                       (Np.sub (Np.of_Z 1) (Np.div O (Np.add O ei1)))) in
      let loglik_inter :=
        np_log
          (Np.mul
             (np_power (Np.mul (Np.mul (Np.of_Z 2) np_pi) (Np.add Omega ei))
                       (Np.neg Np.half))
             (Np.add
                (np_exp (Np.mul (Np.neg Np.half)
                           (Np.div (Np.pow (Np.sub x_hat x_ast) 2) (Np.add Omega ei))))
                epsilon)) in
      let loglik := Np.add (loglik st) loglik_inter in
      if Np.leb loglik Np.NInf then Return None
      else Return (Some {| Omega_prev := Omega; x_hat_prev := x_hat;
                           x_ast_prev := x_ast; loglik := loglik |})
  end.

Definition _CAR_Like (parameters t x error_vars : list float) : result (option float) :=
  sigma ← np_index parameters 0;
  tau ← np_index parameters 1;
  let b := Np.div (Np.mean x) tau in
  let num_datos := Z.of_nat (length x) in
  let Omega0 := Np.div (Np.mul tau (Np.pow sigma 2)) (Np.of_Z 2) in
  x0 ← np_index x 0;
  let init := {| Omega_prev := Omega0; x_hat_prev := Np.zero;
                 x_ast_prev := Np.sub x0 (Np.mul b tau); loglik := Np.zero |} in
  st ← foldl (_CAR_Like_step tau b Omega0 t x error_vars) (Return (Some init))
         (np_arange 1 num_datos);
  Return (match st with
          | Some st => Some (Np.neg (loglik st))
          | None => None
          end).

(** [a.reshape((N, 1))]: the column is kept as the list of its entries. *)
Definition reshape_N1 (a : list float) (N : nat) : result (list float) :=
  if bool_decide (length a = N) then Return a
  else Raise (ValueError "cannot reshape array").

Definition x0 : list float := [Np.of_Z 10; Np.half].
Definition bnds : list (float * float) :=
  [(Np.of_Z 0, Np.of_Z 100); (Np.of_Z 0, Np.of_Z 100)].

Definition _calculate_CAR (time magnitude error : list float) : result (float * float) :=
  let N := length magnitude in
  magnitude ← reshape_N1 magnitude N;
  time ← reshape_N1 time N;
  error ← (map (λ e, Np.pow e 2)) <$> reshape_N1 error N;
  res ← minimize (λ p, _CAR_Like p time magnitude error) x0 "nelder-mead" bnds;
  sigma ← np_index res 0;
  tau ← np_index res 1;
  Return (sigma, tau).

Definition fit (magnitude time error : list float) : result (float * float * float) :=
  r ← _calculate_CAR time magnitude error;
  let '(sigma, tau) := r in
  let mean := Np.div (Np.mean magnitude) tau in
  Return (sigma, tau, mean).

End Primitives.
End CAR.

(** ** FourierComponents *)

(** [v[i]] on a Python value. *)
Definition subscript (v : value) (i : Z) : result value :=
  match v with
  | VTuple l | VList l | VArray l => np_index l i
  | _ => Raise (TypeError "object has no attribute '__getitem__'")
  end.

(** [a, b, c = v] *)
Definition unpack3 (v : value) : result (value * value * value) :=
  if has_iter v then
    match iter_items v with
    | [a; b; c] => Return (a, b, c)
    | _ => Raise (ValueError "wrong number of values to unpack")
    end
  else Raise (TypeError "object is not iterable").

(** Elementwise [a - b] of two 1-D arrays of the same shape. *)
Definition np_sub_arrays (a b : list float) : result (list float) :=
  if bool_decide (length a = length b) then Return (zip_with Np.sub a b)
  else Raise (ValueError "operands could not be broadcast together").

Module FourierComponents.
Section Primitives.

Variable fasper :
  list float → list float → float → float →
  result (list float * list float * Z * Z * float).
(** [curve_fit(f, xdata, ydata)]: the fitted [popt] (the covariance is
    never read). *)
Variable curve_fit :
  (list float → float → float → float → list float) →
  list float → list float → result (list float).
Variables np_sin np_cos np_sqrt np_arctan : float → float.
Variable np_pi : float.

Definition features : list string :=
  [ "Freq1_harmonics_amplitude_0"; "Freq1_harmonics_amplitude_1";
    "Freq1_harmonics_amplitude_2"; "Freq1_harmonics_amplitude_3";
    "Freq2_harmonics_amplitude_0"; "Freq2_harmonics_amplitude_1";
    "Freq2_harmonics_amplitude_2"; "Freq2_harmonics_amplitude_3";
    "Freq3_harmonics_amplitude_0"; "Freq3_harmonics_amplitude_1";
    "Freq3_harmonics_amplitude_2"; "Freq3_harmonics_amplitude_3";
    "Freq1_harmonics_rel_phase_0"; "Freq1_harmonics_rel_phase_1";
    "Freq1_harmonics_rel_phase_2"; "Freq1_harmonics_rel_phase_3";
    "Freq2_harmonics_rel_phase_0"; "Freq2_harmonics_rel_phase_1";
    "Freq2_harmonics_rel_phase_2"; "Freq2_harmonics_rel_phase_3";
    "Freq3_harmonics_rel_phase_0"; "Freq3_harmonics_rel_phase_1";
    "Freq3_harmonics_rel_phase_2"; "Freq3_harmonics_rel_phase_3" ].

Definition _model (x : list float) (a b c Freq : float) : list float :=
  map (λ xi,
         let w := Np.mul (Np.mul (Np.mul (Np.of_Z 2) np_pi) Freq) xi in
         Np.add (Np.add (Np.mul a (np_sin w)) (Np.mul b (np_cos w))) c) x.

Definition _yfunc_maker (Freq : float) : list float → float → float → float → list float :=
  λ x a b c,
    map (λ xi,
           let w := Np.mul (Np.mul (Np.mul (Np.of_Z 2) np_pi) Freq) xi in
           Np.add (Np.add (Np.mul a (np_sin w)) (Np.mul b (np_cos w))) c) x.

(** The first [for j in range(4)] loop: one fit per harmonic, all on the
    same [magnitude]. *)
Definition fit_harmonic (time magnitude : list float) (fundamental_Freq : float)
    (acc : result (list float * list float * list (list float))) (j : Z)
  : result (list float * list float * list (list float)) :=
  '(Atemp, PHtemp, popts) ← acc;
  let function_to_fit := _yfunc_maker (Np.mul (Np.of_Z (j + 1)) fundamental_Freq) in
  popt ← curve_fit function_to_fit time magnitude;
  p0 ← np_index popt 0;
  p1 ← np_index popt 1;
  Return (Atemp ++ [np_sqrt (Np.add (Np.pow p0 2) (Np.pow p1 2))],
          PHtemp ++ [np_arctan (Np.div p1 p0)],
          popts ++ [popt]).

(** The second [for j in range(4)] loop: subtract the fitted models. *)
Definition subtract_harmonic (time : list float) (fundamental_Freq : float)
    (popts : list (list float)) (acc : result (list float)) (j : Z)
  : result (list float) :=
  magnitude ← acc;
  popt ← np_index popts j;
  p0 ← np_index popt 0;
  p1 ← np_index popt 1;
  p2 ← np_index popt 2;
  np_sub_arrays magnitude
    (_model time p0 p1 p2 (Np.mul (Np.of_Z (j + 1)) fundamental_Freq)).

Definition frequency_step (time : list float)
    (acc : result (list float * list (list float) * list (list float))) (i : Z)
  : result (list float * list (list float) * list (list float)) :=
  '(magnitude, A, PH) ← acc;
  r ← fasper time magnitude (Np.of_Z 6) (Np.of_Z 100);
  let '(wk1, wk2, nout, jmax, prob) := r in
  fundamental_Freq ← np_index wk1 jmax;
  '(Atemp, PHtemp, popts) ←
    foldl (fit_harmonic time magnitude fundamental_Freq) (Return ([], [], []))
      (np_arange 0 4);
  magnitude ← foldl (subtract_harmonic time fundamental_Freq popts) (Return magnitude)
                (np_arange 0 4);
  Return (magnitude, A ++ [Atemp], PH ++ [PHtemp]).

(** The method is spelled [_compoenents] in the source, and its body ends
    without a [return]: when it runs to completion it yields [None]. *)
Definition _compoenents (magnitude time : list float) : result value :=
  tmin ← Np.min time;
  let time := map (λ t, Np.sub t tmin) time in
  '(_, A, PH) ← foldl (frequency_step time) (Return (magnitude, [], [])) (np_arange 0 3);
  scaledPH ← mapM (λ ph, ph0 ← np_index ph 0; Return (map (λ p, Np.sub p ph0) ph)) PH;
  Return VNone.

(** What [self.<name>] can resolve to. *)
Inductive member :=
| Method_mt (f : list float → list float → result value)
| OtherMember.

(** Every name an instance of [FourierComponents] resolves: the instance
    attributes, the class body, and what [Extractor] provides. *)
Definition namespace : gmap string member :=
  list_to_map
    [ ("space", OtherMember); ("name", OtherMember); ("params", OtherMember);
      ("_conf", OtherMember);
      ("_model", OtherMember); ("_yfunc_maker", OtherMember);
      ("_compoenents", Method_mt _compoenents); ("fit", OtherMember);
      ("__init__", OtherMember); ("__repr__", OtherMember); ("__str__", OtherMember);
      ("setup", OtherMember); ("teardown", OtherMember); ("extract", OtherMember) ].

Definition getattr (name : string) : result member :=
  match namespace !! name with
  | Some m => Return m
  | None => Raise (AttributeError name)
  end.

Definition call_mt (m : member) (magnitude time : list float) : result value :=
  match m with
  | Method_mt f => f magnitude time
  | OtherMember => Raise (TypeError "object is not callable")
  end.

(** [[M[r][0], M[r][1], M[r][2], M[r][3]]] *)
Definition row4 (M : value) (r : Z) : result (list value) :=
  mapM (λ j, row ← subscript M r; subscript row j) [0; 1; 2; 3]%Z.

Definition fit (magnitude time : list float) : result value :=
  _components ← getattr "_components";
  r ← call_mt _components magnitude time;
  '(A, PH, sPH) ← unpack3 r;
  freq1_aplitudes ← row4 A 0;
  freq2_aplitudes ← row4 A 1;
  freq3_aplitudes ← row4 A 2;
  freq1_phases ← row4 sPH 0;
  freq2_phases ← row4 sPH 1;
  freq3_phases ← row4 sPH 2;
  Return (VList (freq1_aplitudes ++ freq2_aplitudes ++ freq3_aplitudes ++
                 freq1_phases ++ freq2_phases ++ freq3_phases)).

End Primitives.
End FourierComponents.

(** ** StructureFunctions *)

Module StructureFunctions.

(** [scipy.interpolate.interp1d(x, y)] with its defaults: linear,
    [x] sorted on construction, evaluation outside the range of [x] is an
    error. *)
Record interpolant := { ix : list float; iy : list float }.

Definition interp1d (x y : list float) : result interpolant :=
  if negb (bool_decide (length x = length y))
  then Raise (ValueError "x and y arrays must be equal in length along interpolation axis.")
  else if bool_decide (length x < 2)%nat
  then Raise (ValueError "x and y arrays must have at least 2 entries")
  else
    let ind := Z.of_nat <$> np_argsort x in
    x ← np_take x ind;
    y ← np_take y ind;
    Return {| ix := x; iy := y |}.

(** [np.searchsorted(x, v)]: the number of entries below [v]. *)
Fixpoint searchsorted (x : list float) (v : float) : nat :=
  match x with
  | [] => 0
  | a :: x' => if Np.ltb a v then S (searchsorted x' v) else 0
  end.

Definition interp_call (f : interpolant) (x_new : float) : result float :=
  x_first ← np_index (ix f) 0;
  x_last ← np_index (ix f) (-1);
  if Np.ltb x_new x_first
  then Raise (ValueError "A value in x_new is below the interpolation range.")
  else if Np.ltb x_last x_new
  then Raise (ValueError "A value in x_new is above the interpolation range.")
  else
    let hi := Z.of_nat (Nat.min (Nat.max (searchsorted (ix f) x_new) 1) (length (ix f) - 1)) in
    let lo := (hi - 1)%Z in
    x_lo ← np_index (ix f) lo;
    x_hi ← np_index (ix f) hi;
    y_lo ← np_index (iy f) lo;
    y_hi ← np_index (iy f) hi;
    let slope := Np.div (Np.sub y_hi y_lo) (Np.sub x_hi x_lo) in
    Return (Np.add (Np.mul slope (Np.sub x_new x_lo)) y_lo).

(** [np.linspace(start, stop, num)] *)
Definition np_linspace (start stop : float) (num : nat) : list float :=
  let step := Np.div (Np.sub stop start) (Np.of_nat (num - 1)) in
  map (λ i, if bool_decide (i = num - 1)%nat then stop
            else Np.add (Np.mul (Np.of_nat i) step) start)
    (seq 0 num).

(** [mag_int[0:Np-tau] - mag_int[tau:Np]] *)
Definition lagged (Np_ : nat) (mag_int : list float) (tau : nat) : list float :=
  zip_with Np.sub (take (Np_ - tau) mag_int) (drop tau (take Np_ mag_int)).

(** The body of [for tau in np.arange(1, Nsf)]. *)
Definition sf_step (Np_ : nat) (mag_int : list float)
    (acc : list float * list float * list float) (tau : nat)
  : list float * list float * list float :=
  let '(sf1, sf2, sf3) := acc in
  let d := lagged Np_ mag_int tau in
  (<[(tau - 1)%nat := Np.mean (map (λ x, Np.pow (Np.abs x) 1) d)]> sf1,
   <[(tau - 1)%nat := Np.mean (map (λ x, Np.abs (Np.pow (Np.abs x) 2)) d)]> sf2,
   <[(tau - 1)%nat := Np.mean (map (λ x, Np.abs (Np.pow (Np.abs x) 3)) d)]> sf3).

Definition sf_loop (Nsf Np_ : nat) (mag_int : list float)
  : list float * list float * list float :=
  let z := np_zeros (Z.of_nat Nsf) in
  foldl (sf_step Np_ mag_int) (z, z, z) (seq 1 (Nsf - 1)).

(** [fit] up to the end of the loop: the three structure functions. *)
Definition structure_functions (magnitude time : list float)
  : result (list float * list float * list float) :=
  let Nsf := 100%nat in
  let Np_ := 100%nat in
  f ← interp1d time magnitude;
  lo ← Np.min time;
  hi ← Np.max time;
  let time_int := np_linspace lo hi Np_ in
  mag_int ← mapM (interp_call f) time_int;
  Return (sf_loop Nsf Np_ mag_int).

(** The arrays handed to [np.log10]. *)
Definition log10_arguments (magnitude time : list float)
  : result (list float * list float * list float) :=
  r ← structure_functions magnitude time;
  let '(sf1, sf2, sf3) := r in
  Return (np_trim_zeros sf1, np_trim_zeros sf2, np_trim_zeros sf3).

(** "Every lag whose value is zero is removed", as the specification
    words it. *)
Definition spec_drop_zero_lags (sf : list float) : list float :=
  filter (λ x, Np.is_zero x = false) sf.

Section Primitives.

Variable np_log10 : float → float.
(** [np.polyfit(x, y, 1)]: slope and intercept. *)
Variable polyfit1 : list float → list float → result (float * float).

Definition fit (magnitude time : list float) : result (float * float * float) :=
  r ← log10_arguments magnitude time;
  let '(a1, a2, a3) := r in
  let sf1_log := map np_log10 a1 in
  let sf2_log := map np_log10 a2 in
  let sf3_log := map np_log10 a3 in
  '(m_21, b_21) ← polyfit1 sf1_log sf2_log;
  '(m_31, b_31) ← polyfit1 sf1_log sf3_log;
  '(m_32, b_32) ← polyfit1 sf2_log sf3_log;
  Return (m_21, m_31, m_32).

End Primitives.
End StructureFunctions.

(** ** Color *)

(** Reading an array argument. *)
Definition as_floats (v : value) : result (list float) :=
  match v with
  | VArray l | VList l | VTuple l =>
      mapM (λ x, match x with
                 | VFloat f => Return f
                 | VInt z => Return (Np.of_Z z)
                 | _ => Raise (TypeError "unsupported operand type")
                 end) l
  | _ => Raise (TypeError "unsupported operand type")
  end.

Definition kwarg (kwargs : gmap string value) (name : string) : result value :=
  match kwargs !! name with Some v => Return v | None => Raise (KeyError name) end.

Module Color.

(** [def fit(self, magnitude, magnitude2)] *)
Definition fit : method :=
  {| m_args := ["magnitude"; "magnitude2"];
     m_body := λ kwargs st,
       (magnitude ← kwarg kwargs "magnitude" ≫= as_floats;
        magnitude2 ← kwarg kwargs "magnitude2" ≫= as_floats;
        Return (VFloat (Np.sub (Np.mean magnitude) (Np.mean magnitude2))), st) |}.

Definition decl : class_decl :=
  {| decl_name := "Color";
     decl_data := Some [VStr "magnitude"; VStr "time"; VStr "magnitude2"];
     decl_features := Some [VStr "Color"];
     decl_dependencies := None;
     decl_params := None;
     decl_setup := None;
     decl_fit := Some fit;
     decl_teardown := None |}.

(** The class object the metaclass builds from [decl]. *)
Definition cls : extractor_class :=
  {| cls_name := "Color";
     _conf := ExtractorConf.mk (list_to_set ["magnitude"; "time"; "magnitude2"])
                (list_to_set []) [] (list_to_set ["Color"]);
     cls_setup := Extractor_setup;
     cls_fit := fit;
     cls_teardown := Extractor_teardown |}.

End Color.

(** ** Small extractors used to exercise the framework *)

Module Examples.

Definition no_space : space := λ _, ∅.

(** Nine one-point channels. *)
Definition data9 : list value := replicate 9 (VArray [VFloat (Np.of_Z 1)]).

Definition conf_of (data deps feats : list string) : ExtractorConf.t :=
  ExtractorConf.mk (list_to_set data) (list_to_set deps) [] (list_to_set feats).

(** Declares two features; [fit] returns one number. *)
Definition MinMax_fit : method :=
  {| m_args := ["magnitude"];
     m_body := λ _ st, (Return (VFloat (Np.of_Z 1)), st) |}.

Definition MinMax_decl : class_decl :=
  {| decl_name := "MinMax";
     decl_data := Some [VStr "magnitude"];
     decl_features := Some [VStr "Min"; VStr "Max"];
     decl_dependencies := None;
     decl_params := None;
     decl_setup := None;
     decl_fit := Some MinMax_fit;
     decl_teardown := None |}.

Definition MinMax : extractor_class :=
  {| cls_name := "MinMax";
     _conf := conf_of ["magnitude"] [] ["Min"; "Max"];
     cls_setup := Extractor_setup;
     cls_fit := MinMax_fit;
     cls_teardown := Extractor_teardown |}.

(** Depends on the feature ["Mean"]. *)
Definition Centered_fit : method :=
  {| m_args := ["magnitude"; "Mean"];
     m_body := λ kwargs st,
       (magnitude ← kwarg kwargs "magnitude" ≫= as_floats;
        Mean ← kwarg kwargs "Mean" ≫= λ v, as_floats (VList [v]);
        Return (VArray (VFloat <$> map (λ x, Np.sub x (default Np.zero (head Mean)))
                                     magnitude)), st) |}.

Definition Centered_decl : class_decl :=
  {| decl_name := "Centered";
     decl_data := Some [VStr "magnitude"];
     decl_features := Some [VStr "Centered"];
     decl_dependencies := Some [VStr "Mean"];
     decl_params := None;
     decl_setup := None;
     decl_fit := Some Centered_fit;
     decl_teardown := None |}.

Definition Centered : extractor_class :=
  {| cls_name := "Centered";
     _conf := conf_of ["magnitude"] ["Mean"] ["Centered"];
     cls_setup := Extractor_setup;
     cls_fit := Centered_fit;
     cls_teardown := Extractor_teardown |}.

(** [fit] and [teardown] both raise. *)
Definition Failing_fit : method :=
  {| m_args := ["magnitude"];
     m_body := λ _ st, (Raise (UserError "fit failed"), st) |}.
Definition Failing_teardown : hook :=
  λ st, (Raise (UserError "teardown failed"), st).

Definition Failing_decl : class_decl :=
  {| decl_name := "Failing";
     decl_data := Some [VStr "magnitude"];
     decl_features := Some [VStr "Failing"];
     decl_dependencies := None;
     decl_params := None;
     decl_setup := None;
     decl_fit := Some Failing_fit;
     decl_teardown := Some Failing_teardown |}.

Definition Failing : extractor_class :=
  {| cls_name := "Failing";
     _conf := conf_of ["magnitude"] [] ["Failing"];
     cls_setup := Extractor_setup;
     cls_fit := Failing_fit;
     cls_teardown := Failing_teardown |}.

(** Stand-ins for the black-box primitives, to run the models on concrete
    inputs. *)

(** An optimizer that returns its initial guess. *)
Definition minimize_initial_guess (f : list float → result (option float))
    (x0 : list float) (method : string) (bounds : list (float * float))
  : result (list float) :=
  Return x0.

(** A transcendental function left uninterpreted on the rationals. *)
Definition uninterpreted (x : float) : float := Np.NaN.

(** A light curve of 100 unit-spaced epochs whose magnitude alternates
    between 0 and 1. *)
Definition unit_time : list float := (λ i, Np.of_nat i) <$> seq 0 100.
Definition alternating_magnitude : list float :=
  (λ i, Np.of_nat (i mod 2)) <$> seq 0 100.

End Examples.

(** ** Inputs for the binary64 models *)

Module Examples64.
Import PrimFloat.

(** Stand-ins for the numpy parameters, to run the models on concrete
    inputs: reductions that add from left to right (on the inputs below every
    sum is exact, so the order of the additions does not show), the square
    for [np.power(x, 2)], and stable insertion sorts. *)
Definition np_sum (l : list F64.t) : F64.t := F64.sum l.
Definition np_mean (l : list F64.t) : F64.t :=
  (F64.sum l / F64.of_int (Z.of_nat (length l)))%float.
Definition np_var (l : list F64.t) : F64.t :=
  let m := np_mean l in np_mean (map (λ x, ((x - m) * (x - m))%float) l).
Definition np_std (l : list F64.t) : F64.t := sqrt (np_var l).
Definition np_power (x : F64.t) (n : Z) : F64.t :=
  if (n =? 2)%Z then (x * x)%float else nan.

Definition key_le (x y : F64.t) : bool := is_nan y || (x <=? y)%float.
Definition np_sort (l : list F64.t) : list F64.t := stable_sort key_le l.
Definition np_argsort (l : list F64.t) : list nat :=
  fst <$> stable_sort (λ p q, key_le (snd p) (snd q)) (imap (λ i x, (i, x)) l).

(** A periodogram search that reports a single peak, at frequency [1]. *)
Definition fasper_unit_peak (x y : list F64.t) (ofac hifac : F64.t)
  : result (list F64.t * list F64.t * Z * Z * F64.t) :=
  Return ([1%float], [1%float], 1%Z, 0%Z, 0%float).

(** Four epochs within two periods of a unit-frequency signal, and one epoch
    just before the origin. *)
Definition folding_time : list F64.t := [0; 0.75; 1.125; 1.875]%float.
Definition folding_magnitude : list F64.t := [1; -1; 1; -1]%float.
Definition early_time : list F64.t := [-0x1p-100]%float.

(** Four unit-spaced epochs of alternating magnitude, for a slot width of
    [1/128]. *)
Definition grid_time : list F64.t := [0; 1; 2; 3]%float.
Definition flip_magnitude : list F64.t := [1; -1; 1; -1]%float.
Definition narrow_slot : F64.t := 0x1p-7%float.

(** Three epochs with the smallest positive slot width, [5e-324]. *)
Definition short_time : list F64.t := [0; 1; 2]%float.
Definition short_magnitude : list F64.t := [1; 2; 3]%float.
Definition smallest_slot : F64.t := 0x1p-1074%float.

End Examples64.

(** ** Registering the built-in extractors *)

(** The loop that closes the module:
    [for cls in Extractor.__subclasses__(): register_extractor(cls)].  It
    stops at the first exception; what was registered before stays. *)
Fixpoint register_all (classes : list extractor_class) (reg : registry)
  : result unit * registry :=
  match classes with
  | [] => (Return (), reg)
  | c :: rest =>
      match register_extractor (PyClass c) reg with
      | (Return _, reg') => register_all rest reg'
      | (Raise e, reg') => (Raise e, reg')
      end
  end.

(** The features of a list of classes. *)
Definition features_of (classes : list extractor_class) : gset string :=
  ⋃ ((λ c, ExtractorConf.features (_conf c)) <$> classes).

Module MoreExamples.

(** A second extractor that produces the feature ["Color"]. *)
Definition ColorIndex_fit : method :=
  {| m_args := ["magnitude"; "magnitude2"];
     m_body := λ kwargs st,
       (magnitude ← kwarg kwargs "magnitude" ≫= as_floats;
        magnitude2 ← kwarg kwargs "magnitude2" ≫= as_floats;
        Return (VFloat (Np.sub (Np.mean magnitude) (Np.mean magnitude2))), st) |}.

Definition ColorIndex : extractor_class :=
  {| cls_name := "ColorIndex";
     _conf := Examples.conf_of ["magnitude"; "magnitude2"] [] ["Color"];
     cls_setup := Extractor_setup;
     cls_fit := ColorIndex_fit;
     cls_teardown := Extractor_teardown |}.

(** Produces the feature ["Mean"]. *)
Definition Mean_fit : method :=
  {| m_args := ["magnitude"];
     m_body := λ kwargs st,
       (magnitude ← kwarg kwargs "magnitude" ≫= as_floats;
        Return (VFloat (Np.mean magnitude)), st) |}.

Definition Mean : extractor_class :=
  {| cls_name := "Mean";
     _conf := Examples.conf_of ["magnitude"] [] ["Mean"];
     cls_setup := Extractor_setup;
     cls_fit := Mean_fit;
     cls_teardown := Extractor_teardown |}.

(** A class statement that lists a channel twice. *)
Definition Doubled_decl : class_decl :=
  {| decl_name := "Doubled";
     decl_data := Some [VStr "magnitude"; VStr "magnitude"];
     decl_features := Some [VStr "Doubled"];
     decl_dependencies := None;
     decl_params := None;
     decl_setup := None;
     decl_fit := Some Mean_fit;
     decl_teardown := None |}.

(** An extractor with a parameter, and a space that overrides it. *)
Definition Lagged_fit : method :=
  {| m_args := ["magnitude"; "nlags"];
     m_body := λ kwargs st, (kwarg kwargs "nlags", st) |}.

Definition Lagged : extractor_class :=
  {| cls_name := "Lagged";
     _conf := ExtractorConf.mk (list_to_set ["magnitude"]) (list_to_set [])
                [("nlags", VInt 100)] (list_to_set ["Lagged"]);
     cls_setup := Extractor_setup;
     cls_fit := Lagged_fit;
     cls_teardown := Extractor_teardown |}.

Definition space_200 : space := λ _, {[ "nlags" := VInt 200; "other" := VInt 1 ]}.

(** An extractor whose [setup] raises. *)
Definition Unready_setup : hook := λ st, (Raise (UserError "setup failed"), st).

Definition Unready : extractor_class :=
  {| cls_name := "Unready";
     _conf := Examples.conf_of ["magnitude"] [] ["Unready"];
     cls_setup := Unready_setup;
     cls_fit := Mean_fit;
     cls_teardown := Extractor_teardown |}.

End MoreExamples.

(** ** AutocorLength *)

Module AutocorLength.
Section Primitives.

(** [stattools.acf(magnitude, nlags=nlags)] *)
Variable acf : list F64.t → Z → result (list F64.t).

(** [next((index for index, value in enumerate(AC)
          if value < np.exp(-1)), None)] *)
Definition first_below (AC : list F64.t) : option nat :=
  first_index (λ value, PrimFloat.ltb value F64.exp_m1) AC.

(** [while k is None: nlags = nlags + 100; ...], with fuel. *)
Fixpoint widen (fuel : nat) (magnitude : list F64.t) (nlags : Z) (k : option nat)
  : SlottedA_length.run (result nat) :=
  match k with
  | Some k => SlottedA_length.Done (Return k)
  | None =>
      match fuel with
      | O => SlottedA_length.OutOfFuel
      | S fuel' =>
          let nlags := (nlags + 100)%Z in
          match acf magnitude nlags with
          | Raise e => SlottedA_length.Done (Raise e)
          | Return AC => widen fuel' magnitude nlags (first_below AC)
          end
      end
  end.

Definition fit (fuel : nat) (magnitude : list F64.t) (nlags : Z)
  : SlottedA_length.run (result nat) :=
  match acf magnitude nlags with
  | Raise e => SlottedA_length.Done (Raise e)
  | Return AC => widen fuel magnitude nlags (first_below AC)
  end.

End Primitives.
End AutocorLength.

(** ** Con *)

(** [xrange(n)] *)
Definition xrange (n : Z) : list Z := seqZ 0 n.

Module Con.

(** [fit] returns the integer [0] or a float. *)
Inductive output := Int (n : Z) | Float (x : F64.t).

Section Primitives.

Variables np_std np_mean : list F64.t → F64.t.

(** [x > m + 2 * sigma or x < m - 2 * sigma] *)
Definition out_of_range (m sigma x : F64.t) : bool :=
  PrimFloat.ltb (PrimFloat.add m (PrimFloat.mul PrimFloat.two sigma)) x
  || PrimFloat.ltb x (PrimFloat.sub m (PrimFloat.mul PrimFloat.two sigma)).

(** [for j in xrange(consecutiveStar): ...], from [flag]: the flag at the
    end of the loop, which [break] leaves at [0]. *)
Fixpoint window (magnitude : list F64.t) (m sigma : F64.t) (i : Z) (js : list Z)
    (flag : bool) : result bool :=
  match js with
  | [] => Return flag
  | j :: js' =>
      x ← np_index magnitude (i + j);
      if out_of_range m sigma x then window magnitude m sigma i js' true
      else Return false
  end.

Definition fit (magnitude : list F64.t) (consecutiveStar : Z) : result output :=
  let N := Z.of_nat (length magnitude) in
  if (N <? consecutiveStar)%Z then Return (Int 0)
  else
    let sigma := np_std magnitude in
    let m := np_mean magnitude in
    count ← foldl (λ acc i,
                     count ← acc;
                     flag ← window magnitude m sigma i (xrange consecutiveStar) false;
                     Return (if flag : bool then (count + 1)%Z else count))
               (Return 0%Z) (xrange (N - consecutiveStar + 1));
    Return (Float (PrimFloat.div (PrimFloat.mul (F64.of_int count) PrimFloat.one)
                     (F64.of_int (N - consecutiveStar + 1)))).

(** The windows of [c] consecutive magnitudes that are all out of range,
    by their first index. *)
Definition runs (magnitude : list F64.t) (c : nat) : list nat :=
  filter (λ i, forallb (out_of_range (np_mean magnitude) (np_std magnitude))
                 (take c (drop i magnitude)) = true)
    (seq 0 (length magnitude - c + 1)).

End Primitives.
End Con.

(** ** PairSlopeTrend *)

Module PairSlopeTrend.

(** [len(np.where(p(a))[0])] *)
Definition count_where (p : F64.t → bool) (a : list F64.t) : Z :=
  Z.of_nat (length (filter (λ x, p x = true) a)).

Definition fit (magnitude : list F64.t) : F64.t :=
  let data_last := drop (length magnitude - 30) magnitude in
  PrimFloat.div
    (F64.of_int (count_where (λ d, PrimFloat.ltb PrimFloat.zero d) (F64.diff data_last)
                 - count_where (λ d, PrimFloat.leb d PrimFloat.zero) (F64.diff data_last)))
    (F64.of_int 30).

End PairSlopeTrend.

(** ** MaxSlope *)

Module MaxSlope.

(** Elementwise arithmetic on two arrays needs equal lengths (or length
    one, which numpy broadcasts). *)
Definition broadcast (f : F64.t → F64.t → F64.t) (a b : list F64.t)
  : result (list F64.t) :=
  match a, b with
  | [x], _ => Return (map (f x) b)
  | _, [y] => Return (map (λ x, f x y) a)
  | _, _ =>
      if bool_decide (length a = length b) then Return (zip_with f a b)
      else Raise (ValueError "operands could not be broadcast together")
  end.

Definition fit (magnitude time : list F64.t) : result F64.t :=
  let dm := map PrimFloat.abs (F64.diff magnitude) in
  let dt := F64.diff time in
  slope ← broadcast PrimFloat.div dm dt;
  _ ← F64.np_max slope;
  F64.np_max slope.

End MaxSlope.

(** * Properties *)

(** ** Error monad *)

Lemma bind_Return_inv {A B} (m : result A) (k : A → result B) (b : B) :
  m ≫= k = Return b → ∃ a, m = Return a ∧ k a = Return b.
Proof. destruct m as [a|e]; simpl; [eauto | discriminate]. Qed.

Lemma bind_Raise {A B} (e : exn) (k : A → result B) : Raise e ≫= k = Raise e.
Proof. reflexivity. Qed.

Lemma for_each_Return {A} (check : A → result unit) (xs : list A) :
  for_each check xs = Return () → Forall (λ x, check x = Return ()) xs.
Proof.
  induction xs as [|x xs IH]; simpl; intros H; [constructor|].
  destruct (check x) as [[]|e] eqn:Hx; simpl in H; [|discriminate].
  constructor; auto.
Qed.

(** ** The metaclass *)

Lemma in_DATAS_string (v : value) :
  in_DATAS v = true → ∃ s, v = VStr s ∧ s ∈ DATAS.
Proof.
  destruct v; simpl; try discriminate.
  intros H%bool_decide_eq_true. eauto.
Qed.

Lemma elem_of_strings_of (vs : list value) (s : string) :
  s ∈ strings_of vs ↔ VStr s ∈ vs.
Proof.
  unfold strings_of. rewrite list_elem_of_omap. split.
  - intros (v & Hv & Hs). destruct v; simpl in Hs; try discriminate.
    by inversion Hs; subst.
  - intros H. exists (VStr s). auto.
Qed.

(** What a successful class creation tells about the declaration. *)
Lemma ExtractorMeta_new_inv (d : class_decl) (c : extractor_class) :
  ExtractorMeta_new d = Return c →
  ∃ data feats fit,
    decl_data d = Some data ∧ decl_features d = Some feats ∧ decl_fit d = Some fit ∧
    data ≠ [] ∧ feats ≠ [] ∧
    Forall (λ v, ∃ s, v = VStr s ∧ s ∈ DATAS) data ∧
    Forall (λ v, ∃ s, v = VStr s ∧ s ∉ DATAS) feats ∧
    NoDup (strings_of data) ∧ NoDup (strings_of feats) ∧
    cls_name c = decl_name d ∧
    cls_fit c = fit ∧
    ExtractorConf.data (_conf c) = list_to_set (strings_of data) ∧
    ExtractorConf.features (_conf c) = list_to_set (strings_of feats) ∧
    ExtractorConf.dependencies (_conf c)
      = list_to_set (strings_of (default [] (decl_dependencies d))).
Proof.
  unfold ExtractorMeta_new, raise_ExtractorError. intros H.
  destruct (decl_data d) as [data|]; simpl in H; [|discriminate].
  case_bool_decide as Hd; simpl in H; [discriminate|].
  destruct (for_each _ data) as [[]|] eqn:Hfd; simpl in H; [|discriminate].
  destruct (has_dup (strings_of data)) eqn:Hdd; simpl in H; [discriminate|].
  destruct (decl_features d) as [feats|]; simpl in H; [|discriminate].
  case_bool_decide as Hf; simpl in H; [discriminate|].
  destruct (for_each _ feats) as [[]|] eqn:Hff; simpl in H; [|discriminate].
  destruct (has_dup (strings_of feats)) eqn:Hdf; simpl in H; [discriminate|].
  destruct (decl_fit d) as [fit|]; simpl in H; [|discriminate].
  destruct (for_each _ (default [] (decl_dependencies d))) as [[]|];
    simpl in H; [|discriminate].
  destruct (for_each _ (default [] (decl_params d))) as [[]|];
    simpl in H; [|discriminate].
  inversion H; subst c; clear H. simpl.
  exists data, feats, fit. repeat split; auto.
  - apply for_each_Return in Hfd. eapply Forall_impl; [exact Hfd|].
    intros v Hv. simpl in Hv. destruct (in_DATAS v) eqn:Hin; [|discriminate].
    by apply in_DATAS_string.
  - apply for_each_Return in Hff. eapply Forall_impl; [exact Hff|].
    intros v Hv. simpl in Hv. destruct v; try discriminate.
    exists s. split; [done|]. simpl in Hv. case_bool_decide; [discriminate|done].
  - unfold has_dup in Hdd. apply negb_false_iff, bool_decide_eq_true in Hdd. done.
  - unfold has_dup in Hdf. apply negb_false_iff, bool_decide_eq_true in Hdf. done.
Qed.

(** ** The registry *)

Lemma registry_update_lookup (c : extractor_class) (fs : list string) (reg : registry)
    (f : string) :
  registry_update c fs reg !! f = if bool_decide (f ∈ fs) then Some c else reg !! f.
Proof.
  unfold registry_update. revert reg.
  induction fs as [|g fs IH]; intros reg; simpl.
  - destruct (bool_decide (f ∈ [])) eqn:E; [|done].
    apply bool_decide_eq_true in E. by apply elem_of_nil in E.
  - rewrite IH. destruct (decide (f ∈ fs)) as [Hin|Hnin].
    + rewrite !bool_decide_eq_true_2; [done | by right | done].
    + rewrite (bool_decide_eq_false_2 (f ∈ fs)) by done.
      destruct (decide (f = g)) as [->|Hne].
      * rewrite lookup_insert_eq, bool_decide_eq_true_2; [done | left].
      * rewrite lookup_insert_ne by done.
        rewrite bool_decide_eq_false_2; [done|].
        intros [?|?]%elem_of_cons; done.
Qed.

Lemma register_extractor_Return (c r : extractor_class) (reg reg' : registry) :
  register_extractor (PyClass c) reg = (Return r, reg') →
  r = c ∧
  ExtractorConf.dependencies (_conf c) ⊆ dom reg ∧
  reg' = registry_update c (elements (ExtractorConf.features (_conf c))) reg.
Proof.
  unfold register_extractor.
  destruct (filter _ _) as [|d l] eqn:Hflt; intros H; inversion H; subst.
  repeat split; try done.
  intros d Hd. destruct (decide (d ∈ dom reg)) as [|Hn]; [done|].
  assert (Hin : d ∈ filter (λ d, d ∉ dom reg)
                  (elements (ExtractorConf.dependencies (_conf r)))).
  { apply list_elem_of_filter. split; [done|]. by apply elem_of_elements. }
  rewrite Hflt in Hin. by apply elem_of_nil in Hin.
Qed.

(** C1. After a valid extractor class has been registered successfully,
    looking up any feature name it declares returns that very class. *)
Theorem register_then_lookup (d : class_decl) (c r : extractor_class)
    (reg reg' : registry) :
  ExtractorMeta_new d = Return c →
  register_extractor (PyClass c) reg = (Return r, reg') →
  r = c ∧
  (∀ f, f ∈ ExtractorConf.features (_conf c) → extractor_of f reg' = Return c) ∧
  (∀ feats v, decl_features d = Some feats → v ∈ feats →
     ∃ f, v = VStr f ∧ extractor_of f reg' = Return c).
Proof.
  intros Hnew Hreg.
  apply register_extractor_Return in Hreg as (-> & _ & ->).
  assert (Hlook : ∀ f, f ∈ ExtractorConf.features (_conf c) →
            extractor_of f (registry_update c
              (elements (ExtractorConf.features (_conf c))) reg) = Return c).
  { intros f Hf. unfold extractor_of. rewrite registry_update_lookup.
    rewrite bool_decide_eq_true_2; [done|]. by apply elem_of_elements. }
  repeat split; [done|].
  intros feats v Hdecl Hv.
  apply ExtractorMeta_new_inv in Hnew
    as (data & feats' & fit & _ & Hf' & _ & _ & _ & _ & Hall & _ & _ & _ & _ & _ & Hfs & _).
  rewrite Hdecl in Hf'. inversion Hf'; subst feats'.
  rewrite Forall_forall in Hall. destruct (Hall v Hv) as (f & -> & _).
  exists f. split; [done|]. apply Hlook. rewrite Hfs.
  apply elem_of_list_to_set, elem_of_strings_of. done.
Qed.

Lemma Color_is_valid : ExtractorMeta_new Color.decl = Return Color.cls.
Proof. reflexivity. Qed.

Lemma register_then_lookup_witness :
  extractor_of "Color" (snd (register_extractor (PyClass Color.cls) ∅))
  = Return Color.cls.
Proof.
  destruct (register_then_lookup Color.decl Color.cls Color.cls ∅
              (snd (register_extractor (PyClass Color.cls) ∅)))
    as (_ & H & _).
  - reflexivity.
  - reflexivity.
  - apply H. vm_compute. set_solver.
Defined.

(** C2. Registering a class one of whose declared dependencies is not a key
    of the registry raises [FeatureNotFound] and leaves the registry as it
    was. *)
Theorem register_missing_dependency (c : extractor_class) (reg : registry) (d : string) :
  d ∈ ExtractorConf.dependencies (_conf c) →
  d ∉ dom reg →
  ∃ d', d' ∈ ExtractorConf.dependencies (_conf c) ∧ (d' ∉ dom reg) ∧
        register_extractor (PyClass c) reg
        = (Raise (FeatureNotFound
                    ("Dependency '" +:+ d' +:+ "' from extractor " +:+ (repr_cls (cls_name c)))),
           reg).
Proof.
  intros Hd Hn. unfold register_extractor.
  destruct (filter _ _) as [|d' l] eqn:Hflt.
  - assert (Hin : d ∈ filter (λ d, d ∉ dom reg)
                    (elements (ExtractorConf.dependencies (_conf c)))).
    { apply list_elem_of_filter. split; [done|]. by apply elem_of_elements. }
    rewrite Hflt in Hin. by apply elem_of_nil in Hin.
  - assert (Hin : d' ∈ filter (λ d, d ∉ dom reg)
                    (elements (ExtractorConf.dependencies (_conf c)))).
    { rewrite Hflt. left. }
    apply list_elem_of_filter in Hin as [Hn' Hd'%elem_of_elements].
    exists d'. done.
Qed.

Lemma Centered_is_valid : ExtractorMeta_new Examples.Centered_decl = Return Examples.Centered.
Proof. reflexivity. Qed.

Lemma register_missing_dependency_witness :
  ∃ d', register_extractor (PyClass Examples.Centered) ∅
        = (Raise (FeatureNotFound
                    ("Dependency '" +:+ d' +:+ "' from extractor "
                       +:+ (repr_cls "Centered"))),
           ∅).
Proof.
  destruct (register_missing_dependency Examples.Centered ∅ "Mean")
    as (d' & _ & _ & H).
  - vm_compute. set_solver.
  - set_solver.
  - exists d'. exact H.
Defined.

(** ** The extraction protocol *)

Lemma fst_zip_take {A B} (l : list A) (k : list B) :
  (zip l k).*1 = take (length k) l.
Proof.
  revert k; induction l as [|x l IH]; intros [|y k]; simpl; try done.
  by rewrite IH.
Qed.

Lemma zip_features_dom (fs : gset string) (vals : list value) :
  dom (zip_features fs vals) = list_to_set (take (length vals) (elements fs)).
Proof. unfold zip_features. by rewrite dom_list_to_map_L, fst_zip_take. Qed.

Lemma zip_features_size (fs : gset string) (vals : list value) :
  size (dom (zip_features fs vals)) = Nat.min (length vals) (size fs).
Proof.
  rewrite zip_features_dom, size_list_to_set.
  - by rewrite length_take.
  - apply (sublist_NoDup _ (elements fs)); [apply NoDup_elements | apply sublist_take].
Qed.

Lemma normalize_scalar (v : value) : has_iter v = false → normalize v = [v].
Proof. unfold normalize. by intros ->. Qed.

(** [extract] once the arguments are built: the three calls in order, the
    [finally] clause on every path. *)
Lemma extract_try_unfold (self : instance) (kwargs : gmap string value)
    (st : attrs) (log : list call) :
  let c := inst_cls self in
  let finally (r : result (gmap string value)) (st : attrs) (log : list call) :=
    match cls_teardown c st with
    | (Return _, st') => (r, (st', log ++ [CallTeardown]))
    | (Raise e, st') => (Raise e, (st', log ++ [CallTeardown]))
    end in
  extract_try self kwargs (st, log) =
    match cls_setup c st with
    | (Raise e, st1) => finally (Raise e) st1 (log ++ [CallSetup])
    | (Return _, st1) =>
        match call_kwargs (cls_fit c) kwargs st1 with
        | (Raise e, st2) => finally (Raise e) st2 ((log ++ [CallSetup]) ++ [CallFit])
        | (Return v, st2) =>
            finally (Return (zip_features (ExtractorConf.features (_conf c)) (normalize v)))
              st2 ((log ++ [CallSetup]) ++ [CallFit])
        end
    end.
Proof.
  intros c finally. subst finally.
  unfold extract_try, try_finally, extract_body, M_bind, M_ret, invoke. simpl.
  fold c.
  destruct (cls_setup c st) as [[u|e] st1]; simpl.
  - destruct (call_kwargs (cls_fit c) kwargs st1) as [[v|e] st2]; simpl;
      destruct (cls_teardown c st2) as [[u'|e'] st3]; reflexivity.
  - destruct (cls_teardown c st1) as [[u'|e'] st3]; reflexivity.
Qed.

Lemma extract_body_unfold (self : instance) (kwargs : gmap string value)
    (st : attrs) (log : list call) :
  let c := inst_cls self in
  extract_body self kwargs (st, log) =
    match cls_setup c st with
    | (Raise e, st1) => (Raise e, (st1, log ++ [CallSetup]))
    | (Return _, st1) =>
        match call_kwargs (cls_fit c) kwargs st1 with
        | (Raise e, st2) => (Raise e, (st2, (log ++ [CallSetup]) ++ [CallFit]))
        | (Return v, st2) =>
            (Return (zip_features (ExtractorConf.features (_conf c)) (normalize v)),
             (st2, (log ++ [CallSetup]) ++ [CallFit]))
        end
    end.
Proof.
  intros c. unfold extract_body, M_bind, M_ret, invoke. simpl. fold c.
  destruct (cls_setup c st) as [[u|e] st1]; simpl; [|done].
  destruct (call_kwargs (cls_fit c) kwargs st1) as [[v|e] st2]; reflexivity.
Qed.

Lemma extract_body_no_teardown (self : instance) (kwargs : gmap string value)
    (st : attrs) :
  count_call CallTeardown (snd (snd (extract_body self kwargs (st, [])))) = 0%nat.
Proof.
  rewrite extract_body_unfold. simpl.
  destruct (cls_setup _ st) as [[u|e] st1]; [|reflexivity].
  destruct (call_kwargs _ kwargs st1) as [[v|e] st2]; reflexivity.
Qed.

(** When argument building fails, nothing is called on [self]. *)
Lemma extract_kwargs_failure (self : instance) (data : list value)
    (dependencies : gmap string value) (e : exn) :
  build_kwargs self data dependencies = Raise e →
  extract self data dependencies = (Raise e, (inst_attrs self, [])).
Proof. unfold extract. by intros ->. Qed.

(** C3, as the code has it.  When [extract] returns a mapping, its keys are
    the first [n] declared features in iteration order, [n] being the number
    of values [fit] produced (one for a scalar): a subset of the declared
    features, equal to it exactly when [fit] produced at least as many
    values as there are declared features. *)
Theorem extract_keys (self : instance) (data : list value)
    (dependencies : gmap string value) (m : gmap string value) :
  outcome (extract self data dependencies) = Return m →
  let fs := ExtractorConf.features (_conf (inst_cls self)) in
  ∃ kwargs st1 st2 v,
    build_kwargs self data dependencies = Return kwargs ∧
    call_kwargs (cls_fit (inst_cls self)) kwargs st1 = (Return v, st2) ∧
    m = zip_features fs (normalize v) ∧
    (has_iter v = false → normalize v = [v]) ∧
    (has_iter v = true → normalize v = iter_items v) ∧
    dom m ⊆ fs ∧
    size (dom m) = Nat.min (length (normalize v)) (size fs) ∧
    (dom m = fs ↔ size fs ≤ length (normalize v)).
Proof.
  intros H fs. unfold extract, outcome in H.
  destruct (build_kwargs self data dependencies) as [kwargs|e] eqn:Hkw;
    [|discriminate].
  rewrite extract_try_unfold in H. cbv zeta in H.
  destruct (cls_setup _ _) as [[u|e] st1] eqn:Hs.
  2:{ destruct (cls_teardown _ st1) as [[?|?] ?]; discriminate. }
  destruct (call_kwargs _ kwargs st1) as [[v|e] st2] eqn:Hfit.
  2:{ destruct (cls_teardown _ st2) as [[?|?] ?]; discriminate. }
  destruct (cls_teardown _ st2) as [[?|?] ?]; [|discriminate].
  simpl in H. inversion H; subst m; clear H.
  exists kwargs, st1, st2, v. fold fs.
  split; [done|]. split; [done|]. split; [done|].
  split; [apply normalize_scalar|].
  split; [unfold normalize; by intros ->|].
  assert (Hsub : dom (zip_features fs (normalize v)) ⊆ fs).
  { rewrite zip_features_dom. intros f Hf%elem_of_list_to_set.
    apply elem_of_elements. eapply elem_of_sublist; [exact Hf | apply sublist_take]. }
  split; [done|]. split; [apply zip_features_size|].
  split.
  - intros Heq. pose proof (zip_features_size fs (normalize v)) as Hsz.
    rewrite Heq in Hsz. lia.
  - intros Hle. rewrite zip_features_dom, take_ge.
    + apply list_to_set_elements_L.
    + unfold size, set_size in Hle. simpl in Hle. done.
Qed.

Lemma MinMax_is_valid : ExtractorMeta_new Examples.MinMax_decl = Return Examples.MinMax.
Proof. reflexivity. Qed.

Lemma extract_keys_witness :
  ∃ m, outcome (extract (Extractor_init Examples.Centered Examples.no_space)
                  Examples.data9 {[ "Mean" := VFloat (Np.of_Z 1) ]}) = Return m ∧
       dom m ⊆ ExtractorConf.features (_conf Examples.Centered).
Proof.
  eexists. split; [vm_compute; reflexivity|].
  edestruct (extract_keys (Extractor_init Examples.Centered Examples.no_space)
               Examples.data9 {[ "Mean" := VFloat (Np.of_Z 1) ]})
    as (kw & st1 & st2 & v & _ & _ & _ & _ & _ & Hsub & _).
  - vm_compute. reflexivity.
  - exact Hsub.
Defined.

(** C3 fails as stated: a valid extractor that declares two features and
    whose [fit] returns one number yields a mapping with a single key. *)
Lemma extract_keys_counterexample :
  ExtractorMeta_new Examples.MinMax_decl = Return Examples.MinMax ∧
  ∃ m, outcome (extract (Extractor_init Examples.MinMax Examples.no_space)
                  Examples.data9 ∅) = Return m ∧
       dom m ≠ ExtractorConf.features (_conf Examples.MinMax).
Proof.
  split; [reflexivity|].
  eexists. split; [vm_compute; reflexivity|].
  intros Heq. apply (f_equal size) in Heq. vm_compute in Heq. discriminate.
Qed.

(** C4, as the code has it.  Once the arguments are built, [teardown] is
    called exactly once, as the last call, whatever [setup] and [fit] do.
    When [teardown] returns, the outcome of [extract] is the outcome of the
    [try] body, so a failure of [fit] propagates unchanged; when [teardown]
    itself raises, its exception is the one [extract] raises. *)
Theorem teardown_runs_once (self : instance) (data : list value)
    (dependencies kwargs : gmap string value) :
  build_kwargs self data dependencies = Return kwargs →
  let c := inst_cls self in
  let r := extract self data dependencies in
  let body := extract_body self kwargs (inst_attrs self, []) in
  count_call CallTeardown (calls_of r) = 1%nat ∧
  last (calls_of r) = Some CallTeardown ∧
  (∀ u st', cls_teardown c (fst (snd body)) = (Return u, st') → outcome r = fst body) ∧
  (∀ e' st', cls_teardown c (fst (snd body)) = (Raise e', st') → outcome r = Raise e') ∧
  (∀ u u' st1 st2 st3 e,
     cls_setup c (inst_attrs self) = (Return u, st1) →
     call_kwargs (cls_fit c) kwargs st1 = (Raise e, st2) →
     cls_teardown c st2 = (Return u', st3) →
     outcome r = Raise e ∧ calls_of r = [CallSetup; CallFit; CallTeardown]) ∧
  (∀ u u' st1 st2 st3 v,
     cls_setup c (inst_attrs self) = (Return u, st1) →
     call_kwargs (cls_fit c) kwargs st1 = (Return v, st2) →
     cls_teardown c st2 = (Return u', st3) →
     outcome r = Return (zip_features (ExtractorConf.features (_conf c)) (normalize v)) ∧
     calls_of r = [CallSetup; CallFit; CallTeardown]).
Proof.
  intros Hkw c r body. subst r body.
  unfold extract. rewrite Hkw.
  rewrite extract_try_unfold, extract_body_unfold. cbv zeta. fold c.
  unfold outcome, calls_of.
  destruct (cls_setup c (inst_attrs self)) as [[u|e] st1] eqn:Hs.
  - destruct (call_kwargs (cls_fit c) kwargs st1) as [[v|e] st2] eqn:Hf;
      destruct (cls_teardown c st2) as [[u'|e'] st3] eqn:Ht; simpl;
      rewrite ?Ht; repeat split; try done; intros; try congruence.
  - destruct (cls_teardown c st1) as [[u'|e'] st3] eqn:Ht; simpl;
      rewrite ?Ht; repeat split; try done; intros; try congruence.
Qed.

Lemma teardown_runs_once_witness :
  count_call CallTeardown
    (calls_of (extract (Extractor_init Examples.Centered Examples.no_space)
                 Examples.data9 {[ "Mean" := VFloat (Np.of_Z 1) ]})) = 1%nat.
Proof.
  edestruct (teardown_runs_once (Extractor_init Examples.Centered Examples.no_space)
               Examples.data9 {[ "Mean" := VFloat (Np.of_Z 1) ]}) as (H & _).
  - vm_compute. reflexivity.
  - exact H.
Defined.

Lemma Failing_is_valid : ExtractorMeta_new Examples.Failing_decl = Return Examples.Failing.
Proof. reflexivity. Qed.

(** C4 fails as stated: with a [teardown] that raises, the failure of [fit]
    is replaced by the failure of [teardown]. *)
Lemma teardown_counterexample :
  let self := Extractor_init Examples.Failing Examples.no_space in
  ExtractorMeta_new Examples.Failing_decl = Return Examples.Failing ∧
  (∃ kwargs,
     build_kwargs self Examples.data9 ∅ = Return kwargs ∧
     fst (call_kwargs (cls_fit Examples.Failing) kwargs (inst_attrs self))
     = Raise (UserError "fit failed")) ∧
  outcome (extract self Examples.data9 ∅) = Raise (UserError "teardown failed").
Proof.
  split; [reflexivity|]. split.
  - eexists. split; vm_compute; reflexivity.
  - vm_compute. reflexivity.
Qed.

(** ** Color *)

Lemma filter_elements_singleton (X : gset string) (P : string → Prop)
    `{!∀ x, Decision (P x)} (a : string) :
  a ∈ X → P a → (∀ x, x ∈ X → P x → x = a) → filter P (elements X) = [a].
Proof.
  intros Ha HPa Huniq.
  assert (Hnd : NoDup (filter P (elements X))) by apply NoDup_filter, NoDup_elements.
  assert (Hall : ∀ x, x ∈ filter P (elements X) → x = a).
  { intros x [HP Hx%elem_of_elements]%list_elem_of_filter. auto. }
  assert (Hin : a ∈ filter P (elements X)).
  { apply list_elem_of_filter. split; [done|]. by apply elem_of_elements. }
  destruct (filter P (elements X)) as [|x [|y l]].
  - by apply elem_of_nil in Hin.
  - f_equal. apply Hall. left.
  - exfalso. assert (x = a) as -> by (apply Hall; left).
    assert (y = a) as -> by (apply Hall; right; left).
    apply NoDup_cons in Hnd as [Hnd _]. apply Hnd. left.
Qed.

Lemma Color_data_elements :
  elements (ExtractorConf.data (_conf Color.cls)) = ["magnitude2"; "magnitude"; "time"].
Proof. vm_compute. reflexivity. Qed.

Lemma Color_dependencies_elements :
  elements (ExtractorConf.dependencies (_conf Color.cls)) = [].
Proof. vm_compute. reflexivity. Qed.

Lemma DATA_IDXS_magnitude : DATA_IDXS !! "magnitude" = Some 0%nat.
Proof. vm_compute. reflexivity. Qed.
Lemma DATA_IDXS_time : DATA_IDXS !! "time" = Some 1%nat.
Proof. vm_compute. reflexivity. Qed.
Lemma DATA_IDXS_magnitude2 : DATA_IDXS !! "magnitude2" = Some 3%nat.
Proof. vm_compute. reflexivity. Qed.

(** The arguments [extract] builds for [Color]: the three declared channels,
    ["time"] among them. *)
Lemma Color_build_kwargs (sp : space) (data : list value)
    (dependencies : gmap string value) :
  build_kwargs (Extractor_init Color.cls sp) data dependencies =
    match data !! 3%nat, data !! 0%nat, data !! 1%nat with
    | Some m2, Some m, Some t =>
        Return (∅ ∪ <["time" := t]> (<["magnitude" := m]> (<["magnitude2" := m2]> ∅)))
    | _, _, _ => Raise IndexError
    end.
Proof.
  unfold build_kwargs.
  change (inst_cls (Extractor_init Color.cls sp)) with Color.cls.
  change (inst_params (Extractor_init Color.cls sp)) with (∅ : gmap string value).
  rewrite Color_dependencies_elements, Color_data_elements.
  cbn [foldl mbind result_bind].
  rewrite DATA_IDXS_magnitude2, DATA_IDXS_magnitude, DATA_IDXS_time.
  destruct (data !! 3%nat) as [m2|]; cbn [foldl mbind result_bind]; [|reflexivity].
  destruct (data !! 0%nat) as [m|]; cbn [foldl mbind result_bind]; [|reflexivity].
  destruct (data !! 1%nat) as [t|]; reflexivity.
Qed.

Lemma Color_call_kwargs (m2 m t : value) (st : attrs) :
  call_kwargs Color.fit
    (∅ ∪ <["time" := t]> (<["magnitude" := m]> (<["magnitude2" := m2]> ∅))) st
  = (Raise (TypeError "fit() got an unexpected keyword argument 'time'"), st).
Proof.
  unfold call_kwargs.
  rewrite (filter_elements_singleton _ _ "time"); [reflexivity| | | ].
  - rewrite dom_union_L, !dom_insert_L. set_solver.
  - cbn. set_solver.
  - intros x Hx Hn. rewrite dom_union_L, !dom_insert_L, dom_empty_L in Hx.
    cbn in Hn. set_solver.
Qed.

(** C10. Every invocation of the protocol on [Color] raises: [extract] passes
    ["time"] among the keyword arguments, and [Color.fit] does not take it.
    On a data array that has the three declared slots the exception is the
    [TypeError] of the call; on a shorter one, building the arguments already
    fails.  [Color] declares no dependency, so it registers in any registry. *)
Theorem Color_extract_raises (sp : space) (data : list value)
    (dependencies : gmap string value) :
  let r := extract (Extractor_init Color.cls sp) data dependencies in
  raises (outcome r) ∧
  (4 ≤ length data →
   outcome r = Raise (TypeError "fit() got an unexpected keyword argument 'time'") ∧
   calls_of r = [CallSetup; CallFit; CallTeardown]) ∧
  (∀ reg, extractor_of "Color" (snd (register_extractor (PyClass Color.cls) reg))
          = Return Color.cls).
Proof.
  intros r.
  assert (Hcases :
    (∃ m2 m t, data !! 3%nat = Some m2 ∧ data !! 0%nat = Some m ∧ data !! 1%nat = Some t ∧
       r = (Raise (TypeError "fit() got an unexpected keyword argument 'time'"),
            (inst_attrs (Extractor_init Color.cls sp), [CallSetup; CallFit; CallTeardown])))
    ∨ (data !! 3%nat = None ∧ r = (Raise IndexError, (inst_attrs (Extractor_init Color.cls sp), [])))).
  { subst r. unfold extract. rewrite Color_build_kwargs.
    destruct (data !! 3%nat) as [m2|] eqn:H3.
    - destruct (data !! 0%nat) as [m|] eqn:H0.
      + destruct (data !! 1%nat) as [t|] eqn:H1.
        * left. exists m2, m, t. do 3 (split; [reflexivity|]).
          rewrite extract_try_unfold. cbv zeta.
          change (cls_setup (inst_cls (Extractor_init Color.cls sp))) with Extractor_setup.
          change (cls_fit (inst_cls (Extractor_init Color.cls sp))) with Color.fit.
          change (cls_teardown (inst_cls (Extractor_init Color.cls sp)))
            with Extractor_teardown.
          unfold Extractor_setup. rewrite Color_call_kwargs. reflexivity.
        * exfalso. apply lookup_ge_None in H1. apply lookup_lt_Some in H3. lia.
      + exfalso. apply lookup_ge_None in H0. apply lookup_lt_Some in H3. lia.
    - right. done. }
  split; [|split].
  - destruct Hcases as [(m2 & m & t & _ & _ & _ & ->)|[_ ->]]; eexists; reflexivity.
  - intros Hlen. destruct Hcases as [(m2 & m & t & _ & _ & _ & ->)|[H3 _]]; [done|].
    apply lookup_ge_None in H3. lia.
  - intros reg. unfold register_extractor.
    rewrite Color_dependencies_elements. cbn [filter list_filter snd].
    unfold extractor_of. rewrite registry_update_lookup.
    rewrite bool_decide_eq_true_2; [done|].
    apply elem_of_elements. vm_compute. set_solver.
Qed.

Lemma Color_extract_raises_witness :
  outcome (extract (Extractor_init Color.cls Examples.no_space) Examples.data9 ∅)
  = Raise (TypeError "fit() got an unexpected keyword argument 'time'").
Proof.
  destruct (Color_extract_raises Examples.no_space Examples.data9 ∅) as (_ & H & _).
  apply H. vm_compute. lia.
Defined.

(** ** FourierComponents *)

Section FourierComponents_facts.

Variable fasper :
  list float → list float → float → float →
  result (list float * list float * Z * Z * float).
Variable curve_fit :
  (list float → float → float → float → list float) →
  list float → list float → result (list float).
Variables np_sin np_cos np_sqrt np_arctan : float → float.
Variable np_pi : float.

Let fit := FourierComponents.fit fasper curve_fit np_sin np_cos np_sqrt np_arctan np_pi.
Let _compoenents :=
  FourierComponents._compoenents fasper curve_fit np_sin np_cos np_sqrt np_arctan np_pi.
Let getattr :=
  FourierComponents.getattr fasper curve_fit np_sin np_cos np_sqrt np_arctan np_pi.

(** The only completed run of [_compoenents] yields [None]. *)
Lemma compoenents_returns_None (magnitude time : list float) (v : value) :
  _compoenents magnitude time = Return v → v = VNone.
Proof.
  unfold _compoenents, FourierComponents._compoenents. intros H.
  apply bind_Return_inv in H as (tmin & _ & H).
  apply bind_Return_inv in H as ([[m A] PH] & _ & H).
  apply bind_Return_inv in H as (sPH & _ & H).
  by inversion H.
Qed.

(** Even under its real name the helper would not serve [fit]: its result
    cannot be unpacked into three values. *)
Lemma compoenents_result_not_unpackable (magnitude time : list float) :
  getattr "_compoenents" = Return (FourierComponents.Method_mt _compoenents) ∧
  raises (_compoenents magnitude time ≫= unpack3).
Proof.
  split; [reflexivity|].
  destruct (_compoenents magnitude time) as [v|e] eqn:H.
  - apply compoenents_returns_None in H as ->. eexists. reflexivity.
  - eexists. reflexivity.
Qed.

(** C6 (code defect). [fit] never returns the 24 values its class declares:
    on every input it raises [AttributeError], because it calls
    [self._components] while the class only defines [_compoenents].  Under
    that name the helper does resolve, but its result could not be unpacked
    into [A, PH, sPH] either. *)
Theorem FourierComponents_fit_raises (magnitude time : list float) :
  fit magnitude time = Raise (AttributeError "_components") ∧
  getattr "_components" = Raise (AttributeError "_components") ∧
  getattr "_compoenents" = Return (FourierComponents.Method_mt _compoenents) ∧
  raises (_compoenents magnitude time ≫= unpack3) ∧
  length FourierComponents.features = 24%nat.
Proof.
  split; [reflexivity|]. split; [reflexivity|].
  destruct (compoenents_result_not_unpackable magnitude time) as [Hget Hraise].
  split; [exact Hget|]. split; [exact Hraise|]. reflexivity.
Qed.

End FourierComponents_facts.

(** ** CAR *)

Section CAR_facts.

Variables np_exp np_log : float → float.
Variable np_pi : float.
Variable np_power : float → float → float.
Variable minimize :
  (list float → result (option float)) → list float → string →
  list (float * float) → result (list float).

Let fit := CAR.fit np_exp np_log np_pi np_power minimize.
Let _CAR_Like := CAR._CAR_Like np_exp np_log np_pi np_power.

(** C7. On a light curve (three channels of one length), [CAR.fit] returns
    exactly when the minimizer does, and then it returns
    [(sigma, tau, mean(magnitude) / tau)], where [sigma] and [tau] are the
    first two entries of the point the minimizer found. The minimizer is run
    on the likelihood of the data (errors squared), from the constant guess
    [(10, 0.5)], with both parameters bounded to [(0, 100)]. *)
Theorem CAR_fit_spec (magnitude time error : list float) :
  length time = length magnitude →
  length error = length magnitude →
  let objective :=
    λ parameters, _CAR_Like parameters time magnitude (map (λ e, Np.pow e 2) error) in
  let res :=
    minimize objective [Np.of_Z 10; Np.Fin (1 # 2)] "nelder-mead"
      [(Np.of_Z 0, Np.of_Z 100); (Np.of_Z 0, Np.of_Z 100)] in
  ∀ out,
    fit magnitude time error = Return out ↔
    ∃ x sigma tau,
      res = Return x ∧ np_index x 0 = Return sigma ∧ np_index x 1 = Return tau ∧
      out = (sigma, tau, Np.div (Np.mean magnitude) tau).
Proof.
  intros Ht He objective res out. subst fit objective res _CAR_Like.
  unfold CAR.fit, CAR._calculate_CAR, CAR.reshape_N1, CAR.x0, CAR.bnds, Np.half.
  rewrite !bool_decide_eq_true_2 by done.
  cbn [mbind result_bind fmap result_fmap].
  destruct (minimize _ _ _ _) as [x|e] eqn:Hmin; cbn [mbind result_bind].
  - destruct (np_index x 0) as [sigma|e0] eqn:H0; cbn [mbind result_bind].
    + destruct (np_index x 1) as [tau|e1] eqn:H1; cbn [mbind result_bind].
      * split.
        -- intros H. inversion H; subst. by exists x, sigma, tau.
        -- intros (x' & s & t & Hx & Hs & Htau & ->). congruence.
      * split; [discriminate|]. intros (x' & s & t & Hx & Hs & Htau & ->).
        congruence.
    + split; [discriminate|]. intros (x' & s & t & Hx & Hs & Htau & ->).
      congruence.
  - split; [discriminate|]. intros (x' & s & t & Hx & Hs & Htau & ->). discriminate.
Qed.

End CAR_facts.

Lemma CAR_fit_spec_witness :
  CAR.fit Examples.uninterpreted Examples.uninterpreted Np.NaN (λ _ _, Np.NaN)
    Examples.minimize_initial_guess
    [Np.of_Z 1; Np.of_Z 2; Np.of_Z 3] [Np.of_Z 0; Np.of_Z 1; Np.of_Z 2]
    [Np.of_Z 1; Np.of_Z 1; Np.of_Z 1]
  = Return (Np.of_Z 10, Np.Fin (1 # 2), Np.div (Np.mean [Np.of_Z 1; Np.of_Z 2; Np.of_Z 3])
                                           (Np.Fin (1 # 2))).
Proof.
  apply (CAR_fit_spec Examples.uninterpreted Examples.uninterpreted Np.NaN (λ _ _, Np.NaN)
           Examples.minimize_initial_guess
           [Np.of_Z 1; Np.of_Z 2; Np.of_Z 3] [Np.of_Z 0; Np.of_Z 1; Np.of_Z 2]
           [Np.of_Z 1; Np.of_Z 1; Np.of_Z 1] eq_refl eq_refl).
  exists [Np.of_Z 10; Np.Fin (1 # 2)], (Np.of_Z 10), (Np.Fin (1 # 2)).
  repeat split; reflexivity.
Defined.

(** ** StructureFunctions *)

Section trim.
Context {A : Type} (is_zero : A → bool).

Lemma trim_front_split (l : list A) :
  ∃ pre, l = pre ++ trim_front is_zero l ∧ Forall (λ x, is_zero x = true) pre.
Proof.
  induction l as [|x l (pre & Hl & Hpre)]; simpl.
  - exists []. by split.
  - destruct (is_zero x) eqn:Hx.
    + exists (x :: pre). split; [by rewrite Hl at 1 | by constructor].
    + exists []. by split.
Qed.

Lemma trim_front_head (l : list A) (x : A) :
  head (trim_front is_zero l) = Some x → is_zero x = false.
Proof.
  induction l as [|y l IH]; simpl; [discriminate|].
  destruct (is_zero y) eqn:Hy; [done|]. simpl. by intros [= <-].
Qed.

Lemma trim_back_split (l : list A) :
  ∃ post, l = trim_back is_zero l ++ post ∧ Forall (λ x, is_zero x = true) post.
Proof.
  unfold trim_back.
  destruct (trim_front_split (reverse l)) as (pre & Hl & Hpre).
  exists (reverse pre). split.
  - rewrite <- reverse_app, <- Hl. by rewrite reverse_involutive.
  - by apply Forall_reverse.
Qed.

Lemma trim_back_last (l : list A) (x : A) :
  last (trim_back is_zero l) = Some x → is_zero x = false.
Proof.
  unfold trim_back. rewrite last_reverse. apply trim_front_head.
Qed.

Lemma trim_back_head (l : list A) (x : A) :
  head (trim_back is_zero l) = Some x → head l = Some x.
Proof.
  destruct (trim_back_split l) as (post & Hl & _).
  intros H. rewrite Hl. destruct (trim_back is_zero l); [discriminate|done].
Qed.

Lemma filter_all_zero (l : list A) :
  Forall (λ x, is_zero x = true) l → filter (λ x, is_zero x = false) l = [].
Proof.
  induction 1 as [|x l Hx _ IH]; [done|].
  rewrite filter_cons_False; [done|]. by rewrite Hx.
Qed.

Lemma filter_none_zero (l : list A) :
  Forall (λ x, is_zero x = false) l → filter (λ x, is_zero x = false) l = l.
Proof.
  induction 1 as [|x l Hx _ IH]; [done|].
  rewrite filter_cons_True by done. by rewrite IH.
Qed.

End trim.

(** [np.trim_zeros] removes a run of zeros at each end and nothing else. *)
Lemma np_trim_zeros_spec (sf : list float) :
  (∃ pre post, sf = pre ++ np_trim_zeros sf ++ post ∧
               Forall (λ x, Np.is_zero x = true) pre ∧
               Forall (λ x, Np.is_zero x = true) post) ∧
  (∀ x, head (np_trim_zeros sf) = Some x → Np.is_zero x = false) ∧
  (∀ x, last (np_trim_zeros sf) = Some x → Np.is_zero x = false) ∧
  (Forall (λ x, Np.is_zero x = false) (np_trim_zeros sf)
   ↔ np_trim_zeros sf = StructureFunctions.spec_drop_zero_lags sf).
Proof.
  unfold np_trim_zeros.
  destruct (trim_front_split Np.is_zero sf) as (pre & Hpre & Hzpre).
  destruct (trim_back_split Np.is_zero (trim_front Np.is_zero sf))
    as (post & Hpost & Hzpost).
  assert (Hsf : sf = pre ++ trim_back Np.is_zero (trim_front Np.is_zero sf) ++ post).
  { by rewrite <- Hpost. }
  split; [by exists pre, post|].
  split; [intros x Hx; apply trim_back_head in Hx; by eapply trim_front_head|].
  split; [apply trim_back_last|].
  unfold StructureFunctions.spec_drop_zero_lags. split.
  - intros Hnz. rewrite Hsf at 2. rewrite !filter_app.
    rewrite (filter_all_zero Np.is_zero pre), (filter_all_zero Np.is_zero post) by done.
    rewrite (filter_none_zero Np.is_zero) by done. by rewrite app_nil_r.
  - intros Heq. rewrite Heq. apply Forall_forall.
    by intros x [Hx _]%list_elem_of_filter.
Qed.

Lemma sf_loop_untouched (Np_ : nat) (mag_int : list float) (taus : list nat)
    (acc : list float * list float * list float) (n : nat) :
  Forall (λ tau, (tau - 1)%nat ≠ n) taus →
  let r := foldl (StructureFunctions.sf_step Np_ mag_int) acc taus in
  (length r.1.1 = length acc.1.1 ∧ r.1.1 !! n = acc.1.1 !! n) ∧
  (length r.1.2 = length acc.1.2 ∧ r.1.2 !! n = acc.1.2 !! n) ∧
  (length r.2 = length acc.2 ∧ r.2 !! n = acc.2 !! n).
Proof.
  revert acc. induction taus as [|tau taus IH]; intros acc Hall; [done|].
  apply Forall_cons in Hall as [Htau Hall]. simpl.
  specialize (IH (StructureFunctions.sf_step Np_ mag_int acc tau) Hall).
  destruct acc as [[s1 s2] s3]. simpl in *.
  rewrite !length_insert, !list_lookup_insert_ne in IH by done. exact IH.
Qed.

(** The last slot of every structure function is never assigned. *)
Lemma sf_loop_last_slot (mag_int : list float) :
  let r := StructureFunctions.sf_loop 100 100 mag_int in
  Forall (λ sf, length sf = 100%nat ∧ sf !! 99%nat = Some Np.zero) [r.1.1; r.1.2; r.2].
Proof.
  intros r. subst r. unfold StructureFunctions.sf_loop.
  destruct (sf_loop_untouched 100 mag_int (seq 1 (100 - 1))
              (np_zeros (Z.of_nat 100), np_zeros (Z.of_nat 100), np_zeros (Z.of_nat 100)) 99)
    as ((L1 & E1) & (L2 & E2) & (L3 & E3)).
  { apply Forall_forall. intros tau Htau%elem_of_seq. lia. }
  repeat constructor; try done.
Qed.

(** C9, as the code has it.  What [fit] hands to [np.log10] is each
    structure function with the run of zeros at its front and the run of
    zeros at its back removed; the last slot, which the loop never fills, is
    always among them.  The first and the last value handed over are
    non-zero; a zero lying between two non-zero values is kept, and the
    array is free of zeros exactly when trimming amounts to dropping every
    zero lag. *)
Theorem log10_arguments_trimmed (magnitude time sf1 sf2 sf3 : list float) :
  StructureFunctions.structure_functions magnitude time = Return (sf1, sf2, sf3) →
  let is0 := Np.is_zero in
  StructureFunctions.log10_arguments magnitude time
  = Return (np_trim_zeros sf1, np_trim_zeros sf2, np_trim_zeros sf3) ∧
  Forall (λ sf,
            length sf = 100%nat ∧ sf !! 99%nat = Some Np.zero ∧
            (∃ pre post, sf = pre ++ np_trim_zeros sf ++ post ∧
                         Forall (λ x, is0 x = true) pre ∧
                         Forall (λ x, is0 x = true) post ∧
                         (length pre + length post ≥ 1)%nat) ∧
            (∀ x, head (np_trim_zeros sf) = Some x → is0 x = false) ∧
            (∀ x, last (np_trim_zeros sf) = Some x → is0 x = false) ∧
            (Forall (λ x, is0 x = false) (np_trim_zeros sf)
             ↔ np_trim_zeros sf = StructureFunctions.spec_drop_zero_lags sf))
    [sf1; sf2; sf3].
Proof.
  intros Hsf is0. split.
  { unfold StructureFunctions.log10_arguments. by rewrite Hsf. }
  unfold StructureFunctions.structure_functions in Hsf.
  apply bind_Return_inv in Hsf as (f & _ & Hsf).
  apply bind_Return_inv in Hsf as (lo & _ & Hsf).
  apply bind_Return_inv in Hsf as (hi & _ & Hsf).
  apply bind_Return_inv in Hsf as (mag_int & _ & Hsf).
  pose proof (sf_loop_last_slot mag_int) as Hlast. cbv zeta in Hlast.
  assert (Heq : StructureFunctions.sf_loop 100 100 mag_int = (sf1, sf2, sf3))
    by (cbv zeta in Hsf; congruence).
  rewrite Heq in Hlast. simpl in Hlast.
  eapply Forall_impl; [exact Hlast|].
  intros sf [Hlen H99]. simpl.
  destruct (np_trim_zeros_spec sf) as ((pre & post & Hsplit & Hpre & Hpost) & Hh & Hl & Hiff).
  repeat split; try done.
  - exists pre, post. repeat split; try done.
    destruct pre as [|p pre]; [|simpl; lia].
    destruct post as [|q post]; [|simpl; lia].
    exfalso. simpl in Hsplit. rewrite app_nil_r in Hsplit.
    assert (Hl99 : last sf = Some Np.zero).
    { rewrite last_lookup, Hlen. exact H99. }
    rewrite Hsplit in Hl99. apply Hl in Hl99. discriminate.
  - apply Hiff.
  - apply Hiff.
Qed.

Lemma log10_arguments_trimmed_witness :
  ∃ a1 a2 a3,
    StructureFunctions.log10_arguments Examples.alternating_magnitude Examples.unit_time
    = Return (a1, a2, a3) ∧ length a1 = 99%nat.
Proof.
  destruct (StructureFunctions.structure_functions
              Examples.alternating_magnitude Examples.unit_time)
    as [[[sf1 sf2] sf3]|e] eqn:Hsf; [|vm_compute in Hsf; discriminate].
  destruct (log10_arguments_trimmed _ _ _ _ _ Hsf) as [Hargs _].
  exists (np_trim_zeros sf1), (np_trim_zeros sf2), (np_trim_zeros sf3).
  split; [exact Hargs|].
  vm_compute in Hsf. inversion Hsf. vm_compute. reflexivity.
Defined.

(** C9 fails as stated: on a light curve that alternates between two
    magnitudes, every even lag has a zero structure function; these zeros lie
    between non-zero values, are not removed, and reach [np.log10]. *)
Lemma log10_arguments_counterexample :
  ∃ sf1 sf2 sf3 a1 a2 a3,
    StructureFunctions.structure_functions
      Examples.alternating_magnitude Examples.unit_time = Return (sf1, sf2, sf3) ∧
    StructureFunctions.log10_arguments
      Examples.alternating_magnitude Examples.unit_time = Return (a1, a2, a3) ∧
    sf1 !! 1%nat = Some (Np.Fin 0) ∧
    a1 !! 1%nat = Some (Np.Fin 0) ∧ a2 !! 1%nat = Some (Np.Fin 0) ∧
    a3 !! 1%nat = Some (Np.Fin 0) ∧
    Np.is_zero (Np.Fin 0) = true ∧
    a1 ≠ StructureFunctions.spec_drop_zero_lags sf1.
Proof.
  do 6 eexists.
  split; [vm_compute; reflexivity|].
  split; [vm_compute; reflexivity|].
  repeat (split; [reflexivity|]).
  intros H. apply (f_equal length) in H. vm_compute in H. discriminate.
Qed.

(** ** Index arrays *)

Lemma np_index_nat {A} (a : list A) (i : nat) (x : A) :
  a !! i = Some x → np_index a (Z.of_nat i) = Return x.
Proof.
  intros H. pose proof (lookup_lt_Some _ _ _ H) as Hlt.
  unfold np_index.
  replace (Z.of_nat i <? 0)%Z with false by (symmetry; apply Z.ltb_ge; lia).
  replace (0 <=? Z.of_nat i)%Z with true by (symmetry; apply Z.leb_le; lia).
  replace (Z.of_nat i <? Z.of_nat (length a))%Z with true
    by (symmetry; apply Z.ltb_lt; lia).
  simpl. by rewrite Nat2Z.id, H.
Qed.

Lemma mapM_Return {A B} (f : A → result B) (l : list A) (k : list B) :
  Forall2 (λ x y, f x = Return y) l k → mapM f l = Return k.
Proof.
  induction 1 as [|x y l k Hxy _ IH]; [done|].
  simpl. rewrite Hxy. simpl. rewrite IH. done.
Qed.

(** Taking a whole array in a permuted order succeeds and permutes it. *)
Lemma np_take_perm {A} (a : list A) (order : list nat) :
  order ≡ₚ seq 0 (length a) →
  ∃ k, np_take a (Z.of_nat <$> order) = Return k ∧ k ≡ₚ a ∧
       Forall2 (λ i x, a !! i = Some x) order k.
Proof.
  intros Hperm.
  assert (Hall : Forall (λ i, (i < length a)%nat) order).
  { apply Forall_forall. intros i Hi. rewrite Hperm in Hi.
    apply elem_of_seq in Hi. lia. }
  assert (Hk : ∃ k, Forall2 (λ i x, a !! i = Some x) order k).
  { clear Hperm. induction Hall as [|i order Hi _ (k & Hk)]; [by exists []|].
    destruct (lookup_lt_is_Some_2 a i Hi) as [x Hx].
    exists (x :: k). by constructor. }
  destruct Hk as (k & Hk). exists k. split; [|split; [|done]].
  - unfold np_take. apply mapM_Return.
    apply Forall2_fmap_l. eapply Forall2_impl; [exact Hk|].
    intros i x Hix. by apply np_index_nat.
  - destruct a as [|d a']; [|set (a := d :: a') in *].
    { simpl in Hperm. apply Permutation_nil_r in Hperm as ->.
      by inversion Hk. }
    assert (Hkeq : k = (λ i, default d (a !! i)) <$> order).
    { clear -Hk. induction Hk as [|i x order k Hix _ IH]; [done|].
      simpl. rewrite Hix. simpl. by f_equal. }
    assert (Ha : a = (λ i, default d (a !! i)) <$> seq 0 (length a)).
    { clearbody a. clear. apply list_eq. intros i. rewrite list_lookup_fmap.
      destruct (decide (i < length a)%nat) as [Hlt|Hge].
      - rewrite lookup_seq_lt by done. simpl.
        destruct (lookup_lt_is_Some_2 a i Hlt) as [x Hx]. by rewrite Hx.
      - rewrite lookup_seq_ge by lia. simpl. apply lookup_ge_None. lia. }
    rewrite Hkeq.
    etransitivity; [apply fmap_Permutation, Hperm|]. by rewrite <- Ha.
Qed.

(** ** LombScargle *)

Section LombScargle_facts.

Variable fasper :
  list F64.t → list F64.t → F64.t → F64.t →
  result (list F64.t * list F64.t * Z * Z * F64.t).
Variables np_mean np_std np_var np_sum : list F64.t → F64.t.
Variable np_power : F64.t → Z → F64.t.
Variable np_argsort : list F64.t → list nat.

Let fit := LombScargle.fit fasper np_mean np_std np_var np_sum np_power np_argsort.
Let _compute_ls := LombScargle._compute_ls fasper.
Let _compute_cs := LombScargle._compute_cs np_mean np_std.
Let _compute_eta := LombScargle._compute_eta np_var np_sum np_power.

(** C8, as the code has it.  With [freq] the peak frequency of the search,
    the period is [T = 1 / freq]; every time is folded on a window of TWO
    periods and divided by it ([np.mod(time, 2 * T) / (2 * T)], in binary64);
    the magnitudes are read in the order [np.argsort] gives for the folded
    times, which, [np.argsort] keeping its contract, is a rearrangement of
    the magnitudes; and [fit] returns exactly [(T, prob, R, Psi_eta)] with
    [prob] the significance the search reported and [R], [Psi_eta] the
    cumulative-sum range and the squared-first-difference statistic of the
    folded magnitudes. *)
Theorem LombScargle_fit_spec (magnitude time : list F64.t) (ofac : F64.t)
    (fx fy : list F64.t) (nout jmax : Z) (prob freq : F64.t) :
  fasper time magnitude ofac F64.hundred = Return (fx, fy, nout, jmax, prob) →
  np_index fx jmax = Return freq →
  let T := PrimFloat.div PrimFloat.one freq in
  let window := PrimFloat.mul PrimFloat.two T in
  let new_time := map (λ t, PrimFloat.div (F64.np_mod t window) window) time in
  let order := np_argsort new_time in
  _compute_ls magnitude time ofac = Return (T, new_time, prob, freq) ∧
  (LombScargle.argsort_contract new_time order →
   length magnitude = length time →
     ∃ folded_data, np_take magnitude (Z.of_nat <$> order) = Return folded_data ∧
                    folded_data ≡ₚ magnitude ∧
                    Forall2 (λ i x, magnitude !! i = Some x) order folded_data) ∧
  (∀ out,
     fit magnitude time ofac = Return out ↔
     ∃ folded_data R,
       np_take magnitude (Z.of_nat <$> order) = Return folded_data ∧
       _compute_cs folded_data (length folded_data) = Return R ∧
       out = (T, prob, R, _compute_eta folded_data (length folded_data))).
Proof.
  intros Hsearch Hpeak T window new_time order.
  assert (Hls : _compute_ls magnitude time ofac = Return (T, new_time, prob, freq)).
  { subst _compute_ls. unfold LombScargle._compute_ls.
    rewrite Hsearch. cbn [mbind result_bind]. rewrite Hpeak. reflexivity. }
  split; [exact Hls|]. split.
  - intros [Hperm _] Hlen. apply np_take_perm.
    rewrite Hperm. subst new_time. by rewrite length_map, Hlen.
  - intros out. subst fit _compute_cs _compute_eta.
    unfold LombScargle.fit. subst _compute_ls. rewrite Hls. cbn [mbind result_bind].
    fold order.
    destruct (np_take magnitude (Z.of_nat <$> order)) as [folded|e] eqn:Htake;
      cbn [mbind result_bind].
    + destruct (LombScargle._compute_cs np_mean np_std folded (length folded))
        as [R|e] eqn:HR; cbn [mbind result_bind].
      * split.
        -- intros H. inversion H; subst. by exists folded, R.
        -- intros (fd & R' & Hfd & HR' & ->). congruence.
      * split; [discriminate|]. intros (fd & R' & Hfd & HR' & ->). congruence.
    + split; [discriminate|]. intros (fd & R' & Hfd & HR' & ->). discriminate.
Qed.

End LombScargle_facts.

Section LombScargle_examples.
Import PrimFloat.

Lemma LombScargle_fit_spec_witness :
  LombScargle.fit Examples64.fasper_unit_peak Examples64.np_mean Examples64.np_std
    Examples64.np_var Examples64.np_sum Examples64.np_power Examples64.np_argsort
    Examples64.folding_magnitude Examples64.folding_time 6%float
  = Return (1%float, 0%float, 0.25%float, 4%float).
Proof.
  destruct (LombScargle_fit_spec Examples64.fasper_unit_peak Examples64.np_mean
              Examples64.np_std Examples64.np_var Examples64.np_sum Examples64.np_power
              Examples64.np_argsort
              Examples64.folding_magnitude Examples64.folding_time 6%float
              [1%float] [1%float] 1 0 0%float 1%float eq_refl eq_refl)
    as (_ & _ & H).
  apply H. exists Examples64.folding_magnitude, 0.25%float.
  repeat split; vm_compute; reflexivity.
Defined.

(** C8 fails as stated, twice.  Folding on half a period orders the
    magnitudes differently from the code, and the two statistics of the
    folded sequence come out different.  And the folded time is not always
    below 1: an epoch just before the origin folds to exactly [1.0]. *)
Lemma LombScargle_fold_counterexample :
  let fit := LombScargle.fit Examples64.fasper_unit_peak Examples64.np_mean
               Examples64.np_std Examples64.np_var Examples64.np_sum Examples64.np_power
               Examples64.np_argsort in
  let spec_fit := LombScargle.spec_fit Examples64.fasper_unit_peak Examples64.np_mean
                    Examples64.np_std Examples64.np_var Examples64.np_sum
                    Examples64.np_power Examples64.np_argsort in
  let magnitude := Examples64.folding_magnitude in
  let time := Examples64.folding_time in
  LombScargle._compute_ls Examples64.fasper_unit_peak magnitude time 6%float
  = Return (1%float, [0; 0.375; 0.5625; 0.9375]%float, 0%float, 1%float) ∧
  LombScargle.fold_on (1 / 2)%float time = [0; 0.5; 0.25; 0.75]%float ∧
  fit magnitude time 6%float = Return (1%float, 0%float, 0.25%float, 4%float) ∧
  spec_fit magnitude time 6%float
  = Return (1%float, 0%float, 0.5%float, 0x1.5555555555555p+0%float) ∧
  fit magnitude time 6%float ≠ spec_fit magnitude time 6%float ∧
  LombScargle._compute_ls Examples64.fasper_unit_peak [1%float] Examples64.early_time 6%float
  = Return (1%float, [1%float], 0%float, 1%float) ∧
  PrimFloat.ltb 1 1 = false.
Proof.
  repeat split; try (vm_compute; reflexivity).
  intros H. vm_compute in H.
  apply (f_equal (λ r, match r with
                       | Return (_, _, R, _) => PrimFloat.eqb R 0.25
                       | Raise _ => false
                       end)) in H.
  vm_compute in H. discriminate.
Qed.

End LombScargle_examples.
(** ** binary64 comparisons with infinity *)

Lemma ltb_infinity_l (x : F64.t) : PrimFloat.ltb PrimFloat.infinity x = false.
Proof.
  rewrite FloatAxioms.ltb_spec.
  change (FloatOps.Prim2SF PrimFloat.infinity) with (SpecFloat.S754_infinity false).
  by destruct (FloatOps.Prim2SF x) as [[]|[]| |[] ? ?].
Qed.

Lemma finite_ltb_infinity (x : F64.t) :
  F64.is_finite x = true → PrimFloat.ltb x PrimFloat.infinity = true.
Proof.
  unfold F64.is_finite. rewrite FloatAxioms.ltb_spec.
  change (FloatOps.Prim2SF PrimFloat.infinity) with (SpecFloat.S754_infinity false).
  by destruct (FloatOps.Prim2SF x) as [[]|[]| |[] ? ?].
Qed.

(** The budget of round 1018 is beyond the largest finite float. *)
Lemma of_int_overflow : F64.of_int (100 * 2 ^ Z.of_nat 1018) = PrimFloat.infinity.
Proof. vm_compute. reflexivity. Qed.

(** ** The first index that satisfies a test *)

Lemma first_index_Some {A} (p : A → bool) (a : list A) (k : nat) :
  first_index p a = Some k →
  (∃ v, a !! k = Some v ∧ p v = true) ∧
  ∀ j v, (j < k)%nat → a !! j = Some v → p v = false.
Proof.
  revert k. induction a as [|x a IH]; intros k; [done|].
  simpl. destruct (p x) eqn:Hx.
  - intros [= <-]. split; [by exists x|]. intros j v Hj. lia.
  - destruct (first_index p a) as [k'|]; [|done].
    intros [= <-]. destruct (IH k' eq_refl) as [Hk Hbefore].
    split; [done|]. intros [|j] v Hj Hv.
    + by inversion Hv; subst.
    + apply (Hbefore j); [lia|done].
Qed.

Lemma first_index_None {A} (p : A → bool) (a : list A) :
  first_index p a = None → Forall (λ v, p v = false) a.
Proof.
  induction a as [|x a IH]; [constructor|].
  simpl. destruct (p x) eqn:Hx; [done|].
  destruct (first_index p a); [done|]. intros _. constructor; auto.
Qed.

(** ** SlottedA_length *)

Lemma np_set_item_Return {A} (a : list A) (i : Z) (x : A) (a' : list A) :
  (0 <= i)%Z → np_set_item a i x = Return a' →
  (i < Z.of_nat (length a))%Z ∧ a' = <[Z.to_nat i := x]> a.
Proof.
  intros Hi. unfold np_set_item.
  replace (i <? 0)%Z with false by (symmetry; apply Z.ltb_ge; lia).
  destruct (0 <=? i)%Z; simpl; [|discriminate].
  destruct (i <? Z.of_nat (length a))%Z eqn:Hlt; [|discriminate].
  apply Z.ltb_lt in Hlt. intros [= <-]. done.
Qed.

Lemma np_set_item_in_range {A} (a : list A) (i : Z) (x : A) :
  (0 <= i < Z.of_nat (length a))%Z →
  np_set_item a i x = Return (<[Z.to_nat i := x]> a).
Proof.
  intros Hi. unfold np_set_item.
  replace (i <? 0)%Z with false by (symmetry; apply Z.ltb_ge; lia).
  replace (0 <=? i)%Z with true by (symmetry; apply Z.leb_le; lia).
  replace (i <? Z.of_nat (length a))%Z with true by (symmetry; apply Z.ltb_lt; lia).
  done.
Qed.

Lemma trim_back_zeros (found : list Z) (z : nat) :
  Forall (λ k, k ≠ 0%Z) found →
  trim_back (Z.eqb 0) (found ++ replicate z 0%Z) = found.
Proof.
  intros Hnz. unfold trim_back.
  rewrite reverse_app, reverse_replicate.
  assert (Hz : ∀ l, trim_front (Z.eqb 0) (replicate z 0%Z ++ l) = trim_front (Z.eqb 0) l).
  { intros l. induction z as [|z IH]; [done|]. simpl. exact IH. }
  rewrite Hz.
  destruct (reverse found) as [|k l] eqn:Hrev.
  - simpl. apply (f_equal reverse) in Hrev. by rewrite reverse_involutive in Hrev.
  - assert (Hk : k ≠ 0%Z).
    { rewrite Forall_forall in Hnz. apply Hnz.
      apply elem_of_reverse. rewrite Hrev. left. }
    simpl. destruct k; [done| |];
      first [apply reverse_involutive | rewrite <- Hrev; apply reverse_involutive].
Qed.

Section SlottedA_length_facts.
Import SlottedA_length.

Variable np_mean : list F64.t → F64.t.
Variable np_sort : list F64.t → list F64.t.

Let slotted_autocorrelation := SlottedA_length.slotted_autocorrelation np_mean.
Let start_conditions := SlottedA_length.start_conditions np_mean np_sort.
Let round := SlottedA_length.round np_mean.
Let widen := SlottedA_length.widen np_mean.
Let fit := SlottedA_length.fit np_mean np_sort.
Let state_after := SlottedA_length.state_after np_mean.
Let in_hand := SlottedA_length.in_hand np_mean.

Lemma doubling_rounds_S (K : Z) (m : nat) :
  doubling_rounds K (S m) = ((K + K)%Z, K) :: doubling_rounds (K + K) m.
Proof.
  unfold doubling_rounds. simpl. f_equal.
  - f_equal; lia.
  - rewrite <- fmap_S_seq, <- list_fmap_compose. apply list_fmap_ext.
    intros _ i _. simpl. f_equal.
    + rewrite Nat2Z.inj_succ, (Z.pow_add_r 2 (Z.succ _) 1), (Z.pow_add_r 2 _ 1) by lia.
      rewrite Z.pow_succ_r by lia. lia.
    + rewrite Nat2Z.inj_succ, Z.pow_succ_r by lia. lia.
Qed.

Lemma budget_S (K : Z) (i : nat) :
  (K * 2 ^ Z.of_nat (S i) = (K + K) * 2 ^ Z.of_nat i)%Z.
Proof. rewrite Nat2Z.inj_succ, Z.pow_succ_r by lia. lia. Qed.

Lemma budget_next (K : Z) (i : nat) :
  (K * 2 ^ (Z.of_nat i + 1) = K * 2 ^ Z.of_nat (S i))%Z.
Proof. f_equal. f_equal. lia. Qed.

Lemma widen_found (fuel : nat) (magnitude time : list F64.t) (T : F64.t)
    (st : search) (rounds : list (Z * Z)) :
  is_Some (s_k st) →
  widen fuel magnitude time T st rounds = Done (Return st, rounds).
Proof. intros [k Hk]. subst widen. destruct fuel; simpl; by rewrite Hk. Qed.

Lemma widen_step (fuel : nat) (magnitude time : list F64.t) (T sp : F64.t)
    (st : search) (rounds : list (Z * Z)) :
  s_k st = None →
  span time = Return sp →
  widen (S fuel) magnitude time T st rounds =
  let K := (sK st + sK st)%Z in
  if exceeds sp T K
  then Done (Return {| sK := K; s_slots := s_slots st; s_k := None |}, rounds)
  else match round magnitude time T K with
       | Raise e => Done (Raise e, rounds ++ [(K, (K / 2)%Z)])
       | Return (slots, SAC2) =>
           widen fuel magnitude time T
             {| sK := K; s_slots := slots; s_k := first_below SAC2 |}
             (rounds ++ [(K, (K / 2)%Z)])
       end.
Proof. intros Hk Hsp. subst widen round. simpl. by rewrite Hk, Hsp. Qed.

Lemma state_after_S (magnitude time : list F64.t) (T : F64.t) (st st' : search)
    (slots : list Z) (SAC2 : list F64.t) (i : nat) :
  round magnitude time T (sK st + sK st) = Return (slots, SAC2) →
  st' = {| sK := sK st + sK st; s_slots := slots; s_k := first_below SAC2 |} →
  state_after magnitude time T st (S i) = state_after magnitude time T st' i.
Proof.
  intros Hround ->. subst state_after round. unfold SlottedA_length.state_after.
  destruct i as [|i].
  - cbv zeta. replace (sK st * 2 ^ Z.of_nat 1)%Z with (sK st + sK st)%Z by lia.
    by rewrite Hround.
  - cbv zeta. cbn [sK]. by rewrite (budget_S (sK st) (S i)).
Qed.

(** The loop run from the state [st], when the budget doubled [n + 1] times
    is above the quotient: it leaves after [m <= n] rounds, each with a
    budget not above the quotient and, but for the last, with no crossing
    found; and the state it leaves with is the one the last round produced
    (with the budget doubled once more when that round found no crossing). *)
Lemma widen_run (magnitude time : list F64.t) (T sp : F64.t) :
  span time = Return sp →
  ∀ n st rounds,
    (0 < sK st)%Z →
    exceeds sp T (sK st * 2 ^ Z.of_nat (S n)) = true →
    ∃ m wout,
      (m ≤ n)%nat ∧
      (∀ fuel, (S n ≤ fuel)%nat →
         widen fuel magnitude time T st rounds
         = Done (wout, rounds ++ doubling_rounds (sK st) m)) ∧
      (∀ i, (i < m)%nat →
         exceeds sp T (sK st * 2 ^ Z.of_nat (S i)) = false ∧
         ∃ st_i, state_after magnitude time T st i = Return st_i ∧ s_k st_i = None) ∧
      match state_after magnitude time T st m with
      | Raise e => wout = Raise e
      | Return st_m =>
          match s_k st_m with
          | Some _ => wout = Return st_m
          | None =>
              exceeds sp T (sK st * 2 ^ Z.of_nat (S m)) = true ∧
              wout = Return {| sK := sK st * 2 ^ Z.of_nat (S m);
                               s_slots := s_slots st_m; s_k := None |}
          end
      end.
Proof.
  intros Hspan. induction n as [|n IH]; intros st rounds HK Hbound.
  - (* the next budget is above the quotient *)
    exists 0%nat. destruct (s_k st) as [k|] eqn:Hk.
    + exists (Return st). split; [lia|]. split; [|split].
      * intros fuel _. rewrite app_nil_r. apply widen_found. by rewrite Hk.
      * intros i Hi. lia.
      * cbn. by rewrite Hk.
    + exists (Return {| sK := sK st * 2 ^ Z.of_nat 1; s_slots := s_slots st; s_k := None |}).
      split; [lia|]. split; [|split].
      * intros [|fuel] Hfuel; [lia|]. rewrite (widen_step _ _ _ _ sp) by done.
        cbv zeta. replace (sK st + sK st)%Z with (sK st * 2 ^ Z.of_nat 1)%Z by lia.
        rewrite Hbound. by rewrite app_nil_r.
      * intros i Hi. lia.
      * cbn -[Z.pow Z.mul Z.of_nat]. rewrite Hk. done.
  - destruct (s_k st) as [k|] eqn:Hk.
    { exists 0%nat, (Return st). split; [lia|]. split; [|split].
      * intros fuel _. rewrite app_nil_r. apply widen_found. by rewrite Hk.
      * intros i Hi. lia.
      * cbn. by rewrite Hk. }
    destruct (exceeds sp T (sK st + sK st)) eqn:Hex.
    { exists 0%nat,
        (Return {| sK := sK st * 2 ^ Z.of_nat 1; s_slots := s_slots st; s_k := None |}).
      replace (sK st * 2 ^ Z.of_nat 1)%Z with (sK st + sK st)%Z by lia.
      split; [lia|]. split; [|split].
      * intros [|fuel] Hfuel; [lia|]. rewrite (widen_step _ _ _ _ sp) by done.
        cbv zeta. rewrite Hex. by rewrite app_nil_r.
      * intros i Hi. lia.
      * cbn -[Z.pow Z.mul Z.of_nat]. rewrite Hk.
        replace (sK st * 2 ^ Z.of_nat 1)%Z with (sK st + sK st)%Z by lia. done. }
    assert (Hhalf : ((sK st + sK st) / 2 = sK st)%Z)
      by (symmetry; apply Z.div_unique_exact; lia).
    destruct (round magnitude time T (sK st + sK st)) as [[slots SAC2]|e] eqn:Hround.
    + set (st' := {| sK := sK st + sK st; s_slots := slots; s_k := first_below SAC2 |}).
      destruct (IH st' (rounds ++ [((sK st + sK st)%Z, sK st)]))
        as (m & wout & Hm & Hrun & Hbefore & Hexit).
      { simpl. lia. }
      { simpl. by rewrite <- budget_S. }
      exists (S m), wout. split; [lia|]. split; [|split].
      * intros [|fuel] Hfuel; [lia|]. rewrite (widen_step _ _ _ _ sp) by done.
        cbv zeta. rewrite Hex, Hround, Hhalf. fold st'.
        rewrite Hrun by lia. simpl. by rewrite doubling_rounds_S, <- app_assoc.
      * intros [|i] Hi.
        -- split.
           ++ replace (sK st * 2 ^ Z.of_nat 1)%Z with (sK st + sK st)%Z by lia. done.
           ++ exists st. by split.
        -- destruct (Hbefore i) as [Hnot (st_i & Hst_i & Hnone)]; [lia|].
           split.
           ++ rewrite budget_S. exact Hnot.
           ++ exists st_i. split; [|done].
              by rewrite (state_after_S _ _ _ st st' slots SAC2 i).
      * rewrite (state_after_S _ _ _ st st' slots SAC2 m) by done.
        destruct (state_after magnitude time T st' m) as [st_m|e]; [|done].
        destruct (s_k st_m); [done|].
        by rewrite (budget_S (sK st) (S m)).
    + exists 1%nat, (Raise e). split; [lia|]. split; [|split].
      * intros [|fuel] Hfuel; [lia|]. rewrite (widen_step _ _ _ _ sp) by done.
        cbv zeta. rewrite Hex, Hround, Hhalf.
        by rewrite doubling_rounds_S.
      * intros [|i] Hi; [|lia]. split.
        -- replace (sK st * 2 ^ Z.of_nat 1)%Z with (sK st + sK st)%Z by lia. done.
        -- exists st. by split.
      * subst state_after. unfold SlottedA_length.state_after. cbv zeta.
        replace (sK st * 2 ^ Z.of_nat 1)%Z with (sK st + sK st)%Z by lia.
        subst round. by rewrite Hround.
Qed.

Lemma start_conditions_budget (magnitude time : list F64.t) (T0 : option F64.t)
    (T : F64.t) (K : Z) (slots : list Z) (SAC2 : list F64.t) :
  start_conditions magnitude time T0 = Return (T, K, slots, SAC2) → K = 100%Z.
Proof.
  subst start_conditions. unfold SlottedA_length.start_conditions. intros H.
  apply bind_Return_inv in H as (T' & _ & H).
  apply bind_Return_inv in H as ([SAC sl] & _ & H).
  apply bind_Return_inv in H as (S2 & _ & H).
  by inversion H.
Qed.


End SlottedA_length_facts.

(** *** A slot width so small that no budget is above the quotient *)

Section SlottedA_length_unbounded.
Import SlottedA_length.

Variable np_mean : list F64.t → F64.t.

Lemma omap_imap_None {A B} (h : nat → A → option B) (row : list A) :
  (∀ j v, row !! j = Some v → h j v = None) → omap id (imap h row) = [].
Proof.
  revert h. induction row as [|v row IH]; intros h Hh; [done|].
  rewrite imap_cons. cbn [omap]. rewrite (Hh 0%nat v eq_refl). cbn.
  apply IH. intros j w Hw. apply (Hh (S j)). exact Hw.
Qed.

Lemma where_none {B} (g : nat → nat → B) (ks : list (list Z)) (k : Z) :
  Forall (Forall (λ v, (v < 0)%Z)) ks → (0 <= k)%Z →
  concat (imap (λ i row, omap id (imap (λ j v, if (v =? k)%Z then Some (g i j) else None)
                                    row)) ks) = [].
Proof.
  intros Hks Hk. revert g.
  induction Hks as [|row ks Hrow _ IH]; intros g; [done|].
  rewrite imap_cons. cbn [concat].
  rewrite omap_imap_None.
  - simpl. apply (IH (λ i j, g (S i) j)).
  - intros j v Hv. rewrite Forall_forall in Hrow.
    assert (v < 0)%Z by (apply Hrow; eapply list_elem_of_lookup_2; exact Hv).
    replace (v =? k)%Z with false by (symmetry; apply Z.eqb_neq; lia). done.
Qed.

(** No pair falls in a slot [k >= 0] when every slot index is negative. *)
Lemma where_eq_negative (ks : list (list Z)) (k : Z) :
  Forall (Forall (λ v, (v < 0)%Z)) ks → (0 <= k)%Z → where_eq ks k = [].
Proof. intros Hks Hk. unfold where_eq. by apply (where_none (λ i j, (Z.of_nat i, Z.of_nat j))). Qed.

(** With no pair in any slot of [l], the loop over [l] records no slot. *)
Lemma slot_fold_empty (data : list F64.t) (ks : list (list Z)) (off : Z) (l : list Z) :
  ∀ prod slots i,
    Forall (λ k, where_eq ks k = [] ∧ (0 <= k < Z.of_nat (length prod))%Z) l →
    ∃ prod', foldl (slot_step data ks off) (Return (prod, slots, i)) l
             = Return (prod', slots, i) ∧
             length prod' = length prod.
Proof.
  induction l as [|k l IH]; intros prod slots i Hl; [by exists prod|].
  inversion Hl as [|? ? [Hnone Hk] Hl']; subst.
  cbn [foldl]. unfold slot_step at 2. cbn [mbind result_bind].
  rewrite Hnone. cbn [length]. rewrite bool_decide_false by (intros H; by apply H).
  rewrite np_set_item_in_range by done. cbn [mbind result_bind].
  destruct (IH (<[Z.to_nat k := PrimFloat.infinity]> prod) slots i) as (prod' & Hfold & Hlen).
  - eapply Forall_impl; [exact Hl'|]. intros k' [? ?]. by rewrite length_insert.
  - exists prod'. split; [exact Hfold|]. by rewrite Hlen, length_insert.
Qed.

(** A second round on a light curve whose slot indices are all negative
    returns no slot, whatever the budget. *)
Lemma round_no_slot (magnitude time : list F64.t) (T tmin : F64.t) (K : Z) :
  F64.np_min time = Return tmin →
  Forall (Forall (λ v, (v < 0)%Z))
    (slot_indices (map (λ t, PrimFloat.sub t tmin) time) T) →
  magnitude ≠ [] →
  (0 < K)%Z →
  SlottedA_length.round np_mean magnitude time T K = Return ([], []).
Proof.
  intros Hmin Hks Hmag HK.
  unfold SlottedA_length.round, SlottedA_length.slotted_autocorrelation.
  rewrite Hmin. cbn [mbind result_bind]. cbv zeta.
  set (ks := slot_indices _ T) in *.
  set (data := map _ magnitude).
  assert (Hdata : length data ≠ 0%nat).
  { subst data. rewrite length_map. by destruct magnitude. }
  unfold slot_zero. rewrite (where_eq_negative ks 0) by (done || lia).
  cbn [products fmap list_fmap np_take mapM mbind result_bind zip_with mret result_ret length].
  rewrite bool_decide_false by (cbn; lia).
  cbn [mbind result_bind].
  rewrite !np_set_item_in_range
    by (unfold F64.zeros; rewrite length_replicate; lia).
  cbn [mbind result_bind negb].
  rewrite insert_replicate.
  match goal with
  | |- context [foldl (slot_step data ks 1) (Return (?prod, ?slots, ?i)) ?l] =>
      destruct (slot_fold_empty data ks 1 l prod slots i) as (prod' & -> & Hlen)
  end.
  { apply Forall_forall. intros k Hk. unfold np_arange in Hk.
    apply elem_of_seqZ in Hk. split.
    - apply where_eq_negative; [done|].
      assert (0 <= K / 2)%Z by (apply Z.div_pos; lia). lia.
    - rewrite length_insert. unfold F64.zeros. rewrite length_replicate.
      assert (0 <= K / 2)%Z by (apply Z.div_pos; lia). lia. }
  cbn [mbind result_bind].
  pose proof (trim_back_zeros [] (Z.to_nat K) (Forall_nil_2 _)) as Htrim.
  cbn [app] in Htrim.
  assert (Hp0 : ∃ p0, np_index prod' 0 = Return p0).
  { rewrite length_insert in Hlen. unfold F64.zeros in Hlen.
    rewrite length_replicate in Hlen.
    destruct prod' as [|p0 prod']; [simpl in Hlen; lia|]. by exists p0. }
  destruct Hp0 as (p0 & ->). cbn [mbind result_bind]. by rewrite Htrim.
Qed.

(** The loop never ends when no round finds a slot and no budget is above
    the quotient. *)
Lemma widen_unbounded (magnitude time : list F64.t) (T sp : F64.t) :
  span time = Return sp →
  (∀ K, exceeds sp T K = false) →
  (∀ K, (0 < K)%Z → SlottedA_length.round np_mean magnitude time T K = Return ([], [])) →
  ∀ fuel st rounds,
    s_k st = None → (0 < sK st)%Z →
    SlottedA_length.widen np_mean fuel magnitude time T st rounds = OutOfFuel.
Proof.
  intros Hspan Hex Hround. induction fuel as [|fuel IH]; intros st rounds Hk HK.
  - cbn [SlottedA_length.widen]. by rewrite Hk.
  - rewrite (widen_step np_mean _ _ _ _ sp) by done.
    cbv zeta. rewrite Hex, Hround by lia.
    apply IH; cbn [s_k sK]; [done|lia].
Qed.

End SlottedA_length_unbounded.

Section SlottedA_length_examples.
Import PrimFloat.



End SlottedA_length_examples.

(** * Further properties of the framework *)

(** ** The registry *)

Lemma registry_update_dom (c : extractor_class) (fs : list string) (reg : registry) :
  dom (registry_update c fs reg) = dom reg ∪ list_to_set fs.
Proof.
  apply set_eq. intros f. rewrite elem_of_dom, registry_update_lookup.
  rewrite elem_of_union, elem_of_dom, elem_of_list_to_set.
  case_bool_decide as Hfs; split; intros Hx; eauto.
  destruct Hx as [Hx|Hx]; done.
Qed.

(** X1. A successful registration adds the features of the class to the
    available features and leaves every other feature with the extractor it
    had. *)
Theorem register_extractor_frame (c r : extractor_class) (reg reg' : registry) :
  register_extractor (PyClass c) reg = (Return r, reg') →
  available_features reg' = available_features reg ∪ ExtractorConf.features (_conf c) ∧
  ∀ f, f ∉ ExtractorConf.features (_conf c) → extractor_of f reg' = extractor_of f reg.
Proof.
  intros (-> & _ & ->)%register_extractor_Return. split.
  - unfold available_features. rewrite registry_update_dom.
    by rewrite list_to_set_elements_L.
  - intros f Hf. unfold extractor_of. rewrite registry_update_lookup.
    rewrite bool_decide_eq_false_2; [done|]. by rewrite elem_of_elements.
Qed.

Lemma register_extractor_frame_witness :
  extractor_of "Mean" (snd (register_extractor (PyClass Color.cls) ∅))
  = extractor_of "Mean" ∅.
Proof.
  edestruct (register_extractor_frame Color.cls Color.cls ∅) as [_ H].
  - reflexivity.
  - apply H. vm_compute. set_solver.
Defined.

(** X2. Nothing keeps a feature name to one extractor: when two classes that
    produce the same feature are registered one after the other, the second
    registration succeeds and the feature resolves to the second class. *)
Theorem register_extractor_overrides (c1 c2 r1 : extractor_class)
    (reg reg1 : registry) (f : string) :
  register_extractor (PyClass c1) reg = (Return r1, reg1) →
  ExtractorConf.dependencies (_conf c2) ⊆ dom reg1 →
  f ∈ ExtractorConf.features (_conf c1) →
  f ∈ ExtractorConf.features (_conf c2) →
  extractor_of f reg1 = Return c1 ∧
  ∃ r2 reg2, register_extractor (PyClass c2) reg1 = (Return r2, reg2) ∧
             extractor_of f reg2 = Return c2.
Proof.
  intros (-> & _ & ->)%register_extractor_Return Hdeps Hf1 Hf2.
  assert (Hlook : ∀ (c : extractor_class) (m : registry),
            f ∈ ExtractorConf.features (_conf c) →
            extractor_of f (registry_update c
              (elements (ExtractorConf.features (_conf c))) m) = Return c).
  { intros c m Hf. unfold extractor_of. rewrite registry_update_lookup.
    rewrite bool_decide_eq_true_2; [done|]. by apply elem_of_elements. }
  split; [by apply Hlook|].
  unfold register_extractor.
  destruct (filter _ _) as [|d l] eqn:Hflt.
  - eexists _, _. split; [reflexivity|]. by apply Hlook.
  - exfalso.
    assert (Hin : d ∈ d :: l) by left. rewrite <- Hflt in Hin.
    apply list_elem_of_filter in Hin as [Hn Hd%elem_of_elements].
    apply Hn, Hdeps, Hd.
Qed.

Lemma register_extractor_overrides_witness :
  ∃ r2 reg2,
    register_extractor (PyClass MoreExamples.ColorIndex)
      (snd (register_extractor (PyClass Color.cls) ∅)) = (Return r2, reg2) ∧
    extractor_of "Color" reg2 = Return MoreExamples.ColorIndex.
Proof.
  edestruct (register_extractor_overrides Color.cls MoreExamples.ColorIndex Color.cls ∅
               (snd (register_extractor (PyClass Color.cls) ∅)) "Color")
    as [_ H].
  - reflexivity.
  - vm_compute. set_solver.
  - vm_compute. set_solver.
  - vm_compute. set_solver.
  - exact H.
Defined.

(** X3. [is_registered] on a class reports each of its features, and only
    those, with whether the feature is currently available; right after the
    class has been registered successfully every one of them is reported as
    registered. *)
Theorem is_registered_after_register (c r : extractor_class) (reg reg' : registry) :
  register_extractor (PyClass c) reg = (Return r, reg') →
  ∃ m m', is_registered (PyClass c) reg = Return m ∧
          is_registered (PyClass c) reg' = Return m' ∧
          dom m = ExtractorConf.features (_conf c) ∧
          dom m' = ExtractorConf.features (_conf c) ∧
          (∀ f, f ∈ ExtractorConf.features (_conf c) →
                m !! f = Some (bool_decide (f ∈ available_features reg)) ∧
                m' !! f = Some true).
Proof.
  intros (-> & _ & ->)%register_extractor_Return.
  assert (Hlook : ∀ (m : registry) f b,
            (set_to_map (λ f, (f, bool_decide (f ∈ dom m)))
               (ExtractorConf.features (_conf c)) : gmap string bool) !! f = Some b
            ↔ f ∈ ExtractorConf.features (_conf c) ∧ b = bool_decide (f ∈ dom m)).
  { intros m f b. rewrite lookup_set_to_map; [|by intros ?? _ _ [=]].
    split.
    - intros (z & Hz & [= -> ->]). done.
    - intros [Hf ->]. by exists f. }
  assert (Hdom : ∀ m : registry,
            dom (set_to_map (λ f, (f, bool_decide (f ∈ dom m)))
                   (ExtractorConf.features (_conf c)) : gmap string bool)
            = ExtractorConf.features (_conf c)).
  { intros m. apply set_eq. intros f. rewrite elem_of_dom. split.
    - intros [b Hb]. by apply Hlook in Hb as [? _].
    - intros Hf. eexists. by apply Hlook. }
  eexists _, _. split; [reflexivity|]. split; [reflexivity|].
  split; [apply Hdom|]. split; [apply Hdom|].
  intros f Hf. split.
  - by apply Hlook.
  - apply Hlook. split; [done|]. symmetry. apply bool_decide_eq_true_2.
    rewrite registry_update_dom, list_to_set_elements_L. set_solver.
Qed.

Lemma is_registered_after_register_witness :
  ∃ m', is_registered (PyClass Color.cls) (snd (register_extractor (PyClass Color.cls) ∅))
        = Return m' ∧ m' !! "Color" = Some true.
Proof.
  edestruct (is_registered_after_register Color.cls Color.cls ∅)
    as (m & m' & _ & Hm' & _ & _ & H).
  - reflexivity.
  - exists m'. split; [exact Hm'|]. apply H. vm_compute. set_solver.
Defined.

(** ** Registering a list of classes *)

Lemma features_of_cons (c : extractor_class) (classes : list extractor_class) :
  features_of (c :: classes) = ExtractorConf.features (_conf c) ∪ features_of classes.
Proof. reflexivity. Qed.

(** X4. The loop that registers the built-in classes succeeds whenever each
    class depends only on features already in the registry or produced by a
    class earlier in the list (in particular when no class has a
    dependency).  Afterwards the available features are the earlier ones
    plus every feature of every class, and each feature of the list resolves
    to a class of the list that produces it. *)
Theorem register_all_in_order (classes : list extractor_class) (reg : registry) :
  (∀ pre c post, classes = pre ++ c :: post →
     ExtractorConf.dependencies (_conf c) ⊆ dom reg ∪ features_of pre) →
  ∃ reg', register_all classes reg = (Return (), reg') ∧
          available_features reg' = available_features reg ∪ features_of classes ∧
          (∀ f, f ∈ features_of classes →
             ∃ c, c ∈ classes ∧ f ∈ ExtractorConf.features (_conf c) ∧
                  extractor_of f reg' = Return c) ∧
          (∀ f, f ∉ features_of classes → extractor_of f reg' = extractor_of f reg).
Proof.
  revert reg. induction classes as [|c classes IH]; intros reg Hord.
  - exists reg. split; [done|]. unfold features_of, available_features. simpl.
    split; [set_solver|]. split; [set_solver|done].
  - assert (Hc : ExtractorConf.dependencies (_conf c) ⊆ dom reg).
    { specialize (Hord [] c classes eq_refl). unfold features_of in Hord.
      simpl in Hord. set_solver. }
    destruct (register_extractor (PyClass c) reg) as [[r|e] reg1] eqn:Hreg.
    2:{ exfalso. unfold register_extractor in Hreg.
        destruct (filter _ _) as [|d l] eqn:Hflt; [discriminate|].
        assert (Hin : d ∈ d :: l) by left. rewrite <- Hflt in Hin.
        apply list_elem_of_filter in Hin as [Hn Hd%elem_of_elements].
        apply Hn, Hc, Hd. }
    pose proof (register_extractor_frame _ _ _ _ Hreg) as [Hav Hframe].
    pose proof Hreg as (-> & _ & Hreg1)%register_extractor_Return.
    destruct (IH reg1) as (reg' & Hall & Hav' & Hin & Hout).
    { intros pre c' post ->.
      specialize (Hord (c :: pre) c' post eq_refl).
      rewrite features_of_cons in Hord.
      unfold available_features in Hav. rewrite Hav. set_solver. }
    exists reg'. cbn [register_all]. rewrite Hreg. split; [done|].
    rewrite features_of_cons. split; [|split].
    + rewrite Hav', Hav. set_solver.
    + intros f Hf.
      destruct (decide (f ∈ features_of classes)) as [Hcl|Hncl].
      * destruct (Hin f Hcl) as (c' & Hc' & Hfc' & Hlook).
        exists c'. split; [by right|done].
      * exists c. split; [left|]. split; [set_solver|].
        rewrite (Hout f Hncl). rewrite Hreg1. unfold extractor_of.
        rewrite registry_update_lookup, bool_decide_eq_true_2; [done|].
        apply elem_of_elements. set_solver.
    + intros f Hf. rewrite Hout by set_solver. apply Hframe. set_solver.
Qed.

Lemma register_all_in_order_witness :
  ∃ reg', register_all [MoreExamples.Mean; Examples.Centered; Color.cls] ∅
          = (Return (), reg') ∧
          available_features reg' = {[ "Mean"; "Centered"; "Color" ]}.
Proof.
  edestruct (register_all_in_order
               [MoreExamples.Mean; Examples.Centered; Color.cls] ∅)
    as (reg' & Hall & Hav & _).
  - intros pre c post Heq.
    destruct pre as [|c0 [|c1 [|c2 [|c3 pre]]]]; simplify_eq/=; vm_compute; set_solver.
  - exists reg'. split; [exact Hall|]. rewrite Hav. vm_compute. reflexivity.
Defined.

Lemma register_all_app (pre rest : list extractor_class) (reg : registry) :
  register_all (pre ++ rest) reg =
    match register_all pre reg with
    | (Return _, reg1) => register_all rest reg1
    | (Raise e, reg1) => (Raise e, reg1)
    end.
Proof.
  revert reg. induction pre as [|c pre IH]; intros reg; [done|].
  cbn [app register_all].
  destruct (register_extractor (PyClass c) reg) as [[r|e] reg1]; [apply IH|done].
Qed.

(** X5. The registering loop is not all-or-nothing: when the classes before
    some class register and that class has a dependency that is still
    missing, the loop raises [FeatureNotFound] there, the classes after it
    are not registered, and the registry is left with the registrations of
    the classes before it. *)
Theorem register_all_stops_at_failure (pre post : list extractor_class)
    (c : extractor_class) (reg reg1 : registry) (d : string) :
  register_all pre reg = (Return (), reg1) →
  d ∈ ExtractorConf.dependencies (_conf c) →
  d ∉ dom reg1 →
  ∃ msg, register_all (pre ++ c :: post) reg = (Raise (FeatureNotFound msg), reg1).
Proof.
  intros Hpre Hd Hn. rewrite register_all_app, Hpre. cbn [register_all].
  unfold register_extractor.
  destruct (filter _ _) as [|d' l] eqn:Hflt.
  - exfalso.
    assert (Hin : d ∈ filter (λ d, d ∉ dom reg1)
                    (elements (ExtractorConf.dependencies (_conf c)))).
    { apply list_elem_of_filter. split; [done|]. by apply elem_of_elements. }
    rewrite Hflt in Hin. by apply elem_of_nil in Hin.
  - eexists. reflexivity.
Qed.

Lemma register_all_stops_at_failure_witness :
  ∃ msg reg1,
    register_all [Color.cls; Examples.Centered; MoreExamples.Mean] ∅
    = (Raise (FeatureNotFound msg), reg1) ∧
    available_features reg1 = {[ "Color" ]}.
Proof.
  edestruct (register_all_stops_at_failure [Color.cls] [MoreExamples.Mean]
               Examples.Centered ∅ (snd (register_all [Color.cls] ∅)) "Mean")
    as (msg & H).
  - reflexivity.
  - vm_compute. set_solver.
  - vm_compute. set_solver.
  - exists msg, (snd (register_all [Color.cls] ∅)). split; [exact H|].
    vm_compute. reflexivity.
Defined.

(** ** The metaclass *)

Lemma for_each_Forall {A} (check : A → result unit) (xs : list A) :
  Forall (λ x, check x = Return ()) xs → for_each check xs = Return ().
Proof.
  induction 1 as [|x xs Hx _ IH]; [done|]. simpl. rewrite Hx. exact IH.
Qed.

Lemma for_each_guard {A} (p : A → bool) (e : exn) (xs : list A) :
  for_each (λ x, if p x then Return () else Raise e) xs
  = if forallb p xs then Return () else Raise e.
Proof.
  induction xs as [|x xs IH]; [done|]. simpl. destruct (p x); [exact IH|done].
Qed.

(** X6. [ExtractorMeta] accepts a class statement exactly when: [data] is
    defined, non-empty, made of channel names, without duplicates;
    [features] is defined, non-empty, made of strings that are not channel
    names, without duplicates; [fit] is redefined; every dependency is a
    string; and every parameter name is a string that is not a channel
    name. *)
Theorem ExtractorMeta_new_accepts (d : class_decl) :
  (∃ c, ExtractorMeta_new d = Return c) ↔
  ∃ data feats fit,
    decl_data d = Some data ∧ data ≠ [] ∧
    Forall (λ v, ∃ s, v = VStr s ∧ s ∈ DATAS) data ∧ NoDup (strings_of data) ∧
    decl_features d = Some feats ∧ feats ≠ [] ∧
    Forall (λ v, ∃ s, v = VStr s ∧ s ∉ DATAS) feats ∧ NoDup (strings_of feats) ∧
    decl_fit d = Some fit ∧
    Forall (λ v, ∃ s, v = VStr s) (default [] (decl_dependencies d)) ∧
    Forall (λ pd, ∃ s, fst pd = VStr s ∧ s ∉ DATAS) (default [] (decl_params d)).
Proof.
  split.
  - intros [c H]. unfold ExtractorMeta_new, raise_ExtractorError in H.
    destruct (decl_data d) as [data|]; simpl in H; [|discriminate].
    case_bool_decide as Hd; simpl in H; [discriminate|].
    destruct (for_each _ data) as [[]|] eqn:Hfd; simpl in H; [|discriminate].
    destruct (has_dup (strings_of data)) eqn:Hdd; simpl in H; [discriminate|].
    destruct (decl_features d) as [feats|]; simpl in H; [|discriminate].
    case_bool_decide as Hf; simpl in H; [discriminate|].
    destruct (for_each _ feats) as [[]|] eqn:Hff; simpl in H; [|discriminate].
    destruct (has_dup (strings_of feats)) eqn:Hdf; simpl in H; [discriminate|].
    destruct (decl_fit d) as [fit|]; simpl in H; [|discriminate].
    destruct (for_each _ (default [] (decl_dependencies d))) as [[]|] eqn:Hfdep;
      simpl in H; [|discriminate].
    destruct (for_each _ (default [] (decl_params d))) as [[]|] eqn:Hfp;
      simpl in H; [|discriminate].
    exists data, feats, fit. repeat split; auto.
    + apply for_each_Return in Hfd. eapply Forall_impl; [exact Hfd|].
      intros v Hv. simpl in Hv. destruct (in_DATAS v) eqn:Hin; [|discriminate].
      by apply in_DATAS_string.
    + unfold has_dup in Hdd. by apply negb_false_iff, bool_decide_eq_true in Hdd.
    + apply for_each_Return in Hff. eapply Forall_impl; [exact Hff|].
      intros v Hv. simpl in Hv. destruct v; try discriminate.
      exists s. split; [done|]. simpl in Hv. case_bool_decide; [discriminate|done].
    + unfold has_dup in Hdf. by apply negb_false_iff, bool_decide_eq_true in Hdf.
    + apply for_each_Return in Hfdep. eapply Forall_impl; [exact Hfdep|].
      intros v Hv. simpl in Hv. destruct v; try discriminate. by eexists.
    + apply for_each_Return in Hfp. eapply Forall_impl; [exact Hfp|].
      intros [v x] Hv. simpl in Hv. destruct v; try discriminate.
      exists s. split; [done|]. simpl in Hv. case_bool_decide; [discriminate|done].
  - intros (data & feats & fit & Hdata & Hne & Hall & Hnd & Hfeats & Hfne & Hfall & Hfnd
              & Hfit & Hdeps & Hps).
    unfold ExtractorMeta_new, raise_ExtractorError.
    rewrite Hdata, Hfeats, Hfit. simpl.
    rewrite (bool_decide_eq_false_2 (data = [])) by done. simpl.
    rewrite (for_each_Forall _ data); simpl.
    2:{ eapply Forall_impl; [exact Hall|]. intros v (s & -> & Hs). simpl.
        by rewrite bool_decide_eq_true_2. }
    unfold has_dup. rewrite (bool_decide_eq_true_2 (NoDup (strings_of data))) by done.
    simpl. rewrite (bool_decide_eq_false_2 (feats = [])) by done. simpl.
    rewrite (for_each_Forall _ feats); simpl.
    2:{ eapply Forall_impl; [exact Hfall|]. intros v (s & -> & Hs). simpl.
        by rewrite bool_decide_eq_false_2. }
    rewrite (bool_decide_eq_true_2 (NoDup (strings_of feats))) by done. simpl.
    rewrite (for_each_Forall _ (default [] (decl_dependencies d))); simpl.
    2:{ eapply Forall_impl; [exact Hdeps|]. by intros v (s & ->). }
    rewrite (for_each_Forall _ (default [] (decl_params d))); simpl.
    2:{ eapply Forall_impl; [exact Hps|]. intros [v x] (s & Hv & Hs). simpl in *.
        subst v. simpl. by rewrite bool_decide_eq_false_2. }
    eexists. reflexivity.
Qed.

(** X7. The module raises its definition errors through the name
    [ExtractorError], which it never binds.  So a class statement whose
    [data] is missing, empty, holds something that is not a channel name, or
    holds a duplicate is rejected with [NameError], before anything else of
    the statement is looked at. *)
Theorem ExtractorMeta_new_bad_data (d : class_decl) :
  (decl_data d = None ∨ decl_data d = Some [] ∨
   ∃ data, decl_data d = Some data ∧
           (Exists (λ v, in_DATAS v = false) data ∨ ¬ NoDup (strings_of data))) →
  ExtractorMeta_new d = Raise (NameError "ExtractorError").
Proof.
  unfold ExtractorMeta_new, raise_ExtractorError.
  intros [->|[->|(data & -> & Hbad)]]; [done|done|]. simpl.
  case_bool_decide as Hd; [done|]. simpl.
  rewrite for_each_guard.
  destruct (forallb in_DATAS data) eqn:Hfd; simpl; [|done].
  destruct Hbad as [Hex|Hdup].
  - exfalso. apply Exists_exists in Hex as (v & Hv & Hin).
    rewrite forallb_forall in Hfd. apply list_elem_of_In in Hv.
    rewrite (Hfd v Hv) in Hin. discriminate.
  - unfold has_dup. by rewrite bool_decide_eq_false_2.
Qed.

Lemma ExtractorMeta_new_accepts_witness :
  ∃ data feats fit, decl_data Color.decl = Some data ∧ decl_features Color.decl = Some feats ∧
                    decl_fit Color.decl = Some fit ∧ NoDup (strings_of feats).
Proof.
  destruct (proj1 (ExtractorMeta_new_accepts Color.decl))
    as (data & feats & fit & Hd & _ & _ & _ & Hf & _ & _ & Hnd & Hfit & _).
  - exists Color.cls. reflexivity.
  - by exists data, feats, fit.
Defined.

Lemma ExtractorMeta_new_bad_data_witness :
  ExtractorMeta_new MoreExamples.Doubled_decl = Raise (NameError "ExtractorError").
Proof.
  apply ExtractorMeta_new_bad_data. right. right.
  exists [VStr "magnitude"; VStr "magnitude"]. split; [reflexivity|]. right.
  vm_compute. intros H. apply NoDup_cons in H as [H _]. apply H. left.
Defined.

(** ** Instances *)

Lemma fold_left_insert_lookup {V} (g : string * V → V) (ps : list (string * V))
    (m0 : gmap string V) :
  dom (fold_left (λ m pd, <[fst pd := g pd]> m) ps m0) = dom m0 ∪ list_to_set ps.*1 ∧
  (NoDup ps.*1 → ∀ pd, pd ∈ ps →
     fold_left (λ m pd, <[fst pd := g pd]> m) ps m0 !! fst pd = Some (g pd)).
Proof.
  induction ps as [|pd ps IH] using rev_ind.
  - simpl. split; [set_solver|]. intros _ pd Hpd. by apply elem_of_nil in Hpd.
  - rewrite fold_left_app. simpl. destruct IH as [IHd IHl]. split.
    + rewrite dom_insert_L, IHd, fmap_app, list_to_set_app_L. simpl. set_solver.
    + rewrite fmap_app. intros Hnd pd' Hpd'.
      apply NoDup_app in Hnd as (Hnd & Hdisj & _).
      apply elem_of_app in Hpd' as [Hin|Hin%list_elem_of_singleton].
      * rewrite lookup_insert_ne; [by apply IHl|].
        intros Heq. apply (Hdisj (fst pd')); [|rewrite <- Heq; simpl; left].
        apply list_elem_of_fmap. by exists pd'.
      * subst pd'. by rewrite lookup_insert_eq.
Qed.

(** X8. A new instance resolves exactly its declared parameters: each
    declared parameter gets the value the space gives for it, or else its
    declared default, and whatever else the space offers is ignored. *)
Theorem Extractor_init_params (c : extractor_class) (sp : space) :
  NoDup (ExtractorConf.params (_conf c)).*1 →
  let ns := sp (ExtractorConf.features (_conf c)) in
  let self := Extractor_init c sp in
  inst_cls self = c ∧
  dom (inst_params self) = list_to_set (ExtractorConf.params (_conf c)).*1 ∧
  ∀ p d, (p, d) ∈ ExtractorConf.params (_conf c) →
         inst_params self !! p = Some (default d (ns !! p)).
Proof.
  intros Hnd ns self. split; [done|].
  destruct (fold_left_insert_lookup (λ pd, default (snd pd) (ns !! fst pd))
              (ExtractorConf.params (_conf c)) ∅) as [Hdom Hlook].
  split.
  - subst self. unfold Extractor_init. cbn [inst_params]. fold ns.
    rewrite Hdom. set_solver.
  - intros p d Hpd. exact (Hlook Hnd (p, d) Hpd).
Qed.

Lemma Extractor_init_params_witness :
  let self := Extractor_init MoreExamples.Lagged MoreExamples.space_200 in
  inst_params self !! "nlags" = Some (VInt 200) ∧
  dom (inst_params self) = {[ "nlags" ]}.
Proof.
  destruct (Extractor_init_params MoreExamples.Lagged MoreExamples.space_200)
    as (_ & Hdom & Hlook).
  - vm_compute. repeat constructor. set_solver.
  - split.
    + apply (Hlook "nlags" (VInt 100)). vm_compute. left.
    + rewrite Hdom. vm_compute. reflexivity.
Defined.

(** ** Building the keyword arguments *)

Lemma foldl_ext_result {A B} (f g : A → B → A) (a : A) (l : list B) :
  (∀ a x, f a x = g a x) → foldl f a l = foldl g a l.
Proof.
  intros H. revert a. induction l as [|x l IH]; intros a; [done|].
  simpl. by rewrite H, IH.
Qed.

Section kwargs_fold.
Context (f : string → result value).

Let step := λ (acc : result (gmap string value)) (k : string),
  kw ← acc; v ← f k; Return (<[k := v]> kw).

Lemma kwargs_fold_Raise (e : exn) (l : list string) : foldl step (Raise e) l = Raise e.
Proof. induction l as [|k l IH]; [done|]. exact IH. Qed.

Lemma kwargs_fold_Return (l : list string) (kw0 kw : gmap string value) :
  foldl step (Return kw0) l = Return kw →
  dom kw = dom kw0 ∪ list_to_set l ∧
  (∀ k, k ∈ l → ∃ v, f k = Return v ∧ kw !! k = Some v) ∧
  (∀ k, k ∉ l → kw !! k = kw0 !! k).
Proof.
  revert kw0. induction l as [|k l IH]; intros kw0 H.
  - simpl in H. inversion H; subst. split; [set_solver|]. split; [|done].
    intros k Hk. by apply elem_of_nil in Hk.
  - cbn [foldl] in H. unfold step at 2 in H. cbn [mbind result_bind] in H.
    destruct (f k) as [v|e] eqn:Hk; cbn [mbind result_bind] in H.
    2:{ rewrite kwargs_fold_Raise in H. discriminate. }
    apply IH in H as (Hdom & Hin & Hout). split; [|split].
    + rewrite Hdom, dom_insert_L. set_solver.
    + intros k' [->|Hk']%elem_of_cons; [|by apply Hin].
      destruct (decide (k ∈ l)) as [Hl|Hl]; [by apply Hin|].
      exists v. split; [done|]. by rewrite Hout, lookup_insert_eq.
    + intros k' Hk'. apply not_elem_of_cons in Hk' as [Hne Hk'].
      by rewrite Hout, lookup_insert_ne.
Qed.

Lemma kwargs_fold_first_error (l : list string) (kw0 : gmap string value) :
  Exists (λ k, ∃ e, f k = Raise e) l →
  ∃ k e, k ∈ l ∧ f k = Raise e ∧ foldl step (Return kw0) l = Raise e.
Proof.
  revert kw0. induction l as [|k l IH]; intros kw0 Hex; [by apply Exists_nil in Hex|].
  cbn [foldl]. unfold step at 2. cbn [mbind result_bind].
  destruct (f k) as [v|e] eqn:Hk; cbn [mbind result_bind].
  - apply Exists_cons in Hex as [[e He]|Hex]; [congruence|].
    destruct (IH (<[k := v]> kw0) Hex) as (k' & e & Hk' & He & Hfold).
    exists k', e. split; [by right|done].
  - exists k, e. split; [left|]. split; [done|]. apply kwargs_fold_Raise.
Qed.

Lemma kwargs_fold_all (l : list string) (kw0 : gmap string value) :
  Forall (λ k, ∃ v, f k = Return v) l →
  ∃ kw, foldl step (Return kw0) l = Return kw.
Proof.
  revert kw0. induction l as [|k l IH]; intros kw0 Hall; [by eexists|].
  apply Forall_cons in Hall as [[v Hv] Hall].
  cbn [foldl]. unfold step at 2. cbn [mbind result_bind]. rewrite Hv.
  cbn [mbind result_bind]. apply IH, Hall.
Qed.

End kwargs_fold.

(** The value [extract] reads for a dependency and for a channel. *)
Lemma build_kwargs_folds (self : instance) (data : list value)
    (dependencies : gmap string value) :
  let conf := _conf (inst_cls self) in
  let dep := λ k, match dependencies !! k with
                  | Some v => Return v | None => Raise (KeyError k) end in
  let chan := λ d, match DATA_IDXS !! d with
                   | None => Raise (KeyError d)
                   | Some idx => match data !! idx with
                                 | Some row => Return row | None => Raise IndexError end
                   end in
  build_kwargs self data dependencies =
    (kwargs ← foldl (λ acc k, kw ← acc; v ← dep k; Return (<[k := v]> kw))
                (Return ∅) (elements (ExtractorConf.dependencies conf));
     kwargs ← foldl (λ acc d, kw ← acc; v ← chan d; Return (<[d := v]> kw))
                (Return kwargs) (elements (ExtractorConf.data conf));
     Return (inst_params self ∪ kwargs)).
Proof.
  intros conf dep chan. unfold build_kwargs. fold conf.
  rewrite (foldl_ext_result _ (λ acc k, kw ← acc; v ← dep k; Return (<[k := v]> kw))).
  2:{ intros [kw|e] k; [|done]. subst dep. simpl. by destruct (dependencies !! k). }
  destruct (foldl _ (Return ∅) _) as [kw1|e]; [|done]. cbn [mbind result_bind].
  rewrite (foldl_ext_result _ (λ acc d, kw ← acc; v ← chan d; Return (<[d := v]> kw))).
  2:{ intros [kw|e] d; [|done]. subst chan. simpl.
      destruct (DATA_IDXS !! d) as [idx|]; [|done]. by destruct (data !! idx). }
  done.
Qed.

(** X9. When the mapping of dependency values lacks a declared dependency,
    [extract] raises [KeyError] for a declared dependency that is missing,
    before the [try] block: neither [setup] nor [fit] nor [teardown] is
    called. *)
Theorem extract_missing_dependency (self : instance) (data : list value)
    (dependencies : gmap string value) (k : string) :
  k ∈ ExtractorConf.dependencies (_conf (inst_cls self)) →
  dependencies !! k = None →
  ∃ k', k' ∈ ExtractorConf.dependencies (_conf (inst_cls self)) ∧
        dependencies !! k' = None ∧
        extract self data dependencies = (Raise (KeyError k'), (inst_attrs self, [])).
Proof.
  intros Hk Hnone. unfold extract. rewrite build_kwargs_folds. cbv zeta.
  edestruct (kwargs_fold_first_error
               (λ k, match dependencies !! k with
                     | Some v => Return v | None => Raise (KeyError k) end)
               (elements (ExtractorConf.dependencies (_conf (inst_cls self)))) ∅)
    as (k' & e & Hk' & He & Hfold).
  { apply Exists_exists. exists k. split; [by apply elem_of_elements|].
    rewrite Hnone. by eexists. }
  rewrite Hfold. cbn [mbind result_bind].
  destruct (dependencies !! k') eqn:Hdk; [discriminate|]. inversion He; subst e.
  exists k'. split; [by apply elem_of_elements in Hk'|]. done.
Qed.

Lemma extract_missing_dependency_witness :
  extract (Extractor_init Examples.Centered Examples.no_space) Examples.data9 ∅
  = (Raise (KeyError "Mean"),
     (inst_attrs (Extractor_init Examples.Centered Examples.no_space), [])).
Proof.
  destruct (extract_missing_dependency
              (Extractor_init Examples.Centered Examples.no_space) Examples.data9 ∅ "Mean")
    as (k' & Hk' & _ & H).
  - change ("Mean" ∈ (list_to_set ["Mean"] : gset string)). set_solver.
  - reflexivity.
  - assert (k' = "Mean") as ->; [|exact H].
    change (k' ∈ (list_to_set ["Mean"] : gset string)) in Hk'.
    apply elem_of_list_to_set in Hk'. by apply list_elem_of_singleton in Hk'.
Defined.

(** X10. When the dependencies are all supplied but the data array is too
    short for the slot of a declared channel, [extract] raises [IndexError]
    before the [try] block, and nothing is called on the instance. *)
Theorem extract_short_data (self : instance) (data : list value)
    (dependencies : gmap string value) (d : string) (idx : nat) :
  (∀ k, k ∈ ExtractorConf.dependencies (_conf (inst_cls self)) →
        is_Some (dependencies !! k)) →
  ExtractorConf.data (_conf (inst_cls self)) ⊆ dom DATA_IDXS →
  d ∈ ExtractorConf.data (_conf (inst_cls self)) →
  DATA_IDXS !! d = Some idx →
  length data ≤ idx →
  extract self data dependencies = (Raise IndexError, (inst_attrs self, [])).
Proof.
  intros Hdeps Hchan Hd Hidx Hlen. unfold extract. rewrite build_kwargs_folds. cbv zeta.
  edestruct (kwargs_fold_all
               (λ k, match dependencies !! k with
                     | Some v => Return v | None => Raise (KeyError k) end)
               (elements (ExtractorConf.dependencies (_conf (inst_cls self)))) ∅)
    as (kw1 & Hfold1).
  { apply Forall_forall. intros k Hk%elem_of_elements.
    destruct (Hdeps k Hk) as [v ->]. by eexists. }
  rewrite Hfold1. cbn [mbind result_bind].
  edestruct (kwargs_fold_first_error
               (λ d, match DATA_IDXS !! d with
                     | None => Raise (KeyError d)
                     | Some idx => match data !! idx with
                                   | Some row => Return row | None => Raise IndexError end
                     end)
               (elements (ExtractorConf.data (_conf (inst_cls self)))) kw1)
    as (d' & e & Hd' & He & Hfold2).
  { apply Exists_exists. exists d. split; [by apply elem_of_elements|].
    rewrite Hidx. rewrite (lookup_ge_None_2 data idx) by done. by eexists. }
  rewrite Hfold2. cbn [mbind result_bind].
  apply elem_of_elements, Hchan, elem_of_dom in Hd' as [idx' Hidx'].
  rewrite Hidx' in He. destruct (data !! idx'); [discriminate|]. by inversion He.
Qed.

Lemma extract_short_data_witness :
  extract (Extractor_init Color.cls Examples.no_space) [VArray []; VArray []] ∅
  = (Raise IndexError, (inst_attrs (Extractor_init Color.cls Examples.no_space), [])).
Proof.
  apply (extract_short_data _ _ _ "magnitude2" 3).
  - intros k Hk. change (k ∈ (list_to_set [] : gset string)) in Hk. set_solver.
  - intros d Hd.
    change (d ∈ (list_to_set ["magnitude"; "time"; "magnitude2"] : gset string)) in Hd.
    apply elem_of_list_to_set in Hd. apply elem_of_dom.
    repeat (apply elem_of_cons in Hd as [->|Hd]; [eexists; vm_compute; reflexivity|]).
    by apply elem_of_nil in Hd.
  - change ("magnitude2" ∈ (list_to_set ["magnitude"; "time"; "magnitude2"] : gset string)).
    set_solver.
  - vm_compute. reflexivity.
  - simpl. lia.
Defined.

(** X11. When the arguments can be built, they are named after the declared
    dependencies, the declared channels and the resolved parameters, and
    nothing else.  A parameter overrides a channel or dependency of the same
    name; otherwise a channel holds its slot of the data array, and a
    dependency that is not also a channel holds the value supplied for it.
    On a 9-slot array with every dependency supplied, building the arguments
    cannot fail. *)
Theorem build_kwargs_contents (self : instance) (data : list value)
    (dependencies : gmap string value) :
  let conf := _conf (inst_cls self) in
  (∀ kwargs, build_kwargs self data dependencies = Return kwargs →
     dom kwargs = ExtractorConf.dependencies conf ∪ ExtractorConf.data conf
                  ∪ dom (inst_params self) ∧
     (∀ p v, inst_params self !! p = Some v → kwargs !! p = Some v) ∧
     (∀ d, d ∈ ExtractorConf.data conf → inst_params self !! d = None →
           ∃ idx, DATA_IDXS !! d = Some idx ∧ is_Some (data !! idx) ∧
                  kwargs !! d = data !! idx) ∧
     (∀ k, k ∈ ExtractorConf.dependencies conf → k ∉ ExtractorConf.data conf →
           inst_params self !! k = None →
           is_Some (dependencies !! k) ∧ kwargs !! k = dependencies !! k)) ∧
  ((∀ k, k ∈ ExtractorConf.dependencies conf → is_Some (dependencies !! k)) →
   ExtractorConf.data conf ⊆ dom DATA_IDXS →
   9 ≤ length data →
   ∃ kwargs, build_kwargs self data dependencies = Return kwargs).
Proof.
  intros conf. split.
  - intros kwargs H. rewrite build_kwargs_folds in H. cbv zeta in H. fold conf in H.
    apply bind_Return_inv in H as (kw1 & H1 & H).
    apply bind_Return_inv in H as (kw2 & H2 & H).
    inversion H; subst kwargs; clear H.
    apply kwargs_fold_Return in H1 as (Hdom1 & Hin1 & Hout1).
    apply kwargs_fold_Return in H2 as (Hdom2 & Hin2 & Hout2).
    rewrite dom_empty_L in Hdom1.
    split; [|split; [|split]].
    + rewrite dom_union_L, Hdom2, Hdom1, !list_to_set_elements_L. set_solver.
    + intros p v Hp. by apply lookup_union_Some_l.
    + intros d Hd Hnp. destruct (Hin2 d) as (v & Hv & Hkw); [by apply elem_of_elements|].
      destruct (DATA_IDXS !! d) as [idx|]; [|discriminate].
      exists idx. split; [done|].
      destruct (data !! idx) as [row|]; [|discriminate]. inversion Hv; subst v.
      split; [by eexists|]. by rewrite lookup_union_r.
    + intros k Hk Hnd Hnp.
      destruct (Hin1 k) as (v & Hv & Hkw); [by apply elem_of_elements|].
      destruct (dependencies !! k) as [v'|]; [|discriminate]. inversion Hv; subst v'.
      split; [by eexists|].
      rewrite lookup_union_r by done. rewrite Hout2; [done|].
      by rewrite elem_of_elements.
  - intros Hdeps Hchan Hlen. rewrite build_kwargs_folds. cbv zeta. fold conf.
    edestruct (kwargs_fold_all
                 (λ k, match dependencies !! k with
                       | Some v => Return v | None => Raise (KeyError k) end)
                 (elements (ExtractorConf.dependencies conf)) ∅) as (kw1 & ->).
    { apply Forall_forall. intros k Hk%elem_of_elements.
      destruct (Hdeps k Hk) as [v ->]. by eexists. }
    cbn [mbind result_bind].
    edestruct (kwargs_fold_all
                 (λ d, match DATA_IDXS !! d with
                       | None => Raise (KeyError d)
                       | Some idx => match data !! idx with
                                     | Some row => Return row | None => Raise IndexError end
                       end)
                 (elements (ExtractorConf.data conf)) kw1) as (kw2 & ->).
    { apply Forall_forall. intros d Hd%elem_of_elements.
      pose proof (Hchan d Hd) as [idx Hidx]%elem_of_dom. rewrite Hidx.
      assert (idx < 9)%nat.
      { unfold DATA_IDXS in Hidx. apply elem_of_list_to_map_2 in Hidx.
        repeat (apply elem_of_cons in Hidx as [[= _ <-]|Hidx]; [lia|]).
        by apply elem_of_nil in Hidx. }
      destruct (lookup_lt_is_Some_2 data idx) as [row ->]; [lia|]. by eexists. }
    by eexists.
Qed.

(** ** A failing [setup] *)

(** X20. When the arguments are built and [setup] raises, [fit] is never
    called: [extract] goes straight to [teardown], and, [teardown] returning,
    raises the exception of [setup]; the instance is left as [teardown] left
    it. *)
Theorem extract_setup_failure (self : instance) (data : list value)
    (dependencies kwargs : gmap string value) (e : exn) (u : unit) (st1 st2 : attrs) :
  build_kwargs self data dependencies = Return kwargs →
  cls_setup (inst_cls self) (inst_attrs self) = (Raise e, st1) →
  cls_teardown (inst_cls self) st1 = (Return u, st2) →
  extract self data dependencies = (Raise e, (st2, [CallSetup; CallTeardown])).
Proof.
  intros Hkw Hsetup Hdown. unfold extract. rewrite Hkw.
  rewrite extract_try_unfold. cbv zeta. by rewrite Hsetup, Hdown.
Qed.

Lemma extract_setup_failure_witness :
  extract (Extractor_init MoreExamples.Unready Examples.no_space) Examples.data9 ∅
  = (Raise (UserError "setup failed"),
     (inst_attrs (Extractor_init MoreExamples.Unready Examples.no_space),
      [CallSetup; CallTeardown])).
Proof.
  eapply (extract_setup_failure (Extractor_init MoreExamples.Unready Examples.no_space)
            Examples.data9 ∅ _ _ ()).
  - vm_compute. reflexivity.
  - reflexivity.
  - reflexivity.
Defined.

(** ** More on SlottedA_length *)

Lemma trim_back_app_zeros (found : list Z) (z : nat) :
  trim_back (Z.eqb 0) (found ++ replicate z 0%Z) = trim_back (Z.eqb 0) found.
Proof.
  unfold trim_back. rewrite reverse_app, reverse_replicate. f_equal.
  induction z as [|z IH]; [done|]. simpl. exact IH.
Qed.

Lemma np_set_item_length {A} (a a' : list A) (i : Z) (x : A) :
  np_set_item a i x = Return a' → length a' = length a.
Proof.
  unfold np_set_item. destruct (_ && _); [|discriminate].
  intros [= <-]. by rewrite length_insert.
Qed.

Section SlottedA_length_rounds.
Import SlottedA_length.

Variable np_mean : list F64.t → F64.t.
Variable np_sort : list F64.t → list F64.t.

Lemma slot_step_Raise (data : list F64.t) (ks : list (list Z)) (off : Z) (e : exn)
    (l : list Z) :
  foldl (slot_step data ks off) (Raise e) l = Raise e.
Proof. induction l as [|k l IH]; [done|]. simpl. exact IH. Qed.

(** The slots a [for k in ...] loop records are among the slot indices it
    ranges over, written after those already found. *)
Lemma slot_fold_found (data : list F64.t) (ks : list (list Z)) (off : Z) (l : list Z) :
  ∀ prod found z i prod' slots' i',
    (i - off = Z.of_nat (length found))%Z →
    foldl (slot_step data ks off) (Return (prod, found ++ replicate z 0%Z, i)) l
    = Return (prod', slots', i') →
    ∃ found' z', slots' = (found ++ found') ++ replicate z' 0%Z ∧
                 Forall (λ k, k ∈ l) found' ∧
                 length prod' = length prod.
Proof.
  induction l as [|k l IH]; intros prod found z i prod' slots' i' Hi Hfold.
  - simpl in Hfold. inversion Hfold; subst. exists [], z.
    rewrite app_nil_r. by repeat split.
  - cbn [foldl] in Hfold.
    destruct (slot_step data ks off (Return (prod, found ++ replicate z 0%Z, i)) k)
      as [[[prod1 slots1] i1]|e] eqn:Hstep.
    2:{ rewrite slot_step_Raise in Hfold. discriminate. }
    unfold slot_step in Hstep. cbn [mbind result_bind] in Hstep.
    case_bool_decide as Hidx.
    + apply bind_Return_inv in Hstep as (ps & _ & Hstep).
      apply bind_Return_inv in Hstep as (prod2 & Hprod & Hstep).
      apply bind_Return_inv in Hstep as (slots2 & Hset & Hstep).
      inversion Hstep; subst prod1 slots1 i1; clear Hstep.
      apply np_set_item_length in Hprod.
      apply np_set_item_Return in Hset as [Hlt ->]; [|lia].
      rewrite length_app, length_replicate in Hlt.
      replace (Z.to_nat (i - off)) with (length found + 0)%nat in * by lia.
      rewrite insert_app_r in Hfold.
      destruct z as [|z]; [lia|]. simpl in Hfold.
      replace (found ++ k :: replicate z 0%Z) with ((found ++ [k]) ++ replicate z 0%Z)
        in Hfold by (by rewrite <- app_assoc).
      apply IH in Hfold as (found' & z' & -> & Hall & Hlen).
      2:{ rewrite length_app. simpl. lia. }
      exists (k :: found'), z'. split; [|split].
      * by rewrite <- (app_assoc found [k] found').
      * constructor; [left|]. eapply Forall_impl; [exact Hall|]. intros; by right.
      * by rewrite Hlen.
    + apply bind_Return_inv in Hstep as (prod2 & Hprod & Hstep).
      inversion Hstep; subst prod1 slots1 i1; clear Hstep.
      apply np_set_item_length in Hprod.
      apply IH in Hfold as (found' & z' & -> & Hall & Hlen); [|done].
      exists found', z'. split; [done|]. split.
      * eapply Forall_impl; [exact Hall|]. intros; by right.
      * by rewrite Hlen.
Qed.

(** X12. A round of the slotted autocorrelation that returns reports one
    value per slot of the budget [K], and only slots of the range it
    searched: slot [0] and the slots of [[1, K)] in the first round, the
    slots of [[K1, K)] in a second round, which resumes from the previous
    boundary [K1] and leaves the slots below it out. *)
Theorem slotted_autocorrelation_slots (data time : list F64.t) (T : F64.t) (K K1 : Z)
    (second_round : bool) (SAC : list F64.t) (slots : list Z) :
  slotted_autocorrelation np_mean data time T K second_round K1 = Return (SAC, slots) →
  length SAC = Z.to_nat K ∧
  Forall (λ k, ((if second_round then K1 else 0) <= k < K)%Z) slots.
Proof.
  intros H. unfold slotted_autocorrelation in H.
  apply bind_Return_inv in H as (tmin & _ & H). cbv zeta in H.
  apply bind_Return_inv in H as (p0 & _ & H).
  apply bind_Return_inv in H as (prod & Hprod & H).
  apply bind_Return_inv in H as (slots0 & Hset & H).
  apply bind_Return_inv in H as ([[prod' slots'] i'] & Hfold & H).
  apply bind_Return_inv in H as (prod0 & _ & H).
  inversion H; subst SAC slots; clear H.
  apply np_set_item_length in Hprod.
  apply np_set_item_Return in Hset as [HK ->]; [|lia].
  rewrite length_replicate in HK.
  rewrite insert_replicate in Hfold.
  rewrite length_map.
  destruct second_round; cbn [negb] in Hfold.
  - apply (slot_fold_found _ _ _ _ _ [] (Z.to_nat K)) in Hfold
      as (found & z & -> & Hall & Hlen); [|done].
    split.
    { rewrite Hlen, Hprod. unfold F64.zeros. by rewrite length_replicate. }
    cbn [app]. rewrite trim_back_app_zeros.
    destruct (trim_back_split (Z.eqb 0) found) as (post & Hsplit & _).
    rewrite Hsplit in Hall. apply Forall_app in Hall as [Hall _].
    eapply Forall_impl; [exact Hall|]. intros k Hk.
    unfold np_arange in Hk. apply elem_of_seqZ in Hk. lia.
  - replace (replicate (Z.to_nat K) 0%Z) with ([0%Z] ++ replicate (Z.to_nat K - 1) 0%Z)
      in Hfold.
    2:{ destruct (Z.to_nat K) as [|n] eqn:HKn; [lia|]. simpl. by rewrite Nat.sub_0_r. }
    apply (slot_fold_found _ _ _ _ _ [0%Z]) in Hfold
      as (found & z & -> & Hall & Hlen); [|done].
    split.
    { rewrite Hlen, Hprod. unfold F64.zeros. by rewrite length_replicate. }
    rewrite trim_back_app_zeros.
    destruct (trim_back_split (Z.eqb 0) ([0%Z] ++ found)) as (post & Hsplit & _).
    assert (Hall' : Forall (λ k, (0 <= k < K)%Z) ([0%Z] ++ found)).
    { apply Forall_app. split.
      - constructor; [lia|constructor].
      - eapply Forall_impl; [exact Hall|]. intros k Hk.
        unfold np_arange in Hk. apply elem_of_seqZ in Hk. lia. }
    rewrite Hsplit in Hall'. by apply Forall_app in Hall' as [Hall' _].
Qed.

(** X13. With the default [T = None] a light curve of fewer than three
    epochs has no slot width: [sorted_deltaT[int(N * 0.05) + 1]] is out of
    range, and [fit] raises [IndexError] before any autocorrelation is
    computed. *)
Theorem start_conditions_short_curve (magnitude time : list F64.t) :
  (∀ l, length (np_sort l) = length l) →
  (length time ≤ 2)%nat →
  start_conditions np_mean np_sort magnitude time None = Raise IndexError ∧
  ∀ fuel, fit np_mean np_sort fuel magnitude time None = Done (Raise IndexError, []).
Proof.
  intros Hsort Hlen.
  assert (Hstart : start_conditions np_mean np_sort magnitude time None = Raise IndexError).
  { unfold start_conditions.
    assert (Hidx : (F64.to_int64 (PrimFloat.mul (F64.of_int (Z.of_nat (length time)))
                                    F64.five_percent) + 1 = 1)%Z).
    { destruct time as [|a [|b [|c time]]]; [vm_compute; reflexivity..|simpl in Hlen; lia]. }
    rewrite Hidx.
    assert (Hd : (length (np_sort (F64.diff time)) ≤ 1)%nat).
    { rewrite Hsort.
      destruct time as [|a [|b [|c time]]]; cbn; [lia..|simpl in Hlen; lia]. }
    unfold np_index at 1. cbn [Z.ltb Z.compare].
    replace (1 <? Z.of_nat (length (np_sort (F64.diff time))))%Z with false
      by (symmetry; apply Z.ltb_ge; lia).
    done. }
  split; [exact Hstart|]. intros fuel. unfold fit. by rewrite Hstart.
Qed.

End SlottedA_length_rounds.

Section SlottedA_length_more_examples.
Import PrimFloat.

Lemma slotted_autocorrelation_slots_witness :
  ∃ SAC slots,
    SlottedA_length.slotted_autocorrelation Examples64.np_mean
      Examples64.flip_magnitude Examples64.grid_time Examples64.narrow_slot 200 true 100
    = Return (SAC, slots) ∧
    slots = [128%Z] ∧
    length SAC = 200%nat ∧
    Forall (λ k, (100 <= k < 200)%Z) slots.
Proof.
  eexists _, _. split; [vm_compute; reflexivity|]. split; [reflexivity|].
  apply (slotted_autocorrelation_slots Examples64.np_mean
           Examples64.flip_magnitude Examples64.grid_time Examples64.narrow_slot
           200 100 true).
  vm_compute. reflexivity.
Defined.

Lemma start_conditions_short_curve_witness :
  SlottedA_length.fit Examples64.np_mean Examples64.np_sort 0
    [1; 2]%float [0; 1]%float None
  = SlottedA_length.Done (Raise IndexError, []).
Proof.
  apply (start_conditions_short_curve Examples64.np_mean Examples64.np_sort).
  - intros l. unfold Examples64.np_sort, stable_sort.
    induction l as [|x l IH]; [done|]. cbn [foldr length]. rewrite <- IH.
    generalize (foldr (insert_by Examples64.key_le) [] l). intros s.
    induction s as [|y s IHs]; [done|].
    cbn [insert_by]. destruct (Examples64.key_le x y); [done|].
    cbn [length]. by rewrite IHs.
  - simpl. lia.
Defined.

End SlottedA_length_more_examples.

(** ** More on LombScargle *)

Lemma np_index_raises {A} (a : list A) (i : Z) (e : exn) :
  np_index a i = Raise e → e = IndexError.
Proof.
  unfold np_index. destruct (_ && _); [|by intros [= <-]].
  destruct (a !! _); [discriminate|by intros [= <-]].
Qed.

Lemma np_index_past_end {A} (a : list A) (i : Z) :
  (Z.of_nat (length a) <= i)%Z → np_index a i = Raise IndexError.
Proof.
  intros Hge. unfold np_index.
  replace (i <? 0)%Z with false by (symmetry; apply Z.ltb_ge; lia).
  replace (i <? Z.of_nat (length a))%Z with false by (symmetry; apply Z.ltb_ge; lia).
  by destruct (0 <=? i)%Z.
Qed.

Lemma np_take_raises {A} (a : list A) (idx : list Z) (e : exn) :
  np_take a idx = Raise e → e = IndexError.
Proof.
  unfold np_take. induction idx as [|i idx IH]; [discriminate|].
  cbn [mapM]. destruct (np_index a i) as [x|e'] eqn:Hi; cbn [mbind result_bind].
  - destruct (mapM (np_index a) idx) as [xs|e'']; cbn [mbind result_bind].
    + discriminate.
    + intros [= <-]. by apply IH.
  - intros [= <-]. by apply np_index_raises in Hi.
Qed.

Lemma np_take_out_of_range {A} (a : list A) (idx : list Z) (i : Z) :
  i ∈ idx → (Z.of_nat (length a) <= i)%Z → np_take a idx = Raise IndexError.
Proof.
  intros Hi Hge.
  destruct (np_take a idx) as [xs|e] eqn:Htake.
  - exfalso. unfold np_take in Htake. revert xs Htake Hi.
    induction idx as [|j idx IH]; intros xs Htake Hi; [by apply elem_of_nil in Hi|].
    cbn [mapM] in Htake. apply elem_of_cons in Hi as [<-|Hi].
    + rewrite np_index_past_end in Htake by done. discriminate.
    + destruct (np_index a j); cbn [mbind result_bind] in Htake; [|discriminate].
      destruct (mapM (np_index a) idx) as [ys|]; [|discriminate]. by apply (IH ys).
  - by apply np_take_raises in Htake as ->.
Qed.

Section LombScargle_more_facts.

Variable fasper :
  list F64.t → list F64.t → F64.t → F64.t →
  result (list F64.t * list F64.t * Z * Z * F64.t).
Variables np_mean np_std np_var np_sum : list F64.t → F64.t.
Variable np_power : F64.t → Z → F64.t.
Variable np_argsort : list F64.t → list nat.

(** X14. Nothing checks that the two channels have one length: when the
    periodogram search returns and there are fewer magnitudes than epochs,
    reordering the magnitudes by the folded times reads past their end, and
    [fit] raises [IndexError]. *)
Theorem LombScargle_fit_short_magnitude (magnitude time : list F64.t) (ofac : F64.t)
    (fx fy : list F64.t) (nout jmax : Z) (prob freq : F64.t) :
  fasper time magnitude ofac F64.hundred = Return (fx, fy, nout, jmax, prob) →
  np_index fx jmax = Return freq →
  (∀ l, np_argsort l ≡ₚ seq 0 (length l)) →
  (length magnitude < length time)%nat →
  LombScargle.fit fasper np_mean np_std np_var np_sum np_power np_argsort
    magnitude time ofac = Raise IndexError.
Proof.
  intros Hsearch Hpeak Hperm Hlen.
  unfold LombScargle.fit, LombScargle._compute_ls.
  rewrite Hsearch. cbn [mbind result_bind]. rewrite Hpeak. cbn [mbind result_bind].
  set (new_time := LombScargle.fold_on _ time).
  rewrite (np_take_out_of_range magnitude _ (Z.of_nat (length magnitude))); [done| |lia].
  apply list_elem_of_fmap. exists (length magnitude). split; [done|].
  rewrite Hperm. apply elem_of_seq. subst new_time. unfold LombScargle.fold_on.
  rewrite length_map. lia.
Qed.

End LombScargle_more_facts.

Section LombScargle_more_examples.
Import PrimFloat.

Lemma insert_by_Permutation {A} (le : A → A → bool) (x : A) (l : list A) :
  insert_by le x l ≡ₚ x :: l.
Proof.
  induction l as [|y l IH]; [done|].
  cbn [insert_by]. destruct (le x y); [done|].
  rewrite IH. apply Permutation_swap.
Qed.

Lemma stable_sort_Permutation {A} (le : A → A → bool) (l : list A) :
  stable_sort le l ≡ₚ l.
Proof.
  unfold stable_sort. induction l as [|x l IH]; [done|].
  cbn [foldr]. by rewrite insert_by_Permutation, IH.
Qed.

Lemma fst_imap_pair {A} (l : list A) (g : nat → nat) :
  fst <$> imap (λ i x, (g i, x)) l = g <$> seq 0 (length l).
Proof.
  revert g. induction l as [|x l IH]; intros g; [done|].
  rewrite imap_cons. simpl. f_equal.
  rewrite <- fmap_S_seq, <- list_fmap_compose. apply (IH (g ∘ S)).
Qed.

Lemma fst_imap_index {A} (l : list A) :
  fst <$> imap (λ i x, (i, x)) l = seq 0 (length l).
Proof.
  change (λ (i : nat) (x : A), (i, x)) with (λ (i : nat) (x : A), (id i, x)).
  rewrite fst_imap_pair. apply list_fmap_id.
Qed.

Lemma Examples64_np_argsort_perm (l : list F64.t) :
  Examples64.np_argsort l ≡ₚ seq 0 (length l).
Proof.
  unfold Examples64.np_argsort. rewrite stable_sort_Permutation.
  by rewrite fst_imap_index.
Qed.

Lemma LombScargle_fit_short_magnitude_witness :
  LombScargle.fit Examples64.fasper_unit_peak Examples64.np_mean Examples64.np_std
    Examples64.np_var Examples64.np_sum Examples64.np_power Examples64.np_argsort
    [1; -1; 1]%float Examples64.folding_time 6%float
  = Raise IndexError.
Proof.
  apply (LombScargle_fit_short_magnitude Examples64.fasper_unit_peak Examples64.np_mean
           Examples64.np_std Examples64.np_var Examples64.np_sum Examples64.np_power
           Examples64.np_argsort _ _ _ [1%float] [1%float] 1 0 0%float 1%float).
  - reflexivity.
  - reflexivity.
  - apply Examples64_np_argsort_perm.
  - simpl. lia.
Defined.

End LombScargle_more_examples.

(** ** Con *)

Section Con_facts.

Variables np_std np_mean : list F64.t → F64.t.

Let out_of_range (magnitude : list F64.t) :=
  Con.out_of_range (np_mean magnitude) (np_std magnitude).

(** The inner loop ends with the flag set exactly when every magnitude of
    the window is out of range. *)
Lemma Con_window (magnitude : list F64.t) (m sigma : F64.t) (i c : nat) :
  ∀ j flag,
    (i + j + c ≤ length magnitude)%nat →
    Con.window magnitude m sigma (Z.of_nat i) (seqZ (Z.of_nat j) (Z.of_nat c)) flag
    = Return (match c with
              | O => flag
              | S _ => forallb (Con.out_of_range m sigma) (take c (drop (i + j) magnitude))
              end).
Proof.
  induction c as [|c IH]; intros j flag Hlen; [done|].
  rewrite seqZ_cons by lia. cbn [Con.window].
  destruct (lookup_lt_is_Some_2 magnitude (i + j)) as [x Hx]; [lia|].
  replace (Z.of_nat i + Z.of_nat j)%Z with (Z.of_nat (i + j)) by lia.
  rewrite (np_index_nat _ _ _ Hx). cbn [mbind result_bind].
  rewrite (drop_S _ _ _ Hx). cbn [take forallb].
  destruct (Con.out_of_range m sigma x); [|done].
  replace (Z.succ (Z.of_nat j)) with (Z.of_nat (S j)) by lia.
  replace (Z.pred (Z.of_nat (S c))) with (Z.of_nat c) by lia.
  rewrite IH by lia. replace (i + S j)%nat with (S (i + j)) by lia.
  destruct c; [by rewrite take_0|done].
Qed.

(** X15. For a window length [c] between 1 and the number of magnitudes,
    [Con.fit] never raises: it counts the windows of [c] consecutive
    magnitudes that are all further than [2 sigma] from the mean, and divides
    the count, which is at most the number [N - c + 1] of windows, by that
    number. *)
Theorem Con_fit_counts (magnitude : list F64.t) (c : nat) :
  (1 ≤ c ≤ length magnitude)%nat →
  let windows := (length magnitude - c + 1)%nat in
  let count := length (Con.runs np_std np_mean magnitude c) in
  Con.fit np_std np_mean magnitude (Z.of_nat c)
  = Return (Con.Float (PrimFloat.div
                         (PrimFloat.mul (F64.of_int (Z.of_nat count)) PrimFloat.one)
                         (F64.of_int (Z.of_nat windows)))) ∧
  (count ≤ windows)%nat.
Proof.
  intros Hc windows count. split.
  2:{ subst count windows. unfold Con.runs.
      etransitivity; [apply length_filter|]. by rewrite length_seq. }
  unfold Con.fit.
  replace (Z.of_nat (length magnitude) <? Z.of_nat c)%Z with false
    by (symmetry; apply Z.ltb_ge; lia).
  replace (Z.of_nat (length magnitude) - Z.of_nat c + 1)%Z with (Z.of_nat windows)
    by (subst windows; lia).
  assert (Hfold : ∀ n i0 acc,
            (i0 + n + c ≤ length magnitude + 1)%nat →
            foldl (λ acc i,
                     count ← acc;
                     flag ← Con.window magnitude (np_mean magnitude) (np_std magnitude) i
                              (xrange (Z.of_nat c)) false;
                     Return (if flag : bool then (count + 1)%Z else count))
              (Return acc) (seqZ (Z.of_nat i0) (Z.of_nat n))
            = Return (acc + Z.of_nat
                        (length (filter (λ i, forallb (out_of_range magnitude)
                                                (take c (drop i magnitude)) = true)
                                   (seq i0 n))))%Z).
  { induction n as [|n IH]; intros i0 acc Hn.
    - change (seq i0 0) with (@nil nat). rewrite filter_nil.
      change (seqZ (Z.of_nat i0) (Z.of_nat 0)) with (@nil Z).
      cbn [foldl length]. by rewrite Z.add_0_r.
    - rewrite seqZ_cons by lia. cbn [foldl mbind result_bind].
      unfold xrange. change 0%Z with (Z.of_nat 0).
      rewrite Con_window by lia. cbn [mbind result_bind].
      replace (Z.succ (Z.of_nat i0)) with (Z.of_nat (S i0)) by lia.
      replace (Z.pred (Z.of_nat (S n))) with (Z.of_nat n) by lia.
      rewrite IH by lia. f_equal.
      destruct c as [|c']; [lia|]. rewrite Nat.add_0_r.
      cbn [seq]. rewrite filter_cons. subst out_of_range. cbv beta.
      destruct (forallb _ _) eqn:Hall.
      + rewrite decide_True by done. cbn [length]. lia.
      + rewrite decide_False by done. lia. }
  unfold xrange at 2. change 0%Z with (Z.of_nat 0) at 2.
  rewrite Hfold by (subst windows; lia). cbn [mbind result_bind].
  rewrite Z.add_0_l. done.
Qed.

End Con_facts.

Section Con_examples.
Import PrimFloat.

(** Sixteen magnitudes, three of them in a row away from the others. *)
Lemma Con_fit_counts_witness :
  Con.fit Examples64.np_std Examples64.np_mean
    [0; 0; 0; 0; 0; 1; 1; 1; 0; 0; 0; 0; 0; 0; 0; 0]%float 3
  = Return (Con.Float (1 / 14)%float).
Proof.
  destruct (Con_fit_counts Examples64.np_std Examples64.np_mean
              [0; 0; 0; 0; 0; 1; 1; 1; 0; 0; 0; 0; 0; 0; 0; 0]%float 3) as [H _].
  - simpl. lia.
  - etransitivity; [exact H|]. vm_compute. reflexivity.
Defined.

End Con_examples.

(** ** PairSlopeTrend *)

Lemma ltb_zero_not_leb (d : F64.t) :
  PrimFloat.ltb PrimFloat.zero d = true → PrimFloat.leb d PrimFloat.zero = false.
Proof.
  rewrite FloatAxioms.ltb_spec, FloatAxioms.leb_spec.
  change (FloatOps.Prim2SF PrimFloat.zero) with (SpecFloat.S754_zero false).
  by destruct (FloatOps.Prim2SF d) as [[]|[]| |[] ? ?].
Qed.

Lemma length_removelast {A} (l : list A) : length (removelast l) = (length l - 1)%nat.
Proof.
  induction l as [|x l IH]; [done|].
  destruct l as [|y l]; [done|].
  change (removelast (x :: y :: l)) with (x :: removelast (y :: l)).
  cbn [length] in *. lia.
Qed.

Lemma length_diff (l : list F64.t) : length (F64.diff l) = (length l - 1)%nat.
Proof.
  unfold F64.diff. rewrite length_zip_with, length_removelast.
  destruct l; simpl; lia.
Qed.

Lemma length_filter_disjoint {A} (P Q : A → Prop)
    `{∀ x, Decision (P x)} `{∀ x, Decision (Q x)} (l : list A) :
  (∀ x, P x → ¬ Q x) →
  (length (filter P l) + length (filter Q l) ≤ length l)%nat.
Proof.
  intros HPQ. induction l as [|x l IH]; [done|].
  rewrite !filter_cons. destruct (decide (P x)) as [HP|HP].
  - rewrite decide_False by auto. cbn [length]. lia.
  - destruct (decide (Q x)); cbn [length]; lia.
Qed.



(** ** AutocorLength *)

Section AutocorLength_facts.
Import AutocorLength.

Variable acf : list F64.t → Z → result (list F64.t).

(** [m] enlargements of the lag window that find no value below [1/e] use
    up [m] iterations and leave the loop where it was, [100 m] lags
    further. *)
Lemma AutocorLength_widen_shift (magnitude : list F64.t) (m : nat) :
  ∀ nlags fuel,
    (∀ j, (1 ≤ j ≤ m)%nat →
          ∃ AC, acf magnitude (nlags + 100 * Z.of_nat j) = Return AC ∧
                first_below AC = None) →
    widen acf (m + fuel) magnitude nlags None
    = widen acf fuel magnitude (nlags + 100 * Z.of_nat m) None.
Proof.
  induction m as [|m IH]; intros nlags fuel Hnone.
  - cbn [Nat.add]. f_equal. lia.
  - cbn [Nat.add widen].
    destruct (Hnone 1%nat ltac:(lia)) as (AC & HAC & Hk).
    replace (nlags + 100 * Z.of_nat 1)%Z with (nlags + 100)%Z in HAC by lia.
    rewrite HAC, Hk. rewrite IH.
    + f_equal. lia.
    + intros j Hj. destruct (Hnone (S j) ltac:(lia)) as (AC' & HAC' & Hk').
      exists AC'. split; [|done]. rewrite <- HAC'. f_equal. lia.
Qed.


(** X18. The loop of [AutocorLength.fit] has no ceiling: when no lag window
    [nlags + 100 j] has a value below [1/e], the loop is still running
    whatever the fuel. *)
Theorem AutocorLength_fit_no_ceiling (magnitude : list F64.t) (nlags : Z) :
  (∀ j : nat, ∃ AC, acf magnitude (nlags + 100 * Z.of_nat j) = Return AC ∧
                    first_below AC = None) →
  ∀ fuel, fit acf fuel magnitude nlags = SlottedA_length.OutOfFuel.
Proof.
  intros Hnone fuel. unfold fit.
  destruct (Hnone 0%nat) as (AC0 & HAC0 & Hk0).
  replace (nlags + 100 * Z.of_nat 0)%Z with nlags in HAC0 by lia.
  rewrite HAC0, Hk0.
  replace fuel with (fuel + 0)%nat by lia.
  rewrite AutocorLength_widen_shift; [done|].
  intros j _. apply Hnone.
Qed.

End AutocorLength_facts.

Section AutocorLength_examples.
Import PrimFloat.


(** An autocorrelation function that stays at [1]. *)
Lemma AutocorLength_fit_no_ceiling_witness :
  AutocorLength.fit (λ _ _, Return [1%float]) 1000 [] 100 = SlottedA_length.OutOfFuel.
Proof.
  apply (AutocorLength_fit_no_ceiling (λ _ _, Return [1%float]) [] 100).
  intros j. by exists [1%float].
Defined.

End AutocorLength_examples.

(** ** MaxSlope *)

(** X19. [MaxSlope.fit] has no value on a light curve of fewer than two
    epochs: there is no first difference, and [np.max] of the empty array of
    slopes (or the division of arrays of different lengths before it) raises
    [ValueError]. *)
Theorem MaxSlope_fit_short (magnitude time : list F64.t) :
  (length magnitude ≤ 1)%nat ∨ (length time ≤ 1)%nat →
  ∃ msg, MaxSlope.fit magnitude time = Raise (ValueError msg).
Proof.
  intros Hshort. unfold MaxSlope.fit.
  set (dm := map PrimFloat.abs (F64.diff magnitude)).
  set (dt := F64.diff time).
  assert (Hnil : dm = [] ∨ dt = []).
  { destruct Hshort as [H|H]; [left|right].
    - subst dm. apply length_zero_iff_nil. rewrite length_map, length_diff. lia.
    - subst dt. apply length_zero_iff_nil. rewrite length_diff. lia. }
  clearbody dm dt. unfold MaxSlope.broadcast.
  destruct Hnil as [-> | ->].
  - destruct dt as [|y [|z dt]]; cbn; by eexists.
  - destruct dm as [|x [|z dm]]; cbn; by eexists.
Qed.

Section MaxSlope_examples.
Import PrimFloat.

Lemma MaxSlope_fit_short_witness :
  MaxSlope.fit [1%float] [0%float]
  = Raise (ValueError "zero-size array to reduction operation maximum which has no identity").
Proof.
  destruct (MaxSlope_fit_short [1%float] [0%float]) as [msg H].
  - left. simpl. lia.
  - rewrite H. vm_compute in H. symmetry. exact H.
Defined.

End MaxSlope_examples.
